(** * DME equipment documentation: the batch-and-fold upload pipeline

    A shallow embedding of [process_uploads] and the functions it calls
    ([extract_equipment_data], [create_equipment_doc], [create_drive_folder],
    [upload_csv_to_drive]) from [dme_webapp.py], followed by the properties
    of the pipeline: flattening of uploads, batching into operations,
    per-image failure isolation, CSV emission and the final summary.

    Conventions.
    - A Python [str] is a [string]: the UTF-8 bytes of the text.  The only
      suffixes and separators the code tests for are ASCII, so suffix tests
      and splitting on bytes agree with the same operations on code points.
    - A raised [Exception] is [Raise msg] with [msg = str(e)]; that is what
      [except Exception as e] observes.
    - The outside world (Drive, Docs, Gemini, the clock, pandas) is a record
      of response functions; each response may depend on the whole history of
      calls made so far, so the services are arbitrary stateful collaborators.
    - Every effect is appended to a chronological [trace]. *)

From Stdlib Require Import String Ascii Bool Arith ZArith Lia List.
From Stdlib Require Import DecimalString DecimalNat.
Import ListNotations.
Local Open Scope string_scope.
Local Open Scope list_scope.
Local Open Scope nat_scope.

(** String concatenation, Python's [+] on [str] and the glue of f-strings. *)
Infix "+++" := String.append (right associativity, at level 60).

Set Implicit Arguments.
Set Warnings "-register-all".

(** ** Results of fallible computations *)

Inductive result (A : Type) : Type :=
| Ok (a : A)
| Raise (msg : string).

Arguments Ok {A} a.
Arguments Raise {A} msg.

Definition rbind {A B} (r : result A) (k : A -> result B) : result B :=
  match r with
  | Ok a => k a
  | Raise msg => Raise msg
  end.

Declare Scope result_scope.
Delimit Scope result_scope with res.
Notation "x <-? r ; k" := (rbind r (fun x => k))
  (at level 100, r at next level, right associativity) : result_scope.

(** ** Python string operations used by the pipeline *)

Module Str.

(** [c.lower()] on one byte: only ASCII capitals change. *)
Definition lower_ascii (c : ascii) : ascii :=
  let n := nat_of_ascii c in
  if (65 <=? n) && (n <=? 90) then ascii_of_nat (n + 32) else c.

(** [s.lower()].  On the UTF-8 bytes of a string, Python's lowering changes
    non-ASCII characters too, but never into one of the ASCII characters of
    the three image suffixes, so the suffix tests below are unaffected. *)
Fixpoint lower (s : string) : string :=
  match s with
  | EmptyString => EmptyString
  | String c s' => String (lower_ascii c) (lower s')
  end.

(** [s.startswith(p)]. *)
Fixpoint startswith (s p : string) : bool :=
  match p, s with
  | EmptyString, _ => true
  | String _ _, EmptyString => false
  | String a p', String b s' => Ascii.eqb a b && startswith s' p'
  end.

(** [s[n:]]. *)
Fixpoint drop (n : nat) (s : string) : string :=
  match n, s with
  | O, _ => s
  | S _, EmptyString => EmptyString
  | S n', String _ s' => drop n' s'
  end.

(** [s.endswith(suffix)]. *)
Definition endswith (s suffix : string) : bool :=
  (String.length suffix <=? String.length s)
  && String.eqb (drop (String.length s - String.length suffix) s) suffix.

(** [s.endswith((a, b, c))]: a tuple of suffixes. *)
Definition endswith_any (s : string) (suffixes : list string) : bool :=
  existsb (endswith s) suffixes.

(** [sep in s]. *)
Fixpoint contains (s sep : string) : bool :=
  startswith s sep ||
  match s with
  | EmptyString => false
  | String _ s' => contains s' sep
  end.

(** [s.split(sep)] for a non-empty separator: [skip] counts the bytes of a
    separator still to step over, [cur] is the piece being read, reversed. *)
Fixpoint split_go (sep : string) (s : string) (skip : nat) (cur : list ascii)
  : list string :=
  match s with
  | EmptyString => [string_of_list_ascii (rev cur)]
  | String c s' =>
      match skip with
      | S k => split_go sep s' k cur
      | O =>
          if startswith s sep
          then string_of_list_ascii (rev cur)
                 :: split_go sep s' (String.length sep - 1) []
          else split_go sep s' 0 (c :: cur)
      end
  end.

Definition split (s sep : string) : list string := split_go sep s 0 [].

(** [str(n)] for a non-negative integer. *)
Definition of_nat (n : nat) : string :=
  NilEmpty.string_of_uint (Nat.to_uint n).

(** [" " * n], for any one-byte pad. *)
Fixpoint repeat (c : ascii) (n : nat) : string :=
  match n with
  | O => EmptyString
  | S n' => String c (repeat c n')
  end.

(** [f"{n:03d}"]: decimal, left-padded with zeros to width 3. *)
Definition of_nat_03d (n : nat) : string :=
  let d := of_nat n in
  repeat "0"%char (3 - String.length d) +++ d.

End Str.

(** ** Python values *)

(** The objects [json.loads] can return, which are also the objects stored in
    a result row.  A float is kept as its literal. *)
Inductive value : Type :=
| VNone
| VBool (b : bool)
| VInt (n : Z)
| VFloat (literal : string)
| VStr (s : string)
| VList (items : list value)
| VDict (entries : list (string * value)).

(** A [dict] with string keys, in insertion order. *)
Definition dict : Type := list (string * value).

Fixpoint lookup (key : string) (d : dict) : option value :=
  match d with
  | [] => None
  | (k, v) :: d' => if String.eqb k key then Some v else lookup key d'
  end.

Definition keys (d : dict) : list string := map fst d.

(** [v == s] for a string constant [s]. *)
Definition value_is_str (v : value) (s : string) : bool :=
  match v with
  | VStr t => String.eqb t s
  | _ => false
  end.

(** [str(KeyError(key))] is the [repr] of the key; the keys used here hold no
    quote or escape, so the [repr] is the key between single quotes. *)
Definition key_error (key : string) : string := "'" +++ key +++ "'".

(** [d[key]] on a result row. *)
Definition dict_getitem (d : dict) (key : string) : result value :=
  match lookup key d with
  | Some v => Ok v
  | None => Raise (key_error key)
  end.

(** ** Uploads, archives and images *)

Definition bytes : Type := list Byte.byte.

(** A Streamlit [UploadedFile]: [file.name] and what [file.read()] returns. *)
Record UploadedFile : Type := mkUpload {
  file_name : string;
  file_data : bytes
}.

(** An opened [zipfile.ZipFile]: [z.namelist()] and [z.read(filename)]. *)
Record ZipFile : Type := mkZip {
  namelist : list string;
  zread : string -> result bytes
}.

(** An element of [all_images]: [{'name': ..., 'bytes': ...}]. *)
Record ImageItem : Type := mkImage {
  image_name : string;
  image_bytes : bytes
}.

(** ** Effects *)

(** The placeholders [st.progress(0)] and [st.empty()] and the spinner show
    nothing by themselves and are not recorded; what is written to them is. *)
Inductive event : Type :=
(* Streamlit output *)
| st_error (msg : string)
| st_success (msg : string)
| st_info (msg : string)
| st_subheader (msg : string)
| op_status_text (msg : string)
| op_progress (num den : nat)
| overall_progress (num den : nat)
| overall_status_text (msg : string)
(* the clock *)
| datetime_now
| time_sleep
(* Drive: files().create of a folder, of a CSV file, of a document *)
| drive_create_folder (folder_name : string) (parents : list string)
| drive_create_csv (filename : string) (folder_id : string) (csv_data : string)
| drive_create_doc (doc_title : string) (folder_id : string)
(* Gemini: generate_content on the opened image *)
| gemini_generate (image : bytes)
(* Docs: the layout requests of one document *)
| docs_layout (doc_id : string) (device model serial manufacturer : value).

Definition trace : Type := list event.

(** The collaborators and the library functions of the pipeline.  Every
    response receives the trace of the effects that came before it. *)
Record Env : Type := mkEnv {
  (** [st.secrets.get("FOLDER_ID", ...)] *)
  BASE_FOLDER_ID : string;
  (** [zipfile.ZipFile(io.BytesIO(data))], or the exception it raises *)
  zip_open : bytes -> result ZipFile;
  (** [datetime.now().strftime("%Y-%m-%d_%H-%M-%S")] *)
  now_strftime : trace -> string;
  (** the [id] of the folder Drive creates, or the exception *)
  folder_created : trace -> string -> list string -> result string;
  (** the [id] of the CSV file Drive creates, or the exception *)
  csv_created : trace -> string -> string -> string -> result string;
  (** the [id] of the document Drive creates, or the exception *)
  doc_created : trace -> string -> string -> result string;
  (** [Image.open] and [model.generate_content([prompt, img]).text] *)
  generated_text : trace -> bytes -> result string;
  (** the Docs requests that fill and lay out a document *)
  layout_done : trace -> string -> value -> value -> value -> value -> result unit;
  (** [text.strip()] *)
  str_strip : string -> string;
  (** [json.loads(text)] *)
  json_loads : string -> result value;
  (** [str(v)], as an f-string formats a value *)
  py_str : value -> string;
  (** the message of the [TypeError] of [v['key']] on a value that is no dict *)
  not_subscriptable : value -> string;
  (** [pd.DataFrame(rows).to_csv(index=False)] *)
  to_csv : list dict -> string
}.

(** A computation: from the trace so far to an outcome and the trace after.
    The trace survives an exception: what was done stays done. *)
Definition M (A : Type) : Type := trace -> result A * trace.

Definition ret {A} (a : A) : M A := fun tr => (Ok a, tr).

Definition bind {A B} (m : M A) (k : A -> M B) : M B :=
  fun tr =>
    match m tr with
    | (Ok a, tr') => k a tr'
    | (Raise msg, tr') => (Raise msg, tr')
    end.

(** A pure fallible step inside a computation. *)
Definition lift {A} (r : result A) : M A := fun tr => (r, tr).

(** Record an effect that returns nothing of interest. *)
Definition emit (e : event) : M unit := fun tr => (Ok tt, tr ++ [e]).

(** Call a collaborator: its answer is decided on the trace before the call. *)
Definition call {A} (e : event) (answer : trace -> result A) : M A :=
  fun tr => (answer tr, tr ++ [e]).

(** [try: body / except Exception as e: handler(str(e))]. *)
Definition try_except {A} (body : M A) (handler : string -> M A) : M A :=
  fun tr =>
    match body tr with
    | (Ok a, tr') => (Ok a, tr')
    | (Raise msg, tr') => handler msg tr'
    end.

Declare Scope m_scope.
Delimit Scope m_scope with M.
Notation "x <- m ;; k" := (bind m (fun x => k))
  (at level 100, m at next level, right associativity) : m_scope.
Notation "m ;; k" := (bind m (fun _ => k))
  (at level 100, right associativity) : m_scope.
Local Open Scope m_scope.

(** ** The pipeline *)

(** [BATCH_SIZE = 50  # Documents per operation folder] *)
Definition BATCH_SIZE : nat := 50.

(** The value of [process_uploads] when it does not return [None]. *)
Record RunSummary : Type := mkSummary {
  total : nat;
  operations : nat;
  success : nat;
  failed : nat;
  master_folder_url : string;
  results : list dict
}.

(** [range(start, stop, step)] for [step >= 1], unrolled at most [fuel]
    times; [stop - start] steps always suffice. *)
Fixpoint range_from (fuel start stop step : nat) : list nat :=
  match fuel with
  | O => []
  | S fuel' =>
      if start <? stop
      then start :: range_from fuel' (start + step) stop step
      else []
  end.

Definition range (start stop step : nat) : list nat :=
  range_from (stop - start) start stop step.

(** [l[i:j]] for [0 <= i <= j]. *)
Definition slice {A} (l : list A) (i j : nat) : list A :=
  firstn (j - i) (skipn i l).

(** [[all_images[i:i + BATCH_SIZE] for i in range(0, len(all_images), BATCH_SIZE)]] *)
Definition split_operations (all_images : list ImageItem) : list (list ImageItem) :=
  map (fun i => slice all_images i (i + BATCH_SIZE))
      (range 0 (length all_images) BATCH_SIZE).

(** [len([r for r in rows if r['status'] == status])] *)
Fixpoint count_status (rows : list dict) (status : string) : result nat :=
  match rows with
  | [] => Ok 0
  | r :: rows' =>
      (v <-? dict_getitem r "status";
       n <-? count_status rows' status;
       Ok (if value_is_str v status then S n else n))%res
  end.

(** The suffixes of [filename.lower().endswith(('.jpg', '.jpeg', '.png'))]. *)
Definition image_suffixes : list string := [".jpg"; ".jpeg"; ".png"].

(** The inner loop of the flattening: the members of one opened archive. *)
Fixpoint read_members (z : ZipFile) (names : list string)
    (all_images : list ImageItem) : result (list ImageItem) :=
  match names with
  | [] => Ok all_images
  | filename :: rest =>
      if Str.endswith_any (Str.lower filename) image_suffixes
      then (data <-? zread z filename;
            read_members z rest (all_images ++ [mkImage filename data]))%res
      else read_members z rest all_images
  end.

Section Pipeline.

Variable E : Env.

(** [data[key]] on what [json.loads] returned. *)
Definition getitem (data : value) (key : string) : result value :=
  match data with
  | VDict d => dict_getitem d key
  | _ => Raise (not_subscriptable E data)
  end.

(** [create_drive_folder(folder_name, parent_id)]; an empty [parent_id] is
    falsy and leaves the folder without parents.  Whatever [get_services()]
    and the request raise is the answer of Drive. *)
Definition create_drive_folder (folder_name parent_id : string) : M string :=
  let parents := if String.eqb parent_id "" then [] else [parent_id] in
  call (drive_create_folder folder_name parents)
       (fun tr => folder_created E tr folder_name parents).

(** [upload_csv_to_drive(csv_data, filename, folder_id)] *)
Definition upload_csv_to_drive (csv_data filename folder_id : string) : M string :=
  call (drive_create_csv filename folder_id csv_data)
       (fun tr => csv_created E tr filename folder_id csv_data).

(** [xs[n]] on the pieces of a split. *)
Definition piece (xs : list string) (n : nat) : result string :=
  match nth_error xs n with
  | Some x => Ok x
  | None => Raise "list index out of range"
  end.

(** [extract_equipment_data(image_bytes)]: query the model, cut the answer
    out of its code fence when there is one, parse it. *)
Definition extract_equipment_data (image : bytes) : M value :=
  response <- call (gemini_generate image) (fun tr => generated_text E tr image);;
  let text := str_strip E response in
  text <- lift
    (if Str.contains text "```json" then
       (a <-? piece (Str.split text "```json") 1;
        b <-? piece (Str.split a "```") 0;
        Ok (str_strip E b))%res
     else if Str.contains text "```" then
       (a <-? piece (Str.split text "```") 1;
        b <-? piece (Str.split a "```") 0;
        Ok (str_strip E b))%res
     else Ok text);;
  lift (json_loads E text).

(** [create_equipment_doc(data, folder_id)]: the title reads two fields,
    Drive creates the document, the content reads all four fields, Docs
    lays the document out. *)
Definition create_equipment_doc (data : value) (folder_id : string) : M string :=
  device <- lift (getitem data "device");;
  serial <- lift (getitem data "serial");;
  let doc_title := py_str E device +++ " - " +++ py_str E serial in
  doc_id <- call (drive_create_doc doc_title folder_id)
                 (fun tr => doc_created E tr doc_title folder_id);;
  device <- lift (getitem data "device");;
  model <- lift (getitem data "model");;
  serial <- lift (getitem data "serial");;
  manufacturer <- lift (getitem data "manufacturer");;
  call (docs_layout doc_id device model serial manufacturer)
       (fun tr => layout_done E tr doc_id device model serial manufacturer);;
  ret ("https://docs.google.com/document/d/" +++ doc_id +++ "/edit").

(** The [try] block of one image and its [except Exception as e]. *)
Definition process_image (op_idx : nat) (op_folder_id : string)
    (image : ImageItem) : M dict :=
  try_except
    (data <- extract_equipment_data (image_bytes image);;
     doc_url <- create_equipment_doc data op_folder_id;;
     device <- lift (getitem data "device");;
     model <- lift (getitem data "model");;
     serial <- lift (getitem data "serial");;
     manufacturer <- lift (getitem data "manufacturer");;
     ret [("operation", VInt (Z.of_nat op_idx));
          ("image", VStr (image_name image));
          ("device", device);
          ("model", model);
          ("serial", serial);
          ("manufacturer", manufacturer);
          ("doc_url", VStr doc_url);
          ("status", VStr "SUCCESS")])
    (fun e =>
       ret [("operation", VInt (Z.of_nat op_idx));
            ("image", VStr (image_name image));
            ("error", VStr e);
            ("status", VStr "FAILED")]).

(** [for img_idx, image in enumerate(operation_images, 1)]: the loop over
    the images left in one operation.  [n_images] is
    [len(operation_images)], [n_all] is [len(all_images)]. *)
Fixpoint run_images (op_idx : nat) (op_folder_id : string) (n_images n_all : nat)
    (images : list ImageItem) (img_idx : nat)
    (operation_results all_results : list dict) : M (list dict * list dict) :=
  match images with
  | [] => ret (operation_results, all_results)
  | image :: rest =>
      let global_idx := (op_idx - 1) * BATCH_SIZE + img_idx in
      emit (op_status_text
              ("Processing: " +++ image_name image +++ " ("
               +++ Str.of_nat img_idx +++ "/" +++ Str.of_nat n_images +++ ")"));;
      result <- process_image op_idx op_folder_id image;;
      let operation_results := operation_results ++ [result] in
      let all_results := all_results ++ [result] in
      emit (op_progress img_idx n_images);;
      emit (overall_progress global_idx n_all);;
      emit (overall_status_text
              ("Overall: " +++ Str.of_nat global_idx +++ "/"
               +++ Str.of_nat n_all +++ " images processed"));;
      emit time_sleep;;
      run_images op_idx op_folder_id n_images n_all rest (S img_idx)
                 operation_results all_results
  end.

(** [for op_idx, operation_images in enumerate(operations, 1)]: the loop
    over the operations left.  [n_ops] is [len(operations)]. *)
Fixpoint run_operations (master_folder_id : string) (n_ops n_all : nat)
    (ops : list (list ImageItem)) (op_idx : nat)
    (all_results : list dict) : M (list dict) :=
  match ops with
  | [] => ret all_results
  | operation_images :: rest =>
      emit (st_subheader
              ("Operation " +++ Str.of_nat op_idx +++ "/" +++ Str.of_nat n_ops));;
      op_folder_id <- create_drive_folder
                        ("Operation_" +++ Str.of_nat_03d op_idx) master_folder_id;;
      done <- run_images op_idx op_folder_id (length operation_images) n_all
                         operation_images 1 [] all_results;;
      let operation_results := fst done in
      let all_results := snd done in
      upload_csv_to_drive (to_csv E operation_results) "batch_results.csv"
                          op_folder_id;;
      ok <- lift (count_status operation_results "SUCCESS");;
      emit (st_success
              ("✅ Operation " +++ Str.of_nat op_idx +++ " complete: "
               +++ Str.of_nat ok +++ "/"
               +++ Str.of_nat (length operation_results) +++ " successful"));;
      run_operations master_folder_id n_ops n_all rest (S op_idx) all_results
  end.

(** The first loop of [process_uploads]: flatten the uploads, expanding
    the archives in place. *)
Fixpoint collect_images (uploaded_files : list UploadedFile)
    (all_images : list ImageItem) : result (list ImageItem) :=
  match uploaded_files with
  | [] => Ok all_images
  | file :: rest =>
      if Str.endswith (file_name file) ".zip"
      then (z <-? zip_open E (file_data file);
            all_images <-? read_members z (namelist z) all_images;
            collect_images rest all_images)%res
      else collect_images rest
             (all_images ++ [mkImage (file_name file) (file_data file)])
  end.

(** [process_uploads(uploaded_files)]; [None] is the early return. *)
Definition process_uploads (uploaded_files : list UploadedFile)
  : M (option RunSummary) :=
  all_images <- lift (collect_images uploaded_files []);;
  match all_images with
  | [] =>
      emit (st_error "❌ No valid images found!");;
      ret None
  | _ :: _ =>
      emit (st_success
              ("✅ Found " +++ Str.of_nat (length all_images) +++ " images"));;
      session_timestamp <- call datetime_now (fun tr => Ok (now_strftime E tr));;
      let master_folder_name := "DME_Upload_" +++ session_timestamp in
      master_folder_id <- create_drive_folder master_folder_name
                                              (BASE_FOLDER_ID E);;
      let ops := split_operations all_images in
      emit (st_info
              ("📊 Processing " +++ Str.of_nat (length all_images)
               +++ " images in " +++ Str.of_nat (length ops)
               +++ " operations (max " +++ Str.of_nat BATCH_SIZE
               +++ " per operation)"));;
      all_results <- run_operations master_folder_id (length ops)
                                    (length all_images) ops 1 [];;
      upload_csv_to_drive (to_csv E all_results) "master_results.csv"
                          master_folder_id;;
      n_success <- lift (count_status all_results "SUCCESS");;
      n_failed <- lift (count_status all_results "FAILED");;
      ret (Some {| total := length all_images;
                   operations := length ops;
                   success := n_success;
                   failed := n_failed;
                   master_folder_url :=
                     "https://drive.google.com/drive/folders/" +++ master_folder_id;
                   results := all_results |})
  end.

End Pipeline.

(** ** A concrete world, for running the pipeline on examples *)

Module Demo.

(** One image is one byte here; the byte decides what the model answers. *)
Definition img (b : Byte.byte) : bytes := [b].

(** An archive with a photo, a text file, a capitalised photo and a folder. *)
Definition mixed_zip : ZipFile :=
  {| namelist := ["a.jpg"; "notes.txt"; "B.PNG"; "scans/"];
     zread := fun filename =>
       if String.eqb filename "a.jpg" then Ok (img Byte.x01)
       else if String.eqb filename "B.PNG" then Ok (img Byte.x02)
       else Ok [] |}.

(** An archive that holds no image at all. *)
Definition text_zip : ZipFile :=
  {| namelist := ["readme.txt"; "notes.txt"];
     zread := fun _ => Ok [] |}.

Definition label : value :=
  VDict [("device", VStr "Wheelchair"); ("model", VStr "K0001");
         ("serial", VStr "SN123"); ("manufacturer", VStr "n/a")].

(** A parsed answer without the [serial] key. *)
Definition partial_label : value :=
  VDict [("device", VStr "Wheelchair"); ("model", VStr "K0001");
         ("manufacturer", VStr "n/a")].

(** Drive always succeeds; ids are numbered by the length of the trace.
    The image cannot be read on [xff]; the model answers inside a code
    fence and without [serial] on [xfe]; on [xfd] it answers a label whose
    document Docs then fails to lay out. *)
Definition world : Env :=
  {| BASE_FOLDER_ID := "base";
     zip_open := fun data =>
       match data with
       | [Byte.x50] => Ok mixed_zip
       | [Byte.x51] => Ok text_zip
       | _ => Raise "File is not a zip file"
       end;
     now_strftime := fun _ => "2025-01-01_00-00-00";
     folder_created := fun tr _ _ => Ok ("F" +++ Str.of_nat (List.length tr));
     csv_created := fun tr _ _ _ => Ok ("C" +++ Str.of_nat (List.length tr));
     doc_created := fun tr _ _ => Ok ("D" +++ Str.of_nat (List.length tr));
     generated_text := fun _ image =>
       match image with
       | [Byte.xff] => Raise "cannot identify image file"
       | [Byte.xfe] => Ok "```json partial ```"
       | [Byte.xfd] => Ok "bad"
       | _ => Ok "full"
       end;
     layout_done := fun _ _ device _ _ _ =>
       match device with
       | VStr "Broken" => Raise "HttpError 500"
       | _ => Ok tt
       end;
     str_strip := fun s =>
       if String.eqb s " partial " then "partial" else s;
     json_loads := fun text =>
       if String.eqb text "full" then Ok label
       else if String.eqb text "partial" then Ok partial_label
       else if String.eqb text "bad" then
         Ok (VDict [("device", VStr "Broken"); ("model", VStr "m");
                    ("serial", VStr "s"); ("manufacturer", VStr "x")])
       else Raise "Expecting value: line 1 column 1 (char 0)";
     py_str := fun v => match v with VStr s => s | _ => "?" end;
     not_subscriptable := fun _ => "object is not subscriptable";
     to_csv := fun rows => Str.of_nat (List.length rows) |}.

Definition photo (n : string) (b : Byte.byte) : UploadedFile :=
  {| file_name := n; file_data := img b |}.

(** [n] uploaded photos, all readable. *)
Definition photos (n : nat) : list UploadedFile :=
  map (fun k => photo ("p" +++ Str.of_nat k +++ ".jpg") Byte.x00) (seq 1 n).

(** The same photos once flattened. *)
Definition images (n : nat) : list ImageItem :=
  map (fun f => mkImage (file_name f) (file_data f)) (photos n).

(** A good photo, an unreadable one, one answered without [serial], one
    whose document cannot be laid out. *)
Definition mixed_uploads : list UploadedFile :=
  [photo "x.jpg" Byte.x00; photo "y.jpg" Byte.xff;
   photo "z.jpg" Byte.xfe; photo "w.jpg" Byte.xfd].

(** A photo, an archive, and an archive named in capitals. *)
Definition archive_uploads : list UploadedFile :=
  [photo "x.jpg" Byte.x00; photo "m.zip" Byte.x50; photo "PHOTOS.ZIP" Byte.x50].

(** Only an archive of text files. *)
Definition text_only : list UploadedFile := [photo "t.zip" Byte.x51].

Definition unreadable : UploadedFile := photo "y.jpg" Byte.xff.

End Demo.

(** ** Definitions used to state the properties *)

(** [ceil(n / d)] on naturals. *)
Definition ceil_div (n d : nat) : nat := (n + d - 1) / d.

(** The groups of width [b] cut from position [i] on, the comprehension of
    [split_operations] started anywhere. *)
Definition groups_from {A} (b : nat) (l : list A) (fuel i : nat) : list (list A) :=
  map (fun j => slice l j (j + b)) (range_from fuel i (length l) b).

(** The test an archive member has to pass. *)
Definition supported_image (filename : string) : bool :=
  Str.endswith_any (Str.lower filename) image_suffixes.

(** A name ends, case-insensitively, in [.jpg], [.jpeg] or [.png]. *)
Definition ends_in_image_suffix (filename : string) : Prop :=
  exists stem ext,
    filename = stem +++ ext /\ In (Str.lower ext) image_suffixes.

(** Read the given members of an archive, in order. *)
Fixpoint read_all (z : ZipFile) (names : list string) : result (list ImageItem) :=
  match names with
  | [] => Ok []
  | filename :: rest =>
      (data <-? zread z filename;
       items <-? read_all z rest;
       Ok (mkImage filename data :: items))%res
  end.

(** What an archive contributes: its supported members, in listing order. *)
Definition expand_archive (z : ZipFile) : result (list ImageItem) :=
  read_all z (filter supported_image (namelist z)).

(** What one uploaded entry contributes to the flattened list. *)
Definition flatten_entry (E : Env) (file : UploadedFile) : result (list ImageItem) :=
  if Str.endswith (file_name file) ".zip"
  then (z <-? zip_open E (file_data file); expand_archive z)%res
  else Ok [mkImage (file_name file) (file_data file)].

(** The flattened list as the concatenation of the contributions. *)
Fixpoint flatten (E : Env) (files : list UploadedFile) : result (list ImageItem) :=
  match files with
  | [] => Ok []
  | file :: rest =>
      (items <-? flatten_entry E file;
       more <-? flatten E rest;
       Ok (items ++ more))%res
  end.

(** [part] is the contribution of [file]: an archive gives its supported
    members with the bytes read from it, any other entry gives itself. *)
Definition contributes (E : Env) (file : UploadedFile) (part : list ImageItem) : Prop :=
  if Str.endswith (file_name file) ".zip"
  then exists z,
         zip_open E (file_data file) = Ok z
         /\ map image_name part = filter supported_image (namelist z)
         /\ Forall (fun item => zread z (image_name item) = Ok (image_bytes item)) part
  else part = [mkImage (file_name file) (file_data file)].

(** The row recorded for an image whose document was created. *)
Definition success_row (op_idx : nat) (image : ImageItem)
    (device model serial manufacturer : value) (doc_url : string) : dict :=
  [("operation", VInt (Z.of_nat op_idx));
   ("image", VStr (image_name image));
   ("device", device);
   ("model", model);
   ("serial", serial);
   ("manufacturer", manufacturer);
   ("doc_url", VStr doc_url);
   ("status", VStr "SUCCESS")].

(** The row recorded for an image whose [try] block raised [e]. *)
Definition failed_row (op_idx : nat) (image : ImageItem) (e : string) : dict :=
  [("operation", VInt (Z.of_nat op_idx));
   ("image", VStr (image_name image));
   ("error", VStr e);
   ("status", VStr "FAILED")].

(** [r] is a row the pipeline may record for [image] in operation [op_idx]. *)
Definition row_of (op_idx : nat) (image : ImageItem) (r : dict) : Prop :=
  (exists device model serial manufacturer doc_url,
      r = success_row op_idx image device model serial manufacturer doc_url)
  \/ (exists e, r = failed_row op_idx image e).

(** [r] is the row [process_image] returned for [image] in operation
    [op_idx], in some folder and after some history. *)
Definition produced (E : Env) (op_idx : nat) (image : ImageItem) (r : dict) : Prop :=
  exists op_folder_id tr tr',
    process_image E op_idx op_folder_id image tr = (Ok r, tr').

(** [groups] holds, operation by operation from index [op_idx] on, the row
    produced for each image, in the order of the images. *)
Fixpoint rows_of_ops (E : Env) (op_idx : nat) (ops : list (list ImageItem))
    (groups : list (list dict)) : Prop :=
  match ops, groups with
  | [], [] => True
  | operation_images :: ops', rows :: groups' =>
      Forall2 (produced E op_idx) operation_images rows
      /\ rows_of_ops E (S op_idx) ops' groups'
  | _, _ => False
  end.

(** The four fields of the label [data], read in the order of the row. *)
Definition label_fields (E : Env) (data : value)
  : result (value * value * value * value) :=
  (device <-? getitem E data "device";
   model <-? getitem E data "model";
   serial <-? getitem E data "serial";
   manufacturer <-? getitem E data "manufacturer";
   Ok (device, model, serial, manufacturer))%res.

(** The status tag of a row. *)
Definition has_status (status : string) (r : dict) : bool :=
  match lookup "status" r with
  | Some v => value_is_str v status
  | None => false
  end.

(** Some field of the row holds the integer [n]. *)
Definition carries_index (r : dict) (n : nat) : Prop :=
  exists key, lookup key r = Some (VInt (Z.of_nat n)).

(** The four fields of a label. *)
Definition label_keys : list string := ["device"; "model"; "serial"; "manufacturer"].

(** *** What a trace shows *)

(** The images handed to the extractor, in order. *)
Definition extractions (tr : trace) : list bytes :=
  flat_map (fun e => match e with gemini_generate image => [image] | _ => [] end) tr.

(** The CSV files written: name, folder and content, in order. *)
Definition csv_files (tr : trace) : list (string * string * string) :=
  flat_map (fun e => match e with
                     | drive_create_csv filename folder_id csv_data =>
                         [(filename, folder_id, csv_data)]
                     | _ => []
                     end) tr.

(** The folders asked of Drive: name and parents, in order. *)
Definition folders (tr : trace) : list (string * list string) :=
  flat_map (fun e => match e with
                     | drive_create_folder folder_name parents =>
                         [(folder_name, parents)]
                     | _ => []
                     end) tr.

(** The documents asked of Drive: title and folder, in order. *)
Definition documents (tr : trace) : list (string * string) :=
  flat_map (fun e => match e with
                     | drive_create_doc doc_title folder_id => [(doc_title, folder_id)]
                     | _ => []
                     end) tr.

(** The running indices shown by the overall progress bar, in order. *)
Definition progress_indices (tr : trace) : list nat :=
  flat_map (fun e => match e with overall_progress num _ => [num] | _ => [] end) tr.

(** The events of document creation. *)
Definition doc_event (e : event) : Prop :=
  match e with
  | drive_create_doc _ _ | docs_layout _ _ _ _ _ => True
  | _ => False
  end.

(** The per-operation CSV of each group, in its folder. *)
Definition batch_files (E : Env) (folder_ids : list string) (groups : list (list dict))
  : list (string * string * string) :=
  map (fun fg => ("batch_results.csv", fst fg, to_csv E (snd fg)))
      (combine folder_ids groups).

(** Drive never refuses a folder or a CSV file. *)
Definition drive_accepts (E : Env) : Prop :=
  (forall tr folder_name parents,
      exists id, folder_created E tr folder_name parents = Ok id)
  /\ (forall tr filename folder_id csv_data,
         exists id, csv_created E tr filename folder_id csv_data = Ok id).

(** The [parents] that [create_drive_folder] sends for a [parent_id]. *)
Definition parents_of (parent_id : string) : list string :=
  if String.eqb parent_id "" then [] else [parent_id].

(** The folders of the operations numbered from [op_idx] on. *)
Definition operation_folders (master_folder_id : string) (op_idx n : nat)
  : list (string * list string) :=
  map (fun k => ("Operation_" +++ Str.of_nat_03d k, parents_of master_folder_id))
      (seq op_idx n).

(** The running index of position [img_idx] in operation [op_idx]. *)
Definition global_index (op_idx img_idx : nat) : nat :=
  (op_idx - 1) * BATCH_SIZE + img_idx.

(** What a run that returned the summary [s] after the events [evs] has
    done with the flattened list [all_images]. *)
Definition completed (E : Env) (all_images : list ImageItem) (s : RunSummary)
    (evs : trace) : Prop :=
  exists master_folder_id groups folder_ids session_timestamp,
    total s = length all_images
    /\ operations s = length (split_operations all_images)
    /\ success s = length (filter (has_status "SUCCESS") (results s))
    /\ failed s = length (filter (has_status "FAILED") (results s))
    /\ master_folder_url s
       = "https://drive.google.com/drive/folders/" +++ master_folder_id
    /\ results s = concat groups
    /\ rows_of_ops E 1 (split_operations all_images) groups
    /\ length folder_ids = length groups
    /\ extractions evs = map image_bytes all_images
    /\ csv_files evs
       = batch_files E folder_ids groups
         ++ [("master_results.csv", master_folder_id, to_csv E (results s))]
    /\ folders evs
       = ("DME_Upload_" +++ session_timestamp, parents_of (BASE_FOLDER_ID E))
         :: operation_folders master_folder_id 1
              (length (split_operations all_images))
    /\ last evs datetime_now
       = drive_create_csv "master_results.csv" master_folder_id
                          (to_csv E (results s)).

(** The keys of the two kinds of row. *)
Definition success_keys : list string :=
  ["operation"; "image"; "device"; "model"; "serial"; "manufacturer";
   "doc_url"; "status"].

Definition failed_keys : list string := ["operation"; "image"; "error"; "status"].

(** The [try] block of an image raises [msg]: in the extractor, or in the
    artifact builder after the extractor returned. *)
Definition extractor_fails (E : Env) (image : ImageItem) (tr : trace)
    (msg : string) : Prop :=
  exists tr1, extract_equipment_data E (image_bytes image) tr = (Raise msg, tr1).

Definition builder_fails (E : Env) (op_folder_id : string) (image : ImageItem)
    (tr : trace) (msg : string) : Prop :=
  exists data tr1 tr2,
    extract_equipment_data E (image_bytes image) tr = (Ok data, tr1)
    /\ create_equipment_doc E data op_folder_id tr1 = (Raise msg, tr2).

(** ** Further definitions: the answer of the model *)

Unset Implicit Arguments.

(** [sep] does not begin anywhere inside [pre] when [pre] is followed by
    [sep]: the first occurrence of [sep] in [pre + sep] is the final one. *)
Fixpoint clear_before (pre sep : string) : bool :=
  match pre with
  | EmptyString => true
  | String _ pre' =>
      negb (Str.startswith (pre +++ sep) sep) && clear_before pre' sep
  end.

(** The text [extract_equipment_data] hands to [json.loads] for a stripped
    answer, with [xs[n]] replaced by a default where the index is missing. *)
Definition fence_text (E : Env) (text : string) : string :=
  if Str.contains text "```json" then
    str_strip E
      (nth 0 (Str.split (nth 1 (Str.split text "```json") "") "```") "")
  else if Str.contains text "```" then
    str_strip E
      (nth 0 (Str.split (nth 1 (Str.split text "```") "") "```") "")
  else text.

Module Demo2.

(** The world of [Demo] with a model that always answers the full label
    inside a plain code fence, and with a Docs that never fails. *)
Definition fenced_world : Env :=
  {| BASE_FOLDER_ID := BASE_FOLDER_ID Demo.world;
     zip_open := zip_open Demo.world;
     now_strftime := now_strftime Demo.world;
     folder_created := folder_created Demo.world;
     csv_created := csv_created Demo.world;
     doc_created := doc_created Demo.world;
     generated_text := fun _ _ => Ok "```full```";
     layout_done := fun _ _ _ _ _ _ => Ok tt;
     str_strip := str_strip Demo.world;
     json_loads := json_loads Demo.world;
     py_str := py_str Demo.world;
     not_subscriptable := not_subscriptable Demo.world;
     to_csv := to_csv Demo.world |}.

(** A label without its [model]. *)
Definition modelless_label : value :=
  VDict [("device", VStr "Wheelchair"); ("serial", VStr "SN123");
         ("manufacturer", VStr "n/a")].

(** The world of [Demo] with a model that always answers that label. *)
Definition modelless_world : Env :=
  {| BASE_FOLDER_ID := BASE_FOLDER_ID Demo.world;
     zip_open := zip_open Demo.world;
     now_strftime := now_strftime Demo.world;
     folder_created := folder_created Demo.world;
     csv_created := csv_created Demo.world;
     doc_created := doc_created Demo.world;
     generated_text := fun _ _ => Ok "modelless";
     layout_done := layout_done Demo.world;
     str_strip := str_strip Demo.world;
     json_loads := fun _ => Ok modelless_label;
     py_str := py_str Demo.world;
     not_subscriptable := not_subscriptable Demo.world;
     to_csv := to_csv Demo.world |}.

(** The world of [Demo] with an extractor that cannot read any image. *)
Definition blind_world : Env :=
  {| BASE_FOLDER_ID := BASE_FOLDER_ID Demo.world;
     zip_open := zip_open Demo.world;
     now_strftime := now_strftime Demo.world;
     folder_created := folder_created Demo.world;
     csv_created := csv_created Demo.world;
     doc_created := doc_created Demo.world;
     generated_text := fun _ _ => Raise "cannot identify image file";
     layout_done := layout_done Demo.world;
     str_strip := str_strip Demo.world;
     json_loads := json_loads Demo.world;
     py_str := py_str Demo.world;
     not_subscriptable := not_subscriptable Demo.world;
     to_csv := to_csv Demo.world |}.

End Demo2.

(** ** Further definitions: the stages of a run *)

(** [st.success(f"Found {len(all_images)} images")] *)
Definition found_event (all_images : list ImageItem) : event :=
  st_success ("✅ Found " +++ Str.of_nat (length all_images) +++ " images").

(** The timestamp read right after it. *)
Definition session_timestamp_at (E : Env) (tr : trace)
    (all_images : list ImageItem) : string :=
  now_strftime E (tr ++ [found_event all_images]).

(** The request for the master folder and the answer of Drive. *)
Definition master_request (E : Env) (tr : trace) (all_images : list ImageItem)
  : event :=
  drive_create_folder ("DME_Upload_" +++ session_timestamp_at E tr all_images)
                      (parents_of (BASE_FOLDER_ID E)).

Definition master_answer (E : Env) (tr : trace) (all_images : list ImageItem)
  : result string :=
  folder_created E ((tr ++ [found_event all_images]) ++ [datetime_now])
                 ("DME_Upload_" +++ session_timestamp_at E tr all_images)
                 (parents_of (BASE_FOLDER_ID E)).

(** [st.info(f"Processing ... images in ... operations ...")] *)
Definition info_event (all_images : list ImageItem) : event :=
  st_info ("📊 Processing " +++ Str.of_nat (length all_images)
           +++ " images in " +++ Str.of_nat (length (split_operations all_images))
           +++ " operations (max " +++ Str.of_nat BATCH_SIZE
           +++ " per operation)").

(** What a run has done when the loop over the operations starts. *)
Definition prelude (E : Env) (tr : trace) (all_images : list ImageItem) : trace :=
  [found_event all_images; datetime_now; master_request E tr all_images;
   info_event all_images].

(** The request that writes the master CSV. *)
Definition master_upload (E : Env) (master_folder_id : string)
    (all_results : list dict) : event :=
  drive_create_csv "master_results.csv" master_folder_id (to_csv E all_results).

(** The address of a Drive folder. *)
Definition folder_url (folder_id : string) : string :=
  "https://drive.google.com/drive/folders/" +++ folder_id.

(** [int(s)] for a string of decimal digits. *)
Definition parse_nat (s : string) : option nat :=
  option_map Nat.of_uint (NilEmpty.uint_of_string s).

(** ** Further definitions: the events of the loops *)

(** One turn of the image loop: the status line, the events [ievs] of the
    [try] block, the two progress bars, the overall status line, the pause. *)
Definition image_events (op_idx n_images n_all img_idx : nat)
    (image : ImageItem) (ievs : trace) : trace :=
  op_status_text ("Processing: " +++ image_name image +++ " ("
                  +++ Str.of_nat img_idx +++ "/" +++ Str.of_nat n_images +++ ")")
  :: ievs
  ++ [op_progress img_idx n_images;
      overall_progress (global_index op_idx img_idx) n_all;
      overall_status_text ("Overall: " +++ Str.of_nat (global_index op_idx img_idx)
                           +++ "/" +++ Str.of_nat n_all +++ " images processed");
      time_sleep].

(** A step, below, is the row of an image with the events of its [try]
    block: a [dict * trace]. *)

Fixpoint images_events (op_idx n_images n_all img_idx : nat)
    (images : list ImageItem) (steps : list (dict * trace)) : trace :=
  match images, steps with
  | image :: images', st :: steps' =>
      image_events op_idx n_images n_all img_idx image (snd st)
      ++ images_events op_idx n_images n_all (S img_idx) images' steps'
  | _, _ => []
  end.

(** [st] is what [process_image] returned and did for [image], after some
    history. *)
Definition step_of (E : Env) (op_idx : nat) (op_folder_id : string)
    (image : ImageItem) (st : dict * trace) : Prop :=
  exists t,
    process_image E op_idx op_folder_id image t = (Ok (fst st), t ++ snd st).

(** A segment is the folder of an operation with the steps of its images:
    a [string * list (dict * trace)]. *)

Definition segment_rows (seg : string * list (dict * trace)) : list dict := map fst (snd seg).

(** One turn of the operation loop. *)
Definition operation_events (E : Env) (master_folder_id : string)
    (n_ops n_all op_idx : nat) (images : list ImageItem) (seg : string * list (dict * trace)) : trace :=
  [st_subheader ("Operation " +++ Str.of_nat op_idx +++ "/" +++ Str.of_nat n_ops);
   drive_create_folder ("Operation_" +++ Str.of_nat_03d op_idx)
                       (parents_of master_folder_id)]
  ++ images_events op_idx (length images) n_all 1 images (snd seg)
  ++ [drive_create_csv "batch_results.csv" (fst seg) (to_csv E (segment_rows seg));
      st_success ("✅ Operation " +++ Str.of_nat op_idx +++ " complete: "
                  +++ Str.of_nat (length (filter (has_status "SUCCESS")
                                                 (segment_rows seg)))
                  +++ "/" +++ Str.of_nat (length (segment_rows seg))
                  +++ " successful")].

Fixpoint operations_events (E : Env) (master_folder_id : string)
    (n_ops n_all op_idx : nat) (ops : list (list ImageItem))
    (segs : list (string * list (dict * trace))) : trace :=
  match ops, segs with
  | images :: ops', seg :: segs' =>
      operation_events E master_folder_id n_ops n_all op_idx images seg
      ++ operations_events E master_folder_id n_ops n_all (S op_idx) ops' segs'
  | _, _ => []
  end.

Fixpoint segments_of (E : Env) (op_idx : nat) (ops : list (list ImageItem))
    (segs : list (string * list (dict * trace))) : Prop :=
  match ops, segs with
  | [], [] => True
  | images :: ops', seg :: segs' =>
      Forall2 (step_of E op_idx (fst seg)) images (snd seg)
      /\ segments_of E (S op_idx) ops' segs'
  | _, _ => False
  end.

(** The values given to the two progress bars, numerator and denominator. *)
Definition op_progress_pairs (tr : trace) : list (nat * nat) :=
  flat_map (fun e => match e with op_progress num den => [(num, den)] | _ => [] end)
           tr.

Definition overall_progress_pairs (tr : trace) : list (nat * nat) :=
  flat_map (fun e => match e with
                     | overall_progress num den => [(num, den)]
                     | _ => []
                     end) tr.

(** A progress bar is given a value between [1 / den] and [1]. *)
Definition progress_in_range (e : event) : Prop :=
  match e with
  | op_progress num den | overall_progress num den => 1 <= num <= den
  | _ => True
  end.

(** The documents laid out, by id. *)
Definition layouts (tr : trace) : list string :=
  flat_map (fun e => match e with
                     | docs_layout doc_id _ _ _ _ => [doc_id]
                     | _ => []
                     end) tr.

(** The address of a document. *)
Definition doc_url_of (doc_id : string) : string :=
  "https://docs.google.com/document/d/" +++ doc_id +++ "/edit".

(** The title [create_equipment_doc] gives a document. *)
Definition doc_title_of (E : Env) (device serial : value) : string :=
  py_str E device +++ " - " +++ py_str E serial.

(** The values the overall bar is given while the operations [ops],
    numbered from [op_idx], are processed. *)
Fixpoint expected_overall (n_all op_idx : nat) (ops : list (list ImageItem))
  : list (nat * nat) :=
  match ops with
  | [] => []
  | images :: rest =>
      map (fun img_idx => (global_index op_idx img_idx, n_all))
          (seq 1 (length images))
      ++ expected_overall n_all (S op_idx) rest
  end.

(** The values the operation bar is given. *)
Definition expected_op_progress (ops : list (list ImageItem)) : list (nat * nat) :=
  flat_map (fun images =>
              map (fun img_idx => (img_idx, length images)) (seq 1 (length images)))
           ops.

(** The last running index of every operation is within [n_all]. *)
Fixpoint fits (n_all op_idx : nat) (ops : list (list ImageItem)) : Prop :=
  match ops with
  | [] => True
  | images :: rest =>
      global_index op_idx (length images) <= n_all /\ fits n_all (S op_idx) rest
  end.

(** All the steps of a list of segments, in order. *)
Definition all_steps (segs : list (string * list (dict * trace))) : list (dict * trace) := flat_map snd segs.

(** The extractor raises on every image, whatever the history. *)
Definition extractor_always_fails (E : Env) : Prop :=
  forall t image, exists msg tr1,
    extract_equipment_data E image t = (Raise msg, tr1).

(** The extractor returns a label with its four fields on every image, Drive
    creates every document and Docs lays every document out. *)
Definition builder_always_succeeds (E : Env) : Prop :=
  (forall t image, exists data tr1 fields,
      extract_equipment_data E image t = (Ok data, tr1)
      /\ label_fields E data = Ok fields)
  /\ (forall t title folder_id, exists doc_id,
         doc_created E t title folder_id = Ok doc_id)
  /\ (forall t doc_id device model serial manufacturer,
         layout_done E t doc_id device model serial manufacturer = Ok tt).

(** What every step has asked of Drive and Docs, in the folder [folder_id]. *)
Definition step_sound (folder_id : string) (st : dict * trace) : Prop :=
  length (documents (snd st)) <= 1
  /\ Forall (fun d => snd d = folder_id) (documents (snd st))
  /\ length (layouts (snd st)) <= length (documents (snd st))
  /\ (has_status "SUCCESS" (fst st) = true -> length (layouts (snd st)) = 1).
(** * Properties *)

Unset Implicit Arguments.

(** ** The batcher *)


Section Batcher.

Variable A : Type.
Variable b : nat.
Hypothesis b_pos : 0 < b.

Lemma ceil_div_0 : ceil_div 0 b = 0.
Proof.
  unfold ceil_div. apply Nat.div_small. lia.
Qed.

Lemma ceil_div_step (n : nat) : 0 < n -> ceil_div n b = S (ceil_div (n - b) b).
Proof.
  intros Hn. unfold ceil_div.
  destruct (le_lt_dec b n) as [Hle | Hlt].
  - replace (n + b - 1) with ((n - b + b - 1) + 1 * b) by lia.
    rewrite Nat.div_add by lia. lia.
  - replace (n - b + b - 1) with (b - 1) by lia.
    rewrite (Nat.div_small (b - 1)) by lia.
    replace (n + b - 1) with ((n - 1) + 1 * b) by lia.
    rewrite Nat.div_add by lia.
    rewrite Nat.div_small by lia. reflexivity.
Qed.

Lemma slice_width (l : list A) (i : nat) :
  slice l i (i + b) = firstn b (skipn i l).
Proof.
  unfold slice. now rewrite Nat.add_comm, Nat.add_sub.
Qed.

Lemma skipn_add (l : list A) (i j : nat) :
  skipn (i + j) l = skipn j (skipn i l).
Proof.
  revert l. induction i as [| i IH]; intros l; [reflexivity |].
  destruct l as [| x l]; simpl.
  - now rewrite skipn_nil.
  - apply IH.
Qed.

Lemma groups_from_cons (l : list A) (fuel i : nat) :
  i < length l ->
  groups_from b l (S fuel) i
  = firstn b (skipn i l) :: groups_from b l fuel (i + b).
Proof.
  intros Hi. unfold groups_from. simpl.
  apply Nat.ltb_lt in Hi. rewrite Hi. simpl.
  now rewrite slice_width.
Qed.

Lemma groups_from_done (l : list A) (fuel i : nat) :
  length l <= i -> groups_from b l fuel i = [].
Proof.
  intros Hi. unfold groups_from.
  destruct fuel as [| fuel]; [reflexivity |]. simpl.
  apply Nat.ltb_ge in Hi. now rewrite Hi.
Qed.

Lemma groups_from_concat (l : list A) :
  forall fuel i, length l - i <= fuel ->
    concat (groups_from b l fuel i) = skipn i l.
Proof.
  induction fuel as [| fuel IH]; intros i Hfuel.
  - rewrite groups_from_done by lia. simpl.
    symmetry. apply skipn_all2. lia.
  - destruct (le_lt_dec (length l) i) as [Hge | Hlt].
    + rewrite groups_from_done by lia. simpl.
      symmetry. apply skipn_all2. lia.
    + rewrite groups_from_cons by assumption. simpl.
      rewrite IH by lia. rewrite skipn_add.
      apply firstn_skipn.
Qed.

Lemma groups_from_length (l : list A) :
  forall fuel i, length l - i <= fuel ->
    length (groups_from b l fuel i) = ceil_div (length l - i) b.
Proof.
  induction fuel as [| fuel IH]; intros i Hfuel.
  - rewrite groups_from_done by lia.
    replace (length l - i) with 0 by lia. now rewrite ceil_div_0.
  - destruct (le_lt_dec (length l) i) as [Hge | Hlt].
    + rewrite groups_from_done by lia.
      replace (length l - i) with 0 by lia. now rewrite ceil_div_0.
    + rewrite groups_from_cons by assumption. simpl.
      rewrite IH by lia. rewrite (ceil_div_step (length l - i)) by lia.
      f_equal. f_equal. lia.
Qed.

Lemma groups_from_full (l : list A) :
  forall fuel i, length l - i <= fuel ->
    Forall (fun g => length g = b) (removelast (groups_from b l fuel i)).
Proof.
  induction fuel as [| fuel IH]; intros i Hfuel.
  - rewrite groups_from_done by lia. constructor.
  - destruct (le_lt_dec (length l) i) as [Hge | Hlt].
    + rewrite groups_from_done by lia. constructor.
    + rewrite groups_from_cons by assumption.
      destruct (le_lt_dec (length l) (i + b)) as [Hlast | Hmore].
      * rewrite groups_from_done by lia. constructor.
      * specialize (IH (i + b) ltac:(lia)).
        destruct (groups_from b l fuel (i + b)) as [| g rest] eqn:Hrest.
        -- constructor.
        -- change (removelast (?x :: g :: rest)) with (x :: removelast (g :: rest)).
           constructor; [| exact IH].
           rewrite length_firstn, length_skipn. lia.
Qed.

Lemma groups_from_last (l : list A) :
  forall fuel i, length l - i <= fuel -> i < length l ->
    1 <= length (last (groups_from b l fuel i) []) <= b.
Proof.
  induction fuel as [| fuel IH]; intros i Hfuel Hi; [lia |].
  rewrite groups_from_cons by assumption.
  destruct (le_lt_dec (length l) (i + b)) as [Hlast | Hmore].
  - rewrite groups_from_done by lia. simpl.
    rewrite length_firstn, length_skipn. lia.
  - specialize (IH (i + b) ltac:(lia) Hmore).
    destruct (groups_from b l fuel (i + b)) as [| g rest] eqn:Hrest.
    + simpl in IH. lia.
    + exact IH.
Qed.

End Batcher.

Lemma split_operations_groups (l : list ImageItem) :
  split_operations l = groups_from BATCH_SIZE l (length l) 0.
Proof.
  unfold split_operations, groups_from, range. now rewrite Nat.sub_0_r.
Qed.

(** C2. For a non-empty flattened list of [N] images the batcher returns
    groups whose concatenation is the input, all of exactly 50 images except
    possibly the last, the last holding between 1 and 50 images, and there are
    [ceil(N / 50)] groups. *)
Theorem batcher_partition (all_images : list ImageItem) :
  all_images <> [] ->
  let ops := split_operations all_images in
  concat ops = all_images
  /\ Forall (fun g => length g = 50) (removelast ops)
  /\ 1 <= length (last ops []) <= 50
  /\ length ops = ceil_div (length all_images) 50.
Proof.
  intros Hne ops. subst ops. rewrite split_operations_groups.
  assert (Hpos : 0 < BATCH_SIZE) by (unfold BATCH_SIZE; lia).
  assert (Hlen : 0 < length all_images)
    by (destruct all_images; [congruence | simpl; lia]).
  repeat split.
  - now rewrite groups_from_concat by lia.
  - apply groups_from_full; [exact Hpos | lia].
  - apply groups_from_last; lia.
  - apply groups_from_last; lia.
  - rewrite groups_from_length by (exact Hpos || lia). now rewrite Nat.sub_0_r.
Qed.

(** ** Strings *)

Module StrFacts.

Lemma drop_append (p s : string) : Str.drop (String.length p) (p +++ s) = s.
Proof.
  induction p as [| c p IH]; simpl; [reflexivity | exact IH].
Qed.

Lemma drop_split (n : nat) (s : string) :
  n <= String.length s ->
  exists p, s = p +++ Str.drop n s /\ String.length p = n.
Proof.
  revert s. induction n as [| n IH]; intros s Hn.
  - exists EmptyString. split; reflexivity.
  - destruct s as [| c s]; simpl in Hn; [lia |].
    destruct (IH s ltac:(lia)) as (p & Hp & Hlen).
    exists (String c p). simpl. split; [now f_equal | now f_equal].
Qed.

Lemma length_append (a b : string) :
  String.length (a +++ b) = String.length a + String.length b.
Proof.
  induction a as [| c a IH]; simpl; [reflexivity | now rewrite IH].
Qed.

(** [endswith] is true exactly on the strings that end in the suffix. *)
Lemma endswith_spec (s suffix : string) :
  Str.endswith s suffix = true <-> exists p, s = p +++ suffix.
Proof.
  unfold Str.endswith. rewrite andb_true_iff, Nat.leb_le, String.eqb_eq.
  split.
  - intros [Hlen Hdrop].
    destruct (drop_split (String.length s - String.length suffix) s ltac:(lia))
      as (p & Hp & _).
    exists p. now rewrite Hdrop in Hp.
  - intros [p ->]. rewrite length_append. split; [lia |].
    replace (String.length p + String.length suffix - String.length suffix)
      with (String.length p) by lia.
    apply drop_append.
Qed.

Lemma lower_append (a b : string) :
  Str.lower (a +++ b) = Str.lower a +++ Str.lower b.
Proof.
  induction a as [| c a IH]; simpl; [reflexivity | now rewrite IH].
Qed.

Lemma lower_length (s : string) : String.length (Str.lower s) = String.length s.
Proof.
  induction s as [| c s IH]; simpl; [reflexivity | now rewrite IH].
Qed.

Lemma lower_drop (n : nat) (s : string) :
  Str.lower (Str.drop n s) = Str.drop n (Str.lower s).
Proof.
  revert s. induction n as [| n IH]; intros s; [reflexivity |].
  destruct s as [| c s]; simpl; [reflexivity | apply IH].
Qed.

End StrFacts.

(** The member test is the case-insensitive suffix property. *)
Lemma supported_image_spec (filename : string) :
  supported_image filename = true <-> ends_in_image_suffix filename.
Proof.
  unfold supported_image, ends_in_image_suffix, Str.endswith_any.
  rewrite existsb_exists. split.
  - intros (suffix & Hin & Hends).
    apply StrFacts.endswith_spec in Hends. destruct Hends as [p Hp].
    assert (Hlen : String.length p <= String.length filename).
    { rewrite <- (StrFacts.lower_length filename), Hp, StrFacts.length_append. lia. }
    destruct (StrFacts.drop_split _ _ Hlen) as (stem & Hstem & Hstem_len).
    exists stem, (Str.drop (String.length p) filename). split; [exact Hstem |].
    rewrite StrFacts.lower_drop, Hp, StrFacts.drop_append. exact Hin.
  - intros (stem & ext & -> & Hin).
    exists (Str.lower ext). split; [exact Hin |].
    apply StrFacts.endswith_spec. exists (Str.lower stem).
    apply StrFacts.lower_append.
Qed.

(** ** The flattening of uploads *)

Lemma read_members_cons (z : ZipFile) (filename : string) (rest : list string)
    (acc : list ImageItem) :
  read_members z (filename :: rest) acc
  = if supported_image filename
    then (data <-? zread z filename;
          read_members z rest (acc ++ [mkImage filename data]))%res
    else read_members z rest acc.
Proof. reflexivity. Qed.

Lemma filter_supported_cons (filename : string) (rest : list string) :
  filter supported_image (filename :: rest)
  = if supported_image filename
    then filename :: filter supported_image rest
    else filter supported_image rest.
Proof. reflexivity. Qed.

Lemma read_members_acc (z : ZipFile) (names : list string) :
  forall acc,
    read_members z names acc
    = (items <-? read_all z (filter supported_image names); Ok (acc ++ items))%res.
Proof.
  induction names as [| filename rest IH]; intros acc.
  - simpl. now rewrite app_nil_r.
  - rewrite read_members_cons, filter_supported_cons.
    destruct (supported_image filename); [| apply IH].
    cbn [read_all rbind].
    destruct (zread z filename) as [data | msg]; cbn [rbind]; [| reflexivity].
    rewrite IH.
    destruct (read_all z (filter supported_image rest)); cbn [rbind];
      [| reflexivity].
    now rewrite <- app_assoc.
Qed.

Lemma collect_images_acc (E : Env) (files : list UploadedFile) :
  forall acc,
    collect_images E files acc
    = (items <-? flatten E files; Ok (acc ++ items))%res.
Proof.
  induction files as [| file rest IH]; intros acc; simpl.
  - now rewrite app_nil_r.
  - unfold flatten_entry.
    destruct (Str.endswith (file_name file) ".zip"); simpl.
    + destruct (zip_open E (file_data file)) as [z | msg]; simpl; [| reflexivity].
      rewrite read_members_acc. unfold expand_archive.
      destruct (read_all z (filter supported_image (namelist z)));
        simpl; [| reflexivity].
      rewrite IH.
      destruct (flatten E rest); simpl; [| reflexivity].
      now rewrite <- app_assoc.
    + rewrite IH.
      destruct (flatten E rest); simpl; [| reflexivity].
      now rewrite <- app_assoc.
Qed.

(** The flattening loop computes the concatenation of the contributions. *)
Lemma collect_images_flatten (E : Env) (files : list UploadedFile) :
  collect_images E files [] = flatten E files.
Proof.
  rewrite collect_images_acc. now destruct (flatten E files).
Qed.

Lemma read_all_ok (z : ZipFile) (names : list string) :
  forall items,
    read_all z names = Ok items ->
    map image_name items = names
    /\ Forall (fun item => zread z (image_name item) = Ok (image_bytes item)) items.
Proof.
  induction names as [| filename rest IH]; intros items Hread; simpl in Hread.
  - inversion Hread. split; constructor.
  - destruct (zread z filename) as [data | msg] eqn:Hdata; simpl in Hread;
      [| discriminate].
    destruct (read_all z rest) as [more | msg]; simpl in Hread; [| discriminate].
    inversion Hread; subst. destruct (IH more eq_refl) as [Hnames Hbytes].
    split; simpl; [now f_equal | constructor; assumption].
Qed.

Lemma flatten_entry_contributes (E : Env) (file : UploadedFile) (part : list ImageItem) :
  flatten_entry E file = Ok part -> contributes E file part.
Proof.
  unfold flatten_entry, contributes.
  destruct (Str.endswith (file_name file) ".zip").
  - destruct (zip_open E (file_data file)) as [z | msg]; simpl; [| discriminate].
    intros Hread. apply read_all_ok in Hread. exists z. tauto.
  - now inversion 1.
Qed.

Lemma flatten_parts (E : Env) (files : list UploadedFile) :
  forall out,
    flatten E files = Ok out ->
    exists parts,
      Forall2 (fun file part => flatten_entry E file = Ok part) files parts
      /\ out = concat parts.
Proof.
  induction files as [| file rest IH]; intros out Hflat; simpl in Hflat.
  - inversion Hflat. exists []. split; constructor.
  - destruct (flatten_entry E file) as [part | msg] eqn:Hpart; simpl in Hflat;
      [| discriminate].
    destruct (flatten E rest) as [more | msg]; simpl in Hflat; [| discriminate].
    inversion Hflat; subst.
    destruct (IH more eq_refl) as (parts & Hparts & ->).
    exists (part :: parts). split; [constructor; assumption | reflexivity].
Qed.

(** ** Computations *)

Lemma bind_lift {A B} (r : result A) (k : A -> M B) (tr : trace) :
  bind (lift r) k tr
  = match r with Ok a => k a tr | Raise msg => (Raise msg, tr) end.
Proof. unfold bind, lift. now destruct r. Qed.

Lemma bind_emit {B} (e : event) (k : unit -> M B) (tr : trace) :
  bind (emit e) k tr = k tt (tr ++ [e]).
Proof. reflexivity. Qed.

Lemma bind_call {A B} (e : event) (answer : trace -> result A) (k : A -> M B)
    (tr : trace) :
  bind (call e answer) k tr
  = match answer tr with
    | Ok a => k a (tr ++ [e])
    | Raise msg => (Raise msg, tr ++ [e])
    end.
Proof. unfold bind, call. now destruct (answer tr). Qed.

Lemma bind_outcome {A B} (m : M A) (k : A -> M B) (tr tr1 : trace) (out : result A) :
  m tr = (out, tr1) ->
  bind m k tr
  = match out with Ok a => k a tr1 | Raise msg => (Raise msg, tr1) end.
Proof. unfold bind. intros ->. now destruct out. Qed.

(** ** What a trace shows *)

Lemma extractions_app (a b : trace) :
  extractions (a ++ b) = extractions a ++ extractions b.
Proof. apply flat_map_app. Qed.

Lemma csv_files_app (a b : trace) :
  csv_files (a ++ b) = csv_files a ++ csv_files b.
Proof. apply flat_map_app. Qed.

Lemma folders_app (a b : trace) : folders (a ++ b) = folders a ++ folders b.
Proof. apply flat_map_app. Qed.

Lemma progress_indices_app (a b : trace) :
  progress_indices (a ++ b) = progress_indices a ++ progress_indices b.
Proof. apply flat_map_app. Qed.

Lemma doc_events_silent (evs : trace) :
  Forall doc_event evs ->
  extractions evs = [] /\ csv_files evs = [] /\ folders evs = []
  /\ progress_indices evs = [].
Proof.
  induction 1 as [| e evs He _ IH]; [repeat split |].
  destruct e; try contradiction; exact IH.
Qed.

(** ** One image *)

Section OneImage.

Variable E : Env.

Lemma extract_outcome (image : bytes) (tr : trace) :
  exists out,
    extract_equipment_data E image tr = (out, tr ++ [gemini_generate image]).
Proof.
  unfold extract_equipment_data. rewrite bind_call.
  destruct (generated_text E tr image) as [response | msg]; [| eauto].
  rewrite bind_lift.
  match goal with |- context [match ?r with Ok _ => _ | Raise _ => _ end] =>
    destruct r end; unfold lift; eauto.
Qed.

Lemma create_doc_outcome (data : value) (folder_id : string) (tr : trace) :
  exists out evs,
    create_equipment_doc E data folder_id tr = (out, tr ++ evs)
    /\ Forall doc_event evs
    /\ (forall doc_url, out = Ok doc_url ->
          exists device model serial manufacturer,
            getitem E data "device" = Ok device
            /\ getitem E data "model" = Ok model
            /\ getitem E data "serial" = Ok serial
            /\ getitem E data "manufacturer" = Ok manufacturer).
Proof.
  unfold create_equipment_doc.
  rewrite bind_lift.
  destruct (getitem E data "device") as [device | msg];
    [| exists (Raise msg), []; rewrite app_nil_r; repeat split;
       [constructor | discriminate]].
  rewrite bind_lift.
  destruct (getitem E data "serial") as [serial | msg];
    [| exists (Raise msg), []; rewrite app_nil_r; repeat split;
       [constructor | discriminate]].
  rewrite bind_call.
  set (title := py_str E device +++ " - " +++ py_str E serial).
  destruct (doc_created E tr title folder_id) as [doc_id | msg];
    [| exists (Raise msg), [drive_create_doc title folder_id]; repeat split;
       [repeat constructor | discriminate]].
  rewrite !bind_lift.
  destruct (getitem E data "model") as [model | msg];
    [| exists (Raise msg), [drive_create_doc title folder_id]; repeat split;
       [repeat constructor | discriminate]].
  rewrite !bind_lift.
  destruct (getitem E data "manufacturer") as [manufacturer | msg];
    [| exists (Raise msg), [drive_create_doc title folder_id]; repeat split;
       [repeat constructor | discriminate]].
  rewrite bind_call.
  set (layout := docs_layout doc_id device model serial manufacturer).
  destruct (layout_done E _ doc_id device model serial manufacturer) as [[] | msg].
  - eexists _, [drive_create_doc title folder_id; layout].
    unfold ret. rewrite <- app_assoc. repeat split.
    + repeat constructor.
    + intros _ _. now exists device, model, serial, manufacturer.
  - exists (Raise msg), [drive_create_doc title folder_id; layout].
    rewrite <- app_assoc. repeat split; [repeat constructor | discriminate].
Qed.

(** The [try] block and its handler always produce a row. *)
Lemma process_image_outcome (op_idx : nat) (op_folder_id : string)
    (image : ImageItem) (tr : trace) :
  exists r evs,
    process_image E op_idx op_folder_id image tr
    = (Ok r, (tr ++ [gemini_generate (image_bytes image)]) ++ evs)
    /\ row_of op_idx image r
    /\ Forall doc_event evs.
Proof.
  unfold process_image, try_except.
  destruct (extract_outcome (image_bytes image) tr) as [out Hout].
  rewrite (bind_outcome _ _ _ _ _ Hout).
  destruct out as [data | msg].
  2: { exists (failed_row op_idx image msg), []. rewrite app_nil_r.
       repeat split; [right; now exists msg | constructor]. }
  destruct (create_doc_outcome data op_folder_id
              (tr ++ [gemini_generate (image_bytes image)]))
    as (out & evs & Hdoc & Hevs & Hfields).
  rewrite (bind_outcome _ _ _ _ _ Hdoc).
  destruct out as [doc_url | msg].
  2: { exists (failed_row op_idx image msg), evs.
       repeat split; [right; now exists msg | exact Hevs]. }
  destruct (Hfields doc_url eq_refl)
    as (device & model & serial & manufacturer & Hd & Hm & Hs & Hf).
  rewrite !bind_lift, Hd. rewrite !bind_lift, Hm. rewrite !bind_lift, Hs.
  rewrite !bind_lift, Hf.
  exists (success_row op_idx image device model serial manufacturer doc_url), evs.
  repeat split; [| exact Hevs].
  left. now exists device, model, serial, manufacturer, doc_url.
Qed.

(** The outcome of the [try] block, case by case. *)
Lemma process_image_eq (op_idx : nat) (op_folder_id : string)
    (image : ImageItem) (tr : trace) :
  process_image E op_idx op_folder_id image tr
  = match extract_equipment_data E (image_bytes image) tr with
    | (Raise msg, tr1) => (Ok (failed_row op_idx image msg), tr1)
    | (Ok data, tr1) =>
        match create_equipment_doc E data op_folder_id tr1 with
        | (Raise msg, tr2) => (Ok (failed_row op_idx image msg), tr2)
        | (Ok doc_url, tr2) =>
            match label_fields E data with
            | Ok (device, model, serial, manufacturer) =>
                (Ok (success_row op_idx image device model serial
                                 manufacturer doc_url), tr2)
            | Raise msg => (Ok (failed_row op_idx image msg), tr2)
            end
        end
    end.
Proof.
  unfold process_image, try_except.
  destruct (extract_equipment_data E (image_bytes image) tr)
    as [[data | msg] tr1] eqn:Hout.
  2: { now rewrite (bind_outcome _ _ _ _ _ Hout). }
  rewrite (bind_outcome _ _ _ _ _ Hout).
  destruct (create_equipment_doc E data op_folder_id tr1)
    as [[doc_url | msg] tr2] eqn:Hdoc.
  2: { now rewrite (bind_outcome _ _ _ _ _ Hdoc). }
  rewrite (bind_outcome _ _ _ _ _ Hdoc).
  unfold label_fields.
  rewrite !bind_lift.
  destruct (getitem E data "device"); cbn [rbind]; [| reflexivity].
  rewrite !bind_lift.
  destruct (getitem E data "model"); cbn [rbind]; [| reflexivity].
  rewrite !bind_lift.
  destruct (getitem E data "serial"); cbn [rbind]; [| reflexivity].
  rewrite !bind_lift.
  destruct (getitem E data "manufacturer"); cbn [rbind]; reflexivity.
Qed.

Lemma produced_row_of (op_idx : nat) (image : ImageItem) (r : dict) :
  produced E op_idx image r -> row_of op_idx image r.
Proof.
  intros (op_folder_id & tr & tr' & Hp).
  destruct (process_image_outcome op_idx op_folder_id image tr)
    as (r' & evs & Hp' & Hrow & _).
  congruence.
Qed.

End OneImage.

(** ** Rows *)

Lemma row_has_status (op_idx : nat) (image : ImageItem) (r : dict) :
  row_of op_idx image r ->
  lookup "status" r = Some (VStr "SUCCESS")
  \/ lookup "status" r = Some (VStr "FAILED").
Proof.
  intros [(d & m & s & f & u & ->) | (e & ->)]; [left | right]; reflexivity.
Qed.

Lemma count_status_filter (rows : list dict) (status : string) :
  Forall (fun r => exists v, lookup "status" r = Some v) rows ->
  count_status rows status = Ok (length (filter (has_status status) rows)).
Proof.
  induction 1 as [| r rows [v Hv] _ IH]; [reflexivity |].
  cbn [count_status filter]. unfold dict_getitem, has_status. rewrite Hv.
  cbn [rbind]. rewrite IH. cbn [rbind].
  now destruct (value_is_str v status).
Qed.

Lemma rows_have_status (E : Env) (op_idx : nat) (images : list ImageItem)
    (rows : list dict) :
  Forall2 (produced E op_idx) images rows ->
  Forall (fun r => exists v, lookup "status" r = Some v) rows.
Proof.
  induction 1 as [| image r images rows Hr _ IH]; constructor; [| exact IH].
  apply produced_row_of in Hr.
  destruct (row_has_status _ _ _ Hr) as [-> | ->]; eauto.
Qed.

(** Every row is tagged SUCCESS or FAILED, and not both. *)
Lemma status_partition (rows : list dict) :
  Forall (fun r => exists k image, row_of k image r) rows ->
  length (filter (has_status "SUCCESS") rows)
  + length (filter (has_status "FAILED") rows)
  = length rows.
Proof.
  induction 1 as [| r rows (k & image & Hr) _ IH]; [reflexivity |].
  cbn [filter].
  destruct (row_has_status _ _ _ Hr) as [Hs | Hs].
  - replace (has_status "SUCCESS" r) with true by (unfold has_status; now rewrite Hs).
    replace (has_status "FAILED" r) with false by (unfold has_status; now rewrite Hs).
    cbn [length]. lia.
  - replace (has_status "SUCCESS" r) with false by (unfold has_status; now rewrite Hs).
    replace (has_status "FAILED" r) with true by (unfold has_status; now rewrite Hs).
    cbn [length]. lia.
Qed.

(** ** The loop over the images of one operation *)

Section Loops.

Variable E : Env.

Lemma run_images_outcome (op_idx : nat) (op_folder_id : string)
    (n_images n_all : nat) (images : list ImageItem) :
  forall img_idx operation_results all_results tr,
  exists rows evs,
    run_images E op_idx op_folder_id n_images n_all images img_idx
               operation_results all_results tr
    = (Ok (operation_results ++ rows, all_results ++ rows), tr ++ evs)
    /\ Forall2 (produced E op_idx) images rows
    /\ extractions evs = map image_bytes images
    /\ csv_files evs = []
    /\ folders evs = []
    /\ progress_indices evs
       = map (global_index op_idx) (seq img_idx (length images)).
Proof.
  induction images as [| image rest IH]; intros img_idx opr allr tr.
  - exists [], []. cbn [run_images]. unfold ret. rewrite !app_nil_r.
    repeat split. constructor.
  - cbn [run_images]. rewrite bind_emit. cbv beta.
    match goal with |- context [bind (process_image E op_idx op_folder_id image) _ ?t] =>
      destruct (process_image_outcome E op_idx op_folder_id image t)
        as (r & devs & Hp & Hrow & Hdevs) end.
    rewrite (bind_outcome _ _ _ _ _ Hp). rewrite !bind_emit. cbv beta.
    match goal with |- context [run_images _ _ _ _ _ _ _ _ _ ?t] =>
      destruct (IH (S img_idx) (opr ++ [r]) (allr ++ [r]) t)
        as (rows & evs & Hrun & Hrows & Hext & Hcsv & Hfold & Hprog) end.
    rewrite Hrun. clear Hrun.
    assert (Hprod : produced E op_idx image r) by (repeat eexists; exact Hp).
    clear Hp.
    destruct (doc_events_silent _ Hdevs) as (Hd1 & Hd2 & Hd3 & Hd4).
    eexists (r :: rows), (_ :: _ :: devs ++ _ :: _ :: _ :: _ :: evs).
    split; [| split; [| split; [| split; [| split]]]].
    + rewrite <- !app_assoc. reflexivity.
    + now constructor.
    + cbn [extractions flat_map app map].
      change (flat_map _ (devs ++ ?x)) with (extractions (devs ++ x)).
      rewrite extractions_app, Hd1. cbn [extractions flat_map app].
      now rewrite <- Hext.
    + cbn [csv_files flat_map app].
      change (flat_map _ (devs ++ ?x)) with (csv_files (devs ++ x)).
      rewrite csv_files_app, Hd2. cbn [csv_files flat_map app]. exact Hcsv.
    + cbn [folders flat_map app].
      change (flat_map _ (devs ++ ?x)) with (folders (devs ++ x)).
      rewrite folders_app, Hd3. cbn [folders flat_map app]. exact Hfold.
    + cbn [progress_indices flat_map app length seq map].
      change (flat_map _ (devs ++ ?x)) with (progress_indices (devs ++ x)).
      rewrite progress_indices_app, Hd4. cbn [progress_indices flat_map app].
      now rewrite <- Hprog.
Qed.

(** ** The loop over the operations *)

Lemma run_operations_outcome (master_folder_id : string) (n_ops n_all : nat)
    (ops : list (list ImageItem)) :
  forall op_idx all_results tr,
  exists out evs,
    run_operations E master_folder_id n_ops n_all ops op_idx all_results tr
    = (out, tr ++ evs)
    /\ (drive_accepts E -> exists res, out = Ok res)
    /\ (forall res, out = Ok res ->
          exists groups folder_ids,
            res = all_results ++ concat groups
            /\ rows_of_ops E op_idx ops groups
            /\ length folder_ids = length groups
            /\ extractions evs = map image_bytes (concat ops)
            /\ csv_files evs = batch_files E folder_ids groups
            /\ folders evs
               = operation_folders master_folder_id op_idx (length ops)).
Proof.
  induction ops as [| images rest IH]; intros op_idx acc tr.
  - exists (Ok acc), []. cbn [run_operations]. unfold ret. rewrite app_nil_r.
    split; [reflexivity |]. split; [eauto |].
    intros res [= <-]. exists [], []. rewrite app_nil_r. repeat split.
  - cbn [run_operations]. rewrite bind_emit.
    unfold create_drive_folder. fold (parents_of master_folder_id).
    rewrite bind_call.
    set (subheader := st_subheader _).
    set (mkdir := drive_create_folder _ _).
    destruct (folder_created E (tr ++ [subheader]) _ _) as [fid | msg] eqn:Hfid.
    2: { exists (Raise msg), [subheader; mkdir]. rewrite <- app_assoc.
         split; [reflexivity |]. split; [| discriminate].
         intros [Hacc _]. destruct (Hacc (tr ++ [subheader])
           ("Operation_" +++ Str.of_nat_03d op_idx) (parents_of master_folder_id))
           as [id Hid]. congruence. }
    match goal with |- context [bind (run_images E op_idx fid ?n n_all images 1 [] acc) _ ?t] =>
      destruct (run_images_outcome op_idx fid n n_all images 1 [] acc t)
        as (rows & ievs & Hrun & Hrows & Hext & Hcsv & Hfold & _) end.
    rewrite (bind_outcome _ _ _ _ _ Hrun). cbn [fst snd app].
    unfold upload_csv_to_drive. rewrite bind_call.
    set (upload := drive_create_csv _ _ _).
    match goal with |- context [csv_created E ?t ?a ?b ?c] =>
      destruct (csv_created E t a b c) as [cid | msg] eqn:Hcid end.
    2: { exists (Raise msg), ([subheader; mkdir] ++ ievs ++ [upload]).
         rewrite <- !app_assoc.
         split; [reflexivity |]. split; [| discriminate].
         intros [_ Hacc].
         match type of Hcid with csv_created E ?t ?a ?b ?c = _ =>
           destruct (Hacc t a b c) as [id Hid] end. congruence. }
    rewrite bind_lift.
    rewrite (count_status_filter rows "SUCCESS")
      by (eapply rows_have_status; eassumption).
    rewrite bind_emit. cbv beta.
    set (done := st_success _).
    match goal with |- context [run_operations _ _ _ _ _ _ _ ?t] =>
      destruct (IH (S op_idx) (acc ++ rows) t)
        as (out & evs & Hops & Htotal & Hpartial) end.
    rewrite Hops.
    exists out, ([subheader; mkdir] ++ ievs ++ [upload; done] ++ evs).
    split; [rewrite <- !app_assoc; reflexivity |].
    split; [exact Htotal |].
    intros res Hres.
    destruct (Hpartial res Hres)
      as (groups & fids & -> & Hgroups & Hlen & Hext' & Hcsv' & Hfold').
    exists (rows :: groups), (fid :: fids).
    split; [cbn [concat]; now rewrite app_assoc |].
    split; [split; assumption |].
    split; [cbn [length]; now rewrite Hlen |].
    split; [| split].
    + rewrite !extractions_app, Hext, Hext'. cbn [concat].
      now rewrite map_app.
    + rewrite !csv_files_app, Hcsv, Hcsv'. reflexivity.
    + rewrite !folders_app, Hfold, Hfold'. reflexivity.
Qed.

End Loops.

(** ** Rows of a whole run *)

Lemma split_operations_concat (all_images : list ImageItem) :
  concat (split_operations all_images) = all_images.
Proof.
  rewrite split_operations_groups.
  rewrite groups_from_concat by (unfold BATCH_SIZE; lia).
  reflexivity.
Qed.

Lemma rows_of_ops_lengths (E : Env) (ops : list (list ImageItem)) :
  forall op_idx groups,
    rows_of_ops E op_idx ops groups ->
    Forall2 (fun images rows => length rows = length images) ops groups.
Proof.
  induction ops as [| images ops IH]; intros op_idx [| rows groups] H;
    try contradiction; [constructor |].
  destruct H as [Hrows Hrest]. constructor; [| eapply IH; eassumption].
  symmetry. eapply Forall2_length; eassumption.
Qed.

Lemma rows_of_ops_concat (E : Env) (ops : list (list ImageItem)) :
  forall op_idx groups,
    rows_of_ops E op_idx ops groups ->
    Forall2 (fun image r => exists k, produced E k image r)
            (concat ops) (concat groups).
Proof.
  induction ops as [| images ops IH]; intros op_idx [| rows groups] H;
    try contradiction; [constructor |].
  destruct H as [Hrows Hrest]. cbn [concat].
  apply Forall2_app; [| eapply IH; eassumption].
  eapply Forall2_impl; [| exact Hrows]. intros image r Hr. now exists op_idx.
Qed.

Lemma rows_are_rows (E : Env) (images : list ImageItem) (rows : list dict) :
  Forall2 (fun image r => exists k, produced E k image r) images rows ->
  Forall (fun r => exists k image, row_of k image r) rows.
Proof.
  induction 1 as [| image r images rows [k Hr] _ IH]; constructor; [| exact IH].
  exists k, image. eapply produced_row_of; eassumption.
Qed.

Lemma rows_tagged (rows : list dict) :
  Forall (fun r => exists k image, row_of k image r) rows ->
  Forall (fun r => exists v, lookup "status" r = Some v) rows.
Proof.
  apply Forall_impl. intros r (k & image & Hr).
  destruct (row_has_status _ _ _ Hr) as [-> | ->]; eauto.
Qed.

(** ** The whole run *)

Section Run.

Variable E : Env.

Lemma process_uploads_unflattened (files : list UploadedFile) (msg : string)
    (tr : trace) :
  collect_images E files [] = Raise msg ->
  process_uploads E files tr = (Raise msg, tr).
Proof.
  intros H. unfold process_uploads. now rewrite bind_lift, H.
Qed.

Lemma process_uploads_empty (files : list UploadedFile) (tr : trace) :
  collect_images E files [] = Ok [] ->
  process_uploads E files tr
  = (Ok None, tr ++ [st_error "❌ No valid images found!"]).
Proof.
  intros H. unfold process_uploads. now rewrite bind_lift, H.
Qed.

Lemma process_uploads_outcome (files : list UploadedFile)
    (all_images : list ImageItem) (tr : trace) :
  collect_images E files [] = Ok all_images ->
  all_images <> [] ->
  exists out evs,
    process_uploads E files tr = (out, tr ++ evs)
    /\ (drive_accepts E -> exists s, out = Ok (Some s))
    /\ (forall r, out = Ok r ->
          exists s, r = Some s /\ completed E all_images s evs).
Proof.
  intros Hflat Hne. unfold process_uploads. rewrite bind_lift, Hflat.
  destruct all_images as [| first others] eqn:Hall; [congruence |].
  rewrite <- Hall in *. clear Hne.
  rewrite bind_emit. cbv beta. rewrite bind_call. cbv beta.
  unfold create_drive_folder. fold (parents_of (BASE_FOLDER_ID E)).
  rewrite bind_call.
  set (found := st_success _).
  set (ts := now_strftime E (tr ++ [found])).
  set (mkdir := drive_create_folder _ _).
  destruct (folder_created E ((tr ++ [found]) ++ [datetime_now])
              ("DME_Upload_" +++ ts) (parents_of (BASE_FOLDER_ID E)))
    as [master | msg] eqn:Hmaster.
  2: { exists (Raise msg), [found; datetime_now; mkdir]. rewrite <- !app_assoc.
       split; [reflexivity |]. split; [| discriminate].
       intros [Hacc _].
       destruct (Hacc ((tr ++ [found]) ++ [datetime_now]) ("DME_Upload_" +++ ts)
                      (parents_of (BASE_FOLDER_ID E))) as [id Hid].
       congruence. }
  rewrite bind_emit. cbv beta.
  set (info := st_info _).
  match goal with
  | |- context [bind (run_operations E master ?n ?m ?ops 1 []) _ ?t] =>
      destruct (run_operations_outcome E master n m ops 1 [] t)
        as (out & oevs & Hops & Htotal & Hpartial)
  end.
  rewrite (bind_outcome _ _ _ _ _ Hops).
  destruct out as [all_results | msg].
  2: { exists (Raise msg), ([found; datetime_now; mkdir; info] ++ oevs).
       rewrite <- !app_assoc. split; [reflexivity |]. split; [| discriminate].
       intros Hacc. destruct (Htotal Hacc) as [res Hres]. discriminate. }
  destruct (Hpartial all_results eq_refl)
    as (groups & fids & Hres & Hgroups & Hlen & Hext & Hcsv & Hfold).
  cbn [app] in Hres.
  unfold upload_csv_to_drive. rewrite bind_call.
  set (upload := drive_create_csv _ _ _).
  match goal with |- context [csv_created E ?t ?a ?b ?c] =>
    destruct (csv_created E t a b c) as [cid | msg] eqn:Hcid end.
  2: { exists (Raise msg), ([found; datetime_now; mkdir; info] ++ oevs ++ [upload]).
       rewrite <- !app_assoc. split; [reflexivity |]. split; [| discriminate].
       intros [_ Hacc].
       match type of Hcid with csv_created E ?t ?a ?b ?c = _ =>
         destruct (Hacc t a b c) as [id Hid] end. congruence. }
  assert (Hrows : Forall (fun r => exists k image, row_of k image r) all_results).
  { rewrite Hres. eapply rows_are_rows, rows_of_ops_concat. eassumption. }
  rewrite !bind_lift.
  rewrite (count_status_filter all_results "SUCCESS") by now apply rows_tagged.
  rewrite !bind_lift.
  rewrite (count_status_filter all_results "FAILED") by now apply rows_tagged.
  unfold ret.
  eexists _, ([found; datetime_now; mkdir; info] ++ oevs ++ [upload]).
  rewrite <- !app_assoc. split; [reflexivity |]. split; [eauto |].
  intros r [= <-]. eexists. split; [reflexivity |].
  exists master, groups, fids, ts. cbn [total operations success failed
    master_folder_url results].
  repeat match goal with |- _ /\ _ => split end;
    try reflexivity; try assumption.
  - rewrite !extractions_app, Hext. subst found mkdir info upload.
    cbn [extractions flat_map app].
    now rewrite app_nil_r, split_operations_concat.
  - rewrite !csv_files_app, Hcsv. reflexivity.
  - rewrite !folders_app, Hfold. subst found mkdir info upload.
    cbn [folders flat_map app]. now rewrite app_nil_r.
  - rewrite app_assoc. apply last_last.
Qed.

(** A run that returns a summary flattened its uploads to a non-empty list. *)
Lemma process_uploads_summary (files : list UploadedFile) (tr tr' : trace)
    (s : RunSummary) :
  process_uploads E files tr = (Ok (Some s), tr') ->
  exists all_images evs,
    collect_images E files [] = Ok all_images
    /\ all_images <> []
    /\ tr' = tr ++ evs
    /\ completed E all_images s evs.
Proof.
  intros Hrun.
  destruct (collect_images E files []) as [all_images | msg] eqn:Hflat.
  2: { rewrite (process_uploads_unflattened _ _ _ Hflat) in Hrun. discriminate. }
  destruct all_images as [| first others] eqn:Hall.
  { rewrite (process_uploads_empty _ _ Hflat) in Hrun. discriminate. }
  rewrite <- Hall in *.
  assert (Hne : all_images <> []) by (rewrite Hall; discriminate).
  destruct (process_uploads_outcome files all_images tr Hflat Hne)
    as (out & evs & Hout & _ & Hdone).
  rewrite Hout in Hrun. inversion Hrun; subst out tr'.
  destruct (Hdone _ eq_refl) as (s' & [= <-] & Hcompleted).
  now exists all_images, evs.
Qed.

End Run.

(** ** The properties of the pipeline *)

(** C1. In the summary of a run that completes, the success count is the
    number of rows tagged SUCCESS, the failure count the number tagged FAILED,
    the total the length of the flattened list, and the two counts add up to
    the total. *)
Theorem summary_counts_add_up
    (E : Env) (files : list UploadedFile) (tr tr' : trace) (s : RunSummary) :
  process_uploads E files tr = (Ok (Some s), tr') ->
  exists all_images,
    collect_images E files [] = Ok all_images
    /\ total s = length all_images
    /\ success s = length (filter (has_status "SUCCESS") (results s))
    /\ failed s = length (filter (has_status "FAILED") (results s))
    /\ success s + failed s = total s.
Proof.
  intros Hrun.
  destruct (process_uploads_summary E files tr tr' s Hrun)
    as (all_images & evs & Hflat & _ & _ & Hdone).
  destruct Hdone as (master & groups & fids & ts & Htotal & _ & Hok & Hko & _
                     & Hres & Hgroups & _).
  exists all_images. repeat split; try assumption.
  assert (Hpairs := rows_of_ops_concat E _ _ _ Hgroups).
  rewrite split_operations_concat, <- Hres in Hpairs.
  rewrite Hok, Hko, Htotal.
  rewrite (status_partition (results s)) by (eapply rows_are_rows; eassumption).
  symmetry. eapply Forall2_length; eassumption.
Qed.

Lemma summary_counts_add_up_witness :
  exists s tr',
    process_uploads Demo.world Demo.mixed_uploads [] = (Ok (Some s), tr')
    /\ success s + failed s = total s.
Proof.
  destruct (process_uploads Demo.world Demo.mixed_uploads [])
    as [[[s |] | msg] tr'] eqn:Hrun; try (vm_compute in Hrun; discriminate).
  exists s, tr'. split; [reflexivity |].
  destruct (summary_counts_add_up Demo.world Demo.mixed_uploads [] tr' s Hrun)
    as (all_images & _ & _ & _ & _ & Hsum).
  exact Hsum.
Defined.

Lemma batcher_partition_witness :
  Demo.images 120 <> []
  /\ concat (split_operations (Demo.images 120)) = Demo.images 120
  /\ length (split_operations (Demo.images 120)) = ceil_div 120 50.
Proof.
  assert (Hne : Demo.images 120 <> []) by (vm_compute; discriminate).
  split; [exact Hne |].
  destruct (batcher_partition (Demo.images 120) Hne) as (Hcat & _ & _ & Hlen).
  split; [exact Hcat |]. exact Hlen.
Defined.

(** C3. Whatever the extractor and the artifact builder do, image by image,
    as long as Drive accepts folders and CSV files the run completes: every
    image of every group is handed to the extractor, in order; every group
    has one row per image; every group writes its rows as batch_results.csv
    into its own folder; the master CSV follows. *)
Theorem item_failures_are_isolated
    (E : Env) (files : list UploadedFile) (all_images : list ImageItem)
    (tr : trace) :
  drive_accepts E ->
  collect_images E files [] = Ok all_images ->
  all_images <> [] ->
  exists s evs groups folder_ids master_folder_id,
    process_uploads E files tr = (Ok (Some s), tr ++ evs)
    /\ extractions evs = map image_bytes all_images
    /\ results s = concat groups
    /\ Forall2 (fun images rows => length rows = length images)
               (split_operations all_images) groups
    /\ length folder_ids = length groups
    /\ csv_files evs
       = batch_files E folder_ids groups
         ++ [("master_results.csv", master_folder_id, to_csv E (results s))].
Proof.
  intros Hdrive Hflat Hne.
  destruct (process_uploads_outcome E files all_images tr Hflat Hne)
    as (out & evs & Hout & Htotal & Hdone).
  destruct (Htotal Hdrive) as [s ->].
  destruct (Hdone _ eq_refl) as (s' & [= <-] & Hcompleted).
  destruct Hcompleted as (master & groups & fids & ts & _ & _ & _ & _ & _
                          & Hres & Hgroups & Hlen & Hext & Hcsv & _).
  exists s, evs, groups, fids, master.
  repeat split; try assumption.
  eapply rows_of_ops_lengths; eassumption.
Qed.

Lemma demo_drive_accepts : drive_accepts Demo.world.
Proof. split; intros; eexists; reflexivity. Qed.

Lemma item_failures_are_isolated_witness :
  exists s evs,
    process_uploads Demo.world Demo.mixed_uploads [] = (Ok (Some s), [] ++ evs)
    /\ length (extractions evs) = 4
    /\ length (results s) = 4
    /\ failed s = 3.
Proof.
  assert (Hflat : collect_images Demo.world Demo.mixed_uploads []
                  = Ok (map (fun f => mkImage (file_name f) (file_data f))
                            Demo.mixed_uploads)) by reflexivity.
  destruct (item_failures_are_isolated Demo.world Demo.mixed_uploads _ []
              demo_drive_accepts Hflat ltac:(discriminate))
    as (s & evs & groups & fids & master & Hrun & Hext & Hres & _).
  exists s, evs. split; [exact Hrun |]. split; [now rewrite Hext |].
  vm_compute in Hrun. inversion Hrun. split; reflexivity.
Defined.

(** ** Indices *)

Lemma row_keys (op_idx : nat) (image : ImageItem) (r : dict) :
  row_of op_idx image r ->
  lookup "operation" r = Some (VInt (Z.of_nat op_idx))
  /\ lookup "image" r = Some (VStr (image_name image))
  /\ (keys r = success_keys \/ keys r = failed_keys).
Proof.
  intros [(d & m & s & f & u & ->) | (e & ->)]; repeat split;
    [left | right]; reflexivity.
Qed.

(** C4, as the code has it. Every row of a group, successful or failed,
    carries the index of its group under [operation] and has exactly the keys
    of a success row or of a failure row, none of which is a running index;
    the running index [(op_idx - 1) * BATCH_SIZE + img_idx] is computed for
    every image and shown by the overall progress bar only.  With 120 uploaded
    photos the groups have 50, 50 and 20 images, the row of the 75th image
    carries operation 2 and the progress bar shows 75 for it. *)
Theorem operation_recorded_running_index_shown
    (E : Env) (op_idx : nat) (op_folder_id : string) (n_images n_all : nat)
    (images : list ImageItem) (operation_results all_results : list dict)
    (tr : trace) :
  (exists rows evs,
      run_images E op_idx op_folder_id n_images n_all images 1
                 operation_results all_results tr
      = (Ok (operation_results ++ rows, all_results ++ rows), tr ++ evs)
      /\ length rows = length images
      /\ Forall (fun r =>
                   lookup "operation" r = Some (VInt (Z.of_nat op_idx))
                   /\ (keys r = success_keys \/ keys r = failed_keys)) rows
      /\ progress_indices evs
         = map (fun img_idx => (op_idx - 1) * BATCH_SIZE + img_idx)
               (seq 1 (length images)))
  /\ (exists s tr' r,
        process_uploads Demo.world (Demo.photos 120) [] = (Ok (Some s), tr')
        /\ map (@length ImageItem) (split_operations (Demo.images 120))
           = [50; 50; 20]
        /\ nth_error (results s) 74 = Some r
        /\ has_status "SUCCESS" r = true
        /\ lookup "operation" r = Some (VInt 2)
        /\ nth_error (progress_indices tr') 74 = Some (global_index 2 25)
        /\ global_index 2 25 = 75).
Proof.
  split.
  - destruct (run_images_outcome E op_idx op_folder_id n_images n_all images 1
                operation_results all_results tr)
      as (rows & evs & Hrun & Hrows & _ & _ & _ & Hprog).
    exists rows, evs. split; [exact Hrun |].
    split; [symmetry; eapply Forall2_length; eassumption |].
    split; [| exact Hprog].
    clear Hrun Hprog. induction Hrows as [| image r images rows Hr _ IH];
      constructor; [| exact IH].
    apply produced_row_of in Hr.
    destruct (row_keys _ _ _ Hr) as (Hop & _ & Hkeys). now split.
  - destruct (process_uploads Demo.world (Demo.photos 120) [])
      as [[[s |] | msg] tr'] eqn:Hrun; try (vm_compute in Hrun; discriminate).
    vm_compute in Hrun. inversion Hrun as [[Hs Htr]]. clear Hrun.
    eexists _, _, _. split; [reflexivity |].
    repeat split; vm_compute; reflexivity.
Qed.

(** C4 as stated fails: the row recorded for the 75th of 120 photos, in
    group 2 at position 25, is tagged SUCCESS and holds no field with the
    running index 75. *)
Lemma running_index_not_recorded :
  exists s tr' r,
    process_uploads Demo.world (Demo.photos 120) [] = (Ok (Some s), tr')
    /\ nth_error (results s) 74 = Some r
    /\ has_status "SUCCESS" r = true
    /\ ~ carries_index r ((2 - 1) * BATCH_SIZE + 25).
Proof.
  destruct (process_uploads Demo.world (Demo.photos 120) [])
    as [[[s |] | msg] tr'] eqn:Hrun; try (vm_compute in Hrun; discriminate).
  vm_compute in Hrun. inversion Hrun as [[Hs Htr]]. clear Hrun.
  eexists _, _, _. split; [reflexivity |].
  split; [vm_compute; reflexivity |].
  split; [vm_compute; reflexivity |].
  intros [key Hkey]. cbn [lookup] in Hkey.
  repeat match type of Hkey with
         | (if ?c then _ else _) = _ => destruct c; [discriminate |]
         end.
  discriminate.
Qed.

(** C6. When the flattened list is empty the run shows the error "No valid
    images found", returns nothing, and has asked Drive for no folder, no CSV
    file and no document, and the extractor for nothing. *)
Theorem no_images_aborts_before_any_output
    (E : Env) (files : list UploadedFile) (tr : trace) :
  collect_images E files [] = Ok [] ->
  exists evs,
    process_uploads E files tr = (Ok None, tr ++ evs)
    /\ evs = [st_error "❌ No valid images found!"]
    /\ folders evs = []
    /\ csv_files evs = []
    /\ documents evs = []
    /\ extractions evs = [].
Proof.
  intros Hflat. eexists. split; [apply process_uploads_empty; exact Hflat |].
  repeat split.
Qed.

Lemma no_images_aborts_before_any_output_witness :
  collect_images Demo.world Demo.text_only [] = Ok []
  /\ process_uploads Demo.world Demo.text_only []
     = (Ok None, [st_error "❌ No valid images found!"]).
Proof.
  assert (Hflat : collect_images Demo.world Demo.text_only [] = Ok [])
    by reflexivity.
  split; [exact Hflat |].
  destruct (no_images_aborts_before_any_output Demo.world Demo.text_only [] Hflat)
    as (evs & Hrun & -> & _).
  exact Hrun.
Defined.

(** C7. An exception of the artifact builder is recorded exactly as one of
    the extractor: the row is the failure row with the message of the
    exception, which has no field of the label and no document URL, and is
    the same row when the message is the same.  When the only upload is one
    image on which the extractor raises, the run reports one failure and no
    success and the master CSV is written from that single failure row. *)
Theorem builder_failure_recorded_as_extractor_failure
    (E : Env) (op_idx : nat) (op_folder_id : string) (image : ImageItem)
    (file : UploadedFile) (tr : trace) (msg : string) :
  (extractor_fails E image tr msg \/ builder_fails E op_folder_id image tr msg ->
   exists tr',
     process_image E op_idx op_folder_id image tr
     = (Ok (failed_row op_idx image msg), tr')
     /\ keys (failed_row op_idx image msg) = failed_keys
     /\ lookup "error" (failed_row op_idx image msg) = Some (VStr msg)
     /\ has_status "FAILED" (failed_row op_idx image msg) = true)
  /\ (drive_accepts E ->
      Str.endswith (file_name file) ".zip" = false ->
      (forall tr0, extractor_fails E (mkImage (file_name file) (file_data file))
                                   tr0 msg) ->
      exists s evs master_folder_id op_folder_id',
        process_uploads E [file] tr = (Ok (Some s), tr ++ evs)
        /\ failed s = 1
        /\ success s = 0
        /\ total s = 1
        /\ results s
           = [failed_row 1 (mkImage (file_name file) (file_data file)) msg]
        /\ csv_files evs
           = [("batch_results.csv", op_folder_id', to_csv E (results s));
              ("master_results.csv", master_folder_id, to_csv E (results s))]).
Proof.
  split.
  - intros Hfail. rewrite process_image_eq.
    destruct Hfail as [[tr1 Hex] | (data & tr1 & tr2 & Hex & Hdoc)].
    + rewrite Hex. exists tr1. repeat split.
    + rewrite Hex, Hdoc. exists tr2. repeat split.
  - intros Hdrive Hzip Hraise.
    set (only := mkImage (file_name file) (file_data file)).
    assert (Hflat : collect_images E [file] [] = Ok [only]).
    { cbn [collect_images]. now rewrite Hzip. }
    destruct (process_uploads_outcome E [file] [only] tr Hflat ltac:(discriminate))
      as (out & evs & Hout & Htotal & Hdone).
    destruct (Htotal Hdrive) as [s ->].
    destruct (Hdone _ eq_refl) as (s' & [= <-] & Hcompleted).
    destruct Hcompleted as (master & groups & fids & ts & Htot & _ & Hok & Hko & _
                            & Hres & Hgroups & Hlen & _ & Hcsv & _).
    change (split_operations [only]) with [[only]] in Hgroups.
    destruct groups as [| rows [| more groups]]; try contradiction;
      [| destruct Hgroups as [_ []]].
    destruct Hgroups as [Hrows _].
    inversion Hrows as [| ? r ? rest Hr Hrest]; subst. inversion Hrest; subst.
    destruct Hr as (folder & t & t' & Hp).
    rewrite process_image_eq in Hp.
    destruct (Hraise t) as [t1 Hex]. subst only. rewrite Hex in Hp.
    injection Hp as <- _.
    cbn [concat app] in Hres.
    destruct fids as [| fid [| ? ?]]; try discriminate.
    exists s, evs, master, fid. split; [exact Hout |].
    rewrite Hok, Hko, Htot, Hcsv, Hres.
    repeat split.
Qed.

Lemma demo_unreadable_fails (tr0 : trace) :
  extractor_fails Demo.world
    (mkImage (file_name Demo.unreadable) (file_data Demo.unreadable)) tr0
    "cannot identify image file".
Proof. eexists. reflexivity. Qed.

Lemma builder_failure_recorded_as_extractor_failure_witness :
  (exists tr',
      process_image Demo.world 1 "F5" (mkImage "w.jpg" [Byte.xfd]) []
      = (Ok (failed_row 1 (mkImage "w.jpg" [Byte.xfd]) "HttpError 500"), tr'))
  /\ (exists s evs,
         process_uploads Demo.world [Demo.unreadable] [] = (Ok (Some s), [] ++ evs)
         /\ failed s = 1 /\ success s = 0).
Proof.
  destruct (builder_failure_recorded_as_extractor_failure Demo.world 1 "F5"
              (mkImage "w.jpg" [Byte.xfd]) Demo.unreadable [] "HttpError 500")
    as [Hrow _].
  destruct (builder_failure_recorded_as_extractor_failure Demo.world 1 "F5"
              (mkImage "w.jpg" [Byte.xfd]) Demo.unreadable []
              "cannot identify image file")
    as [_ Hrun].
  split.
  - destruct Hrow as (tr' & Hp & _).
    + right. eexists _, _, _. split; [reflexivity | cbv; reflexivity].
    + exists tr'. exact Hp.
  - destruct (Hrun demo_drive_accepts eq_refl demo_unreadable_fails)
      as (s & evs & master & fid & Hp & Hf & Hs & _).
    exists s, evs. repeat split; assumption.
Defined.
(** C5. When the flattening succeeds, its output is the concatenation, in
    upload order, of one contribution per uploaded entry: an archive gives
    its members with a supported extension, in listing order, and nothing
    else, so a member whose name does not end case-insensitively in .jpg,
    .jpeg or .png is not among them and is not counted; any other entry
    gives itself unchanged. *)
Theorem flatten_drops_unsupported_members
    (E : Env) (files : list UploadedFile) (out : list ImageItem) :
  collect_images E files [] = Ok out ->
  exists parts,
    out = concat parts
    /\ length out = list_sum (map (@length ImageItem) parts)
    /\ Forall2 (contributes E) files parts
    /\ Forall2 (fun file part =>
                  Str.endswith (file_name file) ".zip" = true ->
                  forall member,
                    ~ ends_in_image_suffix member ->
                    ~ In member (map image_name part))
               files parts
    /\ (forall tr tr' s,
          process_uploads E files tr = (Ok (Some s), tr') ->
          total s = length out).
Proof.
  intros Hcollect. assert (Hflat := Hcollect).
  rewrite collect_images_flatten in Hflat.
  destruct (flatten_parts E files out Hflat) as (parts & Hparts & Hout).
  assert (Htotal : forall tr tr' s,
             process_uploads E files tr = (Ok (Some s), tr') ->
             total s = length out).
  { intros tr tr' s Hrun.
    destruct (process_uploads_summary E files tr tr' s Hrun)
      as (all_images & evs & Hflat' & _ & _ & Hdone).
    destruct Hdone as (_ & _ & _ & _ & Htot & _).
    congruence. }
  clear Hcollect. subst out.
  exists parts. split; [reflexivity |]. split.
  { clear. induction parts as [| p ps IH]; simpl; [reflexivity |].
    now rewrite length_app, IH. }
  split; [| split; [| exact Htotal]].
  - eapply Forall2_impl; [| exact Hparts].
    intros file part. apply flatten_entry_contributes.
  - eapply Forall2_impl; [| exact Hparts].
    intros file part Hpart Hzip member Hext Hin.
    apply flatten_entry_contributes in Hpart. unfold contributes in Hpart.
    rewrite Hzip in Hpart. destruct Hpart as (z & _ & Hnames & _).
    rewrite Hnames in Hin. apply filter_In in Hin. destruct Hin as [_ Hsup].
    apply Hext. now apply supported_image_spec.
Qed.

Lemma flatten_drops_unsupported_members_witness :
  collect_images Demo.world Demo.archive_uploads []
  = Ok [mkImage "x.jpg" [Byte.x00]; mkImage "a.jpg" [Byte.x01];
        mkImage "B.PNG" [Byte.x02]; mkImage "PHOTOS.ZIP" [Byte.x50]]
  /\ exists parts,
       map (map image_name) parts = [["x.jpg"]; ["a.jpg"; "B.PNG"]; ["PHOTOS.ZIP"]]
       /\ Forall2 (contributes Demo.world) Demo.archive_uploads parts.
Proof.
  assert (Hflat : collect_images Demo.world Demo.archive_uploads []
                  = Ok [mkImage "x.jpg" [Byte.x00]; mkImage "a.jpg" [Byte.x01];
                        mkImage "B.PNG" [Byte.x02]; mkImage "PHOTOS.ZIP" [Byte.x50]])
    by reflexivity.
  split; [exact Hflat |].
  destruct (flatten_drops_unsupported_members Demo.world Demo.archive_uploads _ Hflat)
    as (parts & Hout & _ & Hparts & _).
  exists parts. split; [| exact Hparts].
  inversion Hparts as [| f1 p1 fs1 ps1 H1 Hrest1]; subst.
  inversion Hrest1 as [| f2 p2 fs2 ps2 H2 Hrest2]; subst.
  inversion Hrest2 as [| f3 p3 fs3 ps3 H3 Hrest3]; subst.
  inversion Hrest3; subst.
  cbv in H1, H3. subst p1 p3.
  unfold contributes in H2. cbn [Demo.photo file_name Str.endswith] in H2.
  destruct H2 as (z & Hz & Hnames & _).
  change (zip_open Demo.world (file_data (Demo.photo "m.zip" Byte.x50)))
    with (Ok Demo.mixed_zip) in Hz.
  injection Hz as <-.
  change (filter supported_image (namelist Demo.mixed_zip))
    with ["a.jpg"; "B.PNG"] in Hnames.
  cbn [map]. now rewrite Hnames.
Defined.

(** ** The master list *)

Lemma rows_of_ops_operation (E : Env) (ops : list (list ImageItem)) :
  forall op_idx groups,
    rows_of_ops E op_idx ops groups ->
    Forall2 (fun k rows =>
               Forall (fun r => lookup "operation" r = Some (VInt (Z.of_nat k))) rows)
            (seq op_idx (length groups)) groups.
Proof.
  induction ops as [| images ops IH]; intros op_idx [| rows groups] H;
    try contradiction; [constructor |].
  destruct H as [Hrows Hrest]. cbn [length seq].
  constructor; [| eapply IH; eassumption].
  clear Hrest. induction Hrows as [| image r images rows Hr _ IHrows];
    constructor; [| exact IHrows].
  apply produced_row_of in Hr. now destruct (row_keys _ _ _ Hr).
Qed.

(** C8. In a run that completes, the master list is the concatenation of the
    groups' row lists in ascending group order, each group in the order of its
    images, so row by row it follows the flattened list; each group's rows
    were written as batch_results.csv, and the last thing the run does is
    write the whole list as master_results.csv into the master folder. *)
Theorem master_results_concatenate_groups
    (E : Env) (files : list UploadedFile) (tr tr' : trace) (s : RunSummary) :
  process_uploads E files tr = (Ok (Some s), tr') ->
  exists all_images evs groups folder_ids master_folder_id,
    collect_images E files [] = Ok all_images
    /\ tr' = tr ++ evs
    /\ results s = concat groups
    /\ rows_of_ops E 1 (split_operations all_images) groups
    /\ Forall2 (fun k rows =>
                  Forall (fun r => lookup "operation" r = Some (VInt (Z.of_nat k)))
                         rows)
               (seq 1 (length groups)) groups
    /\ Forall2 (fun image r => lookup "image" r = Some (VStr (image_name image)))
               all_images (results s)
    /\ length folder_ids = length groups
    /\ csv_files evs
       = batch_files E folder_ids groups
         ++ [("master_results.csv", master_folder_id, to_csv E (results s))]
    /\ master_folder_url s
       = "https://drive.google.com/drive/folders/" +++ master_folder_id
    /\ last evs datetime_now
       = drive_create_csv "master_results.csv" master_folder_id
                          (to_csv E (results s)).
Proof.
  intros Hrun.
  destruct (process_uploads_summary E files tr tr' s Hrun)
    as (all_images & evs & Hflat & _ & Htr & Hdone).
  destruct Hdone as (master & groups & fids & ts & _ & _ & _ & _ & Hurl
                     & Hres & Hgroups & Hlen & _ & Hcsv & _ & Hlast).
  exists all_images, evs, groups, fids, master.
  repeat match goal with |- _ /\ _ => split end; try assumption.
  - eapply rows_of_ops_operation; eassumption.
  - assert (Hpairs := rows_of_ops_concat E _ _ _ Hgroups).
    rewrite split_operations_concat, <- Hres in Hpairs.
    eapply Forall2_impl; [| exact Hpairs].
    intros image r [k Hr]. apply produced_row_of in Hr.
    now destruct (row_keys _ _ _ Hr) as (_ & Himage & _).
Qed.

Lemma master_results_concatenate_groups_witness :
  exists s tr' groups,
    process_uploads Demo.world (Demo.photos 120) [] = (Ok (Some s), tr')
    /\ results s = concat groups
    /\ length groups = 3.
Proof.
  destruct (process_uploads Demo.world (Demo.photos 120) [])
    as [[[s |] | msg] tr'] eqn:Hrun; try (vm_compute in Hrun; discriminate).
  destruct (master_results_concatenate_groups Demo.world (Demo.photos 120)
              [] tr' s Hrun)
    as (all_images & evs & groups & fids & master & Hflat & _ & Hres & Hgroups & _).
  exists s, tr', groups. split; [reflexivity |]. split; [exact Hres |].
  apply rows_of_ops_lengths in Hgroups.
  apply Forall2_length in Hgroups. rewrite <- Hgroups.
  vm_compute in Hflat. injection Hflat as <-. reflexivity.
Defined.

(** ** The fields of a success row *)

Lemma label_fields_ok (E : Env) (data : value)
    (device model serial manufacturer : value) :
  label_fields E data = Ok (device, model, serial, manufacturer) ->
  getitem E data "device" = Ok device
  /\ getitem E data "model" = Ok model
  /\ getitem E data "serial" = Ok serial
  /\ getitem E data "manufacturer" = Ok manufacturer.
Proof.
  unfold label_fields.
  destruct (getitem E data "device"); cbn [rbind]; [| discriminate].
  destruct (getitem E data "model"); cbn [rbind]; [| discriminate].
  destruct (getitem E data "serial"); cbn [rbind]; [| discriminate].
  destruct (getitem E data "manufacturer"); cbn [rbind]; [| discriminate].
  intros [= <- <- <- <-]. repeat split.
Qed.

Lemma label_fields_missing (E : Env) (data : value) (key msg : string) :
  In key label_keys ->
  getitem E data key = Raise msg ->
  exists e, label_fields E data = Raise e.
Proof.
  unfold label_fields, label_keys. intros Hin Hkey.
  destruct (getitem E data "device") eqn:Hd; cbn [rbind]; [| eauto].
  destruct (getitem E data "model") eqn:Hm; cbn [rbind]; [| eauto].
  destruct (getitem E data "serial") eqn:Hs; cbn [rbind]; [| eauto].
  destruct (getitem E data "manufacturer") eqn:Hf; cbn [rbind]; [| eauto].
  simpl in Hin. destruct Hin as [<- | [<- | [<- | [<- | []]]]]; congruence.
Qed.

(** C9. A row tagged SUCCESS comes from an answer of the extractor that held
    all four fields, and the row holds exactly those four values; an answer
    that parses but lacks one of the four keys gives a failure row; so in a
    run that completes every row tagged SUCCESS has device, model, serial and
    manufacturer. *)
Theorem success_rows_hold_all_fields (E : Env) :
  (forall op_idx op_folder_id image tr r tr',
      process_image E op_idx op_folder_id image tr = (Ok r, tr') ->
      has_status "SUCCESS" r = true ->
      exists data tr1 device model serial manufacturer,
        extract_equipment_data E (image_bytes image) tr = (Ok data, tr1)
        /\ getitem E data "device" = Ok device
        /\ getitem E data "model" = Ok model
        /\ getitem E data "serial" = Ok serial
        /\ getitem E data "manufacturer" = Ok manufacturer
        /\ lookup "device" r = Some device
        /\ lookup "model" r = Some model
        /\ lookup "serial" r = Some serial
        /\ lookup "manufacturer" r = Some manufacturer)
  /\ (forall op_idx op_folder_id image tr data tr1 key msg,
         extract_equipment_data E (image_bytes image) tr = (Ok data, tr1) ->
         In key label_keys ->
         getitem E data key = Raise msg ->
         exists e tr',
           process_image E op_idx op_folder_id image tr
           = (Ok (failed_row op_idx image e), tr'))
  /\ (forall files tr tr' s,
         process_uploads E files tr = (Ok (Some s), tr') ->
         Forall (fun r =>
                   has_status "SUCCESS" r = true ->
                   Forall (fun key => exists v, lookup key r = Some v) label_keys)
                (results s)).
Proof.
  split; [| split].
  - intros op_idx folder image tr r tr' Hp Hs.
    rewrite process_image_eq in Hp.
    destruct (extract_equipment_data E (image_bytes image) tr)
      as [[data | msg] tr1]; [| injection Hp as <- _; discriminate].
    destruct (create_equipment_doc E data folder tr1)
      as [[doc_url | msg] tr2]; [| injection Hp as <- _; discriminate].
    destruct (label_fields E data) as [[[[device model] serial] manufacturer] | msg]
      eqn:Hfields; [| injection Hp as <- _; discriminate].
    injection Hp as <- _.
    destruct (label_fields_ok E data _ _ _ _ Hfields) as (Hd & Hm & Hse & Hf).
    exists data, tr1, device, model, serial, manufacturer.
    repeat split; assumption.
  - intros op_idx folder image tr data tr1 key msg Hex Hin Hkey.
    rewrite process_image_eq, Hex.
    destruct (create_equipment_doc E data folder tr1) as [[doc_url | e] tr2];
      [| eauto].
    destruct (label_fields_missing E data key msg Hin Hkey) as [e ->]. eauto.
  - intros files tr tr' s Hrun.
    destruct (process_uploads_summary E files tr tr' s Hrun)
      as (all_images & evs & _ & _ & _ & Hdone).
    destruct Hdone as (master & groups & fids & ts & _ & _ & _ & _ & _
                       & Hres & Hgroups & _).
    assert (Hrows := rows_are_rows E _ _ (rows_of_ops_concat E _ _ _ Hgroups)).
    rewrite <- Hres in Hrows.
    eapply Forall_impl; [| exact Hrows].
    intros r (k & image & [(d & m & se & f & u & ->) | (e & ->)]) Hs;
      [| discriminate].
    repeat constructor; eexists; reflexivity.
Qed.

Lemma success_rows_hold_all_fields_witness :
  (exists device, lookup "device" (success_row 1 (mkImage "x.jpg" [Byte.x00])
                      (VStr "Wheelchair") (VStr "K0001") (VStr "SN123")
                      (VStr "n/a") "https://docs.google.com/document/d/D2/edit")
                  = Some device)
  /\ (exists e tr',
         process_image Demo.world 1 "F5" (mkImage "z.jpg" [Byte.xfe]) []
         = (Ok (failed_row 1 (mkImage "z.jpg" [Byte.xfe]) e), tr')).
Proof.
  destruct (success_rows_hold_all_fields Demo.world) as (Hok & Hmissing & _).
  split.
  - destruct (Hok 1 "F5" (mkImage "x.jpg" [Byte.x00]) [] _ _ eq_refl eq_refl)
      as (data & tr1 & device & model & serial & manufacturer & _ & _ & _ & _ & _
          & Hdevice & _).
    exists device. exact Hdevice.
  - apply (Hmissing 1 "F5" (mkImage "z.jpg" [Byte.xfe]) [] Demo.partial_label
             [gemini_generate [Byte.xfe]] "serial" "'serial'").
    + reflexivity.
    + simpl. tauto.
    + reflexivity.
Defined.

(** C10. An uploaded entry is opened as an archive exactly when its name
    ends in the lowercase [.zip]; in that case it contributes the supported
    members of the archive, otherwise it contributes itself, name and bytes.
    So [PHOTOS.ZIP] passes through as one image holding the bytes of the
    archive, whereas a member named [PHOTO.JPG] passes the member test, which
    lowers the name first. *)
Theorem archive_detection_is_case_sensitive
    (E : Env) (file : UploadedFile) (data : bytes) :
  (Str.endswith (file_name file) ".zip" = true
   <-> exists stem, file_name file = stem +++ ".zip")
  /\ collect_images E [file] []
     = (if Str.endswith (file_name file) ".zip"
        then (z <-? zip_open E (file_data file); expand_archive z)%res
        else Ok [mkImage (file_name file) (file_data file)])
  /\ Str.endswith "PHOTOS.ZIP" ".zip" = false
  /\ collect_images E [mkUpload "PHOTOS.ZIP" data] []
     = Ok [mkImage "PHOTOS.ZIP" data]
  /\ supported_image "PHOTO.JPG" = true
  /\ Str.endswith "PHOTO.JPG" ".jpg" = false.
Proof.
  split; [apply StrFacts.endswith_spec |].
  split; [| repeat split].
  rewrite collect_images_flatten. cbn [flatten]. unfold flatten_entry.
  destruct (Str.endswith (file_name file) ".zip"); cbn [rbind].
  - destruct (zip_open E (file_data file)) as [z | msg]; cbn [rbind];
      [| reflexivity].
    destruct (expand_archive z); cbn [rbind]; [| reflexivity].
    now rewrite app_nil_r.
  - reflexivity.
Qed.

Lemma archive_detection_is_case_sensitive_witness :
  (exists stem, "m.zip" = stem +++ ".zip")
  /\ collect_images Demo.world [Demo.photo "PHOTOS.ZIP" Byte.x50] []
     = Ok [mkImage "PHOTOS.ZIP" [Byte.x50]].
Proof.
  destruct (archive_detection_is_case_sensitive Demo.world
              (Demo.photo "m.zip" Byte.x50) [Byte.x50])
    as (Hiff & _ & _ & Hpass & _).
  split; [apply Hiff; reflexivity | exact Hpass].
Defined.

(** * Further properties *)

(** ** Splitting the answer of the model *)

Module SplitFacts.

Lemma split_go_length (sep s : string) :
  forall skip cur, 1 <= length (Str.split_go sep s skip cur).
Proof.
  induction s as [| c s IH]; intros skip cur; cbn [Str.split_go].
  - simpl. lia.
  - destruct skip as [| k]; [| apply IH].
    destruct (Str.startswith (String c s) sep); [simpl; lia | apply IH].
Qed.

(** A separator that occurs gives at least two pieces. *)
Lemma contains_split_length (a : ascii) (sep' s : string) :
  forall cur,
    Str.contains s (String a sep') = true ->
    2 <= length (Str.split_go (String a sep') s 0 cur).
Proof.
  induction s as [| c s IH]; intros cur Hin.
  - discriminate.
  - cbn [Str.contains] in Hin. cbn [Str.split_go].
    destruct (Str.startswith (String c s) (String a sep')).
    + cbn [length].
      pose proof (split_go_length (String a sep') s
                    (String.length (String a sep') - 1) []).
      lia.
    + apply IH. exact Hin.
Qed.

Lemma startswith_append (sep rest : string) :
  Str.startswith (sep +++ rest) sep = true.
Proof.
  induction sep as [| a sep IH]; [now destruct rest |].
  simpl. now rewrite Ascii.eqb_refl.
Qed.

(** Only the first [length sep] characters matter. *)
Lemma startswith_prefix (sep : string) :
  forall t rest,
    String.length sep <= String.length t ->
    Str.startswith (t +++ rest) sep = Str.startswith t sep.
Proof.
  induction sep as [| a sep IH]; intros t rest Hlen.
  - now destruct t, rest.
  - destruct t as [| b t]; simpl in Hlen; [lia |].
    simpl. now rewrite IH by lia.
Qed.

Lemma append_assoc (a b c : string) : (a +++ b) +++ c = a +++ b +++ c.
Proof.
  induction a as [| x a IH]; simpl; [reflexivity | now rewrite IH].
Qed.

Lemma string_of_rev_cons (c : ascii) (cur : list ascii) (s : string) :
  string_of_list_ascii (rev (c :: cur)) +++ s
  = string_of_list_ascii (rev cur) +++ String c s.
Proof.
  cbn [rev].
  induction (rev cur) as [| x l IH]; simpl; [reflexivity | now rewrite IH].
Qed.

(** Stepping over the rest of a separator. *)
Lemma split_go_skip (sep x rest : string) (cur : list ascii) :
  Str.split_go sep (x +++ rest) (String.length x) cur
  = Str.split_go sep rest 0 cur.
Proof.
  induction x as [| c x IH]; [now destruct rest |].
  simpl. exact IH.
Qed.

(** Up to the first occurrence of the separator. *)
Lemma split_go_first (a : ascii) (sep' rest : string) :
  forall pre cur,
    clear_before pre (String a sep') = true ->
    Str.split_go (String a sep') (pre +++ String a sep' +++ rest) 0 cur
    = (string_of_list_ascii (rev cur) +++ pre)
        :: Str.split_go (String a sep') rest 0 [].
Proof.
  set (sep := String a sep').
  induction pre as [| c pre IH]; intros cur Hclear.
  - change (EmptyString +++ sep +++ rest) with (String a (sep' +++ rest)).
    cbn [Str.split_go].
    change (String a (sep' +++ rest)) with (sep +++ rest).
    rewrite startswith_append.
    replace (string_of_list_ascii (rev cur) +++ EmptyString)
      with (string_of_list_ascii (rev cur)).
    2: { induction (string_of_list_ascii (rev cur)) as [| x l IHl];
         simpl; [reflexivity | now rewrite <- IHl]. }
    f_equal.
    replace (String.length sep - 1) with (String.length sep')
      by (subst sep; simpl; lia).
    apply split_go_skip.
  - cbn [clear_before] in Hclear. apply andb_true_iff in Hclear.
    destruct Hclear as [Hhere Hlater]. apply negb_true_iff in Hhere.
    change (String c pre +++ sep +++ rest) with (String c (pre +++ sep +++ rest)).
    cbn [Str.split_go].
    replace (Str.startswith (String c (pre +++ sep +++ rest)) sep) with false.
    2: { symmetry. rewrite <- Hhere.
         change (String c (pre +++ sep +++ rest))
           with (String c pre +++ sep +++ rest).
         rewrite <- append_assoc. apply startswith_prefix.
         rewrite StrFacts.length_append. lia. }
    rewrite (IH (c :: cur) Hlater). f_equal.
    apply string_of_rev_cons.
Qed.

(** Without an occurrence of the separator there is one piece. *)
Lemma split_go_absent (sep s : string) :
  forall cur,
    Str.contains s sep = false ->
    Str.split_go sep s 0 cur = [string_of_list_ascii (rev cur) +++ s].
Proof.
  induction s as [| c s IH]; intros cur Hout.
  - cbn [Str.split_go]. f_equal.
    induction (string_of_list_ascii (rev cur)) as [| x l IHl];
      simpl; [reflexivity | now rewrite <- IHl].
  - cbn [Str.contains] in Hout. apply orb_false_iff in Hout.
    destruct Hout as [Hhere Hlater].
    cbn [Str.split_go]. rewrite Hhere, (IH (c :: cur) Hlater).
    f_equal. apply string_of_rev_cons.
Qed.

Lemma contains_occurrence (sep rest : string) :
  forall pre, Str.contains (pre +++ sep +++ rest) sep = true.
Proof.
  induction pre as [| c pre IH].
  - change (EmptyString +++ sep +++ rest) with (sep +++ rest).
    destruct (sep +++ rest) eqn:Hs; cbn [Str.contains];
      rewrite <- Hs, startswith_append; reflexivity.
  - change (String c pre +++ sep +++ rest) with (String c (pre +++ sep +++ rest)).
    cbn [Str.contains]. rewrite IH. apply orb_true_r.
Qed.

(** [clear_before] says that the separator does not occur in [pre]. *)
Lemma clear_before_absent (sep : string) :
  forall pre, clear_before pre sep = true -> Str.contains pre sep = false
                                             \/ sep = EmptyString.
Proof.
  destruct sep as [| a sep']; [now right |]. left.
  induction pre as [| c pre IH]; [reflexivity |].
  cbn [clear_before] in H. apply andb_true_iff in H. destruct H as [Hhere Hlater].
  apply negb_true_iff in Hhere. cbn [Str.contains].
  rewrite (IH Hlater), orb_false_r.
  destruct (Str.startswith (String c pre) (String a sep')) eqn:Hs; [| reflexivity].
  exfalso.
  assert (Hlen : String.length (String a sep') <= String.length (String c pre)).
  { clear - Hs. revert Hs. generalize (String c pre) as t.
    generalize (String a sep') as p.
    induction p as [| x p IHp]; intros t Hs; [simpl; lia |].
    destruct t as [| y t]; [discriminate |].
    simpl in Hs. apply andb_true_iff in Hs. destruct Hs as [_ Hs].
    simpl. apply IHp in Hs. lia. }
  rewrite (startswith_prefix _ _ (String a sep') Hlen) in Hhere. congruence.
Qed.

End SplitFacts.

(** ** The answer of the model *)

Lemma append_empty_l (s : string) : EmptyString +++ s = s.
Proof. reflexivity. Qed.

Lemma piece_nth (xs : list string) (n : nat) :
  n < length xs -> piece xs n = Ok (nth n xs "").
Proof.
  intros Hn. unfold piece.
  destruct (nth_error xs n) as [x |] eqn:Hx.
  - now rewrite (nth_error_nth xs n "" Hx).
  - apply nth_error_None in Hx. lia.
Qed.

(** The two indexings of the fence handling always find their piece. *)
Lemma extract_via_fence_text (E : Env) (image : bytes) (tr : trace) :
  extract_equipment_data E image tr
  = (match generated_text E tr image with
     | Ok response => json_loads E (fence_text E (str_strip E response))
     | Raise msg => Raise msg
     end, tr ++ [gemini_generate image]).
Proof.
  unfold extract_equipment_data. rewrite bind_call.
  destruct (generated_text E tr image) as [response | msg]; [| reflexivity].
  rewrite bind_lift. unfold fence_text.
  set (text := str_strip E response).
  destruct (Str.contains text "```json") eqn:Hjson.
  - rewrite piece_nth
      by (apply (SplitFacts.contains_split_length _ _ _ [] Hjson)).
    cbn [rbind]. rewrite piece_nth by apply SplitFacts.split_go_length.
    reflexivity.
  - destruct (Str.contains text "```") eqn:Hfence; [| reflexivity].
    rewrite piece_nth
      by (apply (SplitFacts.contains_split_length _ _ _ [] Hfence)).
    cbn [rbind]. rewrite piece_nth by apply SplitFacts.split_go_length.
    reflexivity.
Qed.



(** X2. When the stripped answer reads [pre ```json body ``` post], with
    these the first opening and closing fences and no second [```json], the
    text parsed is the stripped [body]. *)
Theorem json_fence_body_is_parsed
    (E : Env) (image : bytes) (tr : trace) (response pre body post : string) :
  generated_text E tr image = Ok response ->
  str_strip E response = pre +++ "```json" +++ body +++ "```" +++ post ->
  clear_before pre "```json" = true ->
  clear_before body "```" = true ->
  Str.contains (body +++ "```" +++ post) "```json" = false ->
  extract_equipment_data E image tr
  = (json_loads E (str_strip E body), tr ++ [gemini_generate image]).
Proof.
  intros Hgen Htext Hpre Hbody Honce.
  rewrite extract_via_fence_text, Hgen, Htext. unfold fence_text.
  rewrite SplitFacts.contains_occurrence.
  unfold Str.split.
  rewrite (SplitFacts.split_go_first _ _ _ pre [] Hpre).
  rewrite (SplitFacts.split_go_absent _ _ [] Honce).
  cbn [nth rev string_of_list_ascii]. rewrite append_empty_l.
  rewrite (SplitFacts.split_go_first _ _ _ body [] Hbody).
  reflexivity.
Qed.

Lemma json_fence_body_is_parsed_witness :
  extract_equipment_data Demo.world [Byte.xfe] []
  = (Ok Demo.partial_label, [gemini_generate [Byte.xfe]]).
Proof.
  exact (json_fence_body_is_parsed Demo.world [Byte.xfe] []
           "```json partial ```" "" " partial " "" eq_refl eq_refl eq_refl
           eq_refl eq_refl).
Defined.

(** X3. When the stripped answer holds no [```json] and reads
    [pre ``` body ``` post], with these the first two fences, the text parsed
    is the stripped [body]. *)
Theorem plain_fence_body_is_parsed
    (E : Env) (image : bytes) (tr : trace) (response pre body post : string) :
  generated_text E tr image = Ok response ->
  str_strip E response = pre +++ "```" +++ body +++ "```" +++ post ->
  Str.contains (str_strip E response) "```json" = false ->
  clear_before pre "```" = true ->
  clear_before body "```" = true ->
  extract_equipment_data E image tr
  = (json_loads E (str_strip E body), tr ++ [gemini_generate image]).
Proof.
  intros Hgen Htext Hjson Hpre Hbody.
  rewrite extract_via_fence_text, Hgen. unfold fence_text.
  rewrite Hjson, Htext.
  rewrite SplitFacts.contains_occurrence.
  unfold Str.split.
  rewrite (SplitFacts.split_go_first _ _ _ pre [] Hpre).
  rewrite (SplitFacts.split_go_first _ _ _ body [] Hbody).
  cbn [nth rev string_of_list_ascii]. rewrite !append_empty_l.
  destruct (SplitFacts.clear_before_absent "```" body Hbody) as [Habsent | ?];
    [| discriminate].
  rewrite (SplitFacts.split_go_absent _ _ [] Habsent).
  reflexivity.
Qed.

Lemma plain_fence_body_is_parsed_witness :
  extract_equipment_data Demo2.fenced_world [Byte.x00] []
  = (Ok Demo.label, [gemini_generate [Byte.x00]]).
Proof.
  exact (plain_fence_body_is_parsed Demo2.fenced_world [Byte.x00] []
           "```full```" "" "full" "" eq_refl eq_refl eq_refl eq_refl eq_refl).
Defined.

(** ** The stages of a run *)

(** A run on a non-empty flattened list, stage by stage. *)
Lemma process_uploads_stages (E : Env) (files : list UploadedFile)
    (all_images : list ImageItem) (tr : trace) :
  collect_images E files [] = Ok all_images ->
  all_images <> [] ->
  process_uploads E files tr
  = match master_answer E tr all_images with
    | Raise msg =>
        (Raise msg, tr ++ [found_event all_images; datetime_now;
                           master_request E tr all_images])
    | Ok master =>
        match run_operations E master (length (split_operations all_images))
                (length all_images) (split_operations all_images) 1 []
                (tr ++ prelude E tr all_images) with
        | (Raise msg, t) => (Raise msg, t)
        | (Ok all_results, t) =>
            match csv_created E t "master_results.csv" master
                              (to_csv E all_results) with
            | Raise msg => (Raise msg, t ++ [master_upload E master all_results])
            | Ok _ =>
                match count_status all_results "SUCCESS" with
                | Raise msg =>
                    (Raise msg, t ++ [master_upload E master all_results])
                | Ok n_success =>
                    match count_status all_results "FAILED" with
                    | Raise msg =>
                        (Raise msg, t ++ [master_upload E master all_results])
                    | Ok n_failed =>
                        (Ok (Some {| total := length all_images;
                                     operations :=
                                       length (split_operations all_images);
                                     success := n_success;
                                     failed := n_failed;
                                     master_folder_url := folder_url master;
                                     results := all_results |}),
                         t ++ [master_upload E master all_results])
                    end
                end
            end
        end
    end.
Proof.
  intros Hflat Hne. unfold process_uploads. rewrite bind_lift, Hflat.
  destruct all_images as [| first others] eqn:Hall; [congruence |].
  rewrite <- Hall in *. clear Hne.
  rewrite bind_emit. cbv beta. rewrite bind_call. cbv beta.
  unfold create_drive_folder. fold (parents_of (BASE_FOLDER_ID E)).
  rewrite bind_call.
  fold (found_event all_images). fold (session_timestamp_at E tr all_images).
  fold (master_answer E tr all_images). fold (master_request E tr all_images).
  destruct (master_answer E tr all_images) as [master | msg].
  2: { now rewrite <- !app_assoc. }
  rewrite bind_emit. cbv beta. fold (info_event all_images).
  replace ((((tr ++ [found_event all_images]) ++ [datetime_now])
              ++ [master_request E tr all_images]) ++ [info_event all_images])
    with (tr ++ prelude E tr all_images)
    by (unfold prelude; now rewrite <- !app_assoc).
  destruct (run_operations E master (length (split_operations all_images))
              (length all_images) (split_operations all_images) 1 []
              (tr ++ prelude E tr all_images)) as [[all_results | msg] t] eqn:Hops.
  2: { now rewrite (bind_outcome _ _ _ _ _ Hops). }
  rewrite (bind_outcome _ _ _ _ _ Hops).
  unfold upload_csv_to_drive. rewrite bind_call.
  fold (master_upload E master all_results).
  destruct (csv_created E t "master_results.csv" master (to_csv E all_results));
    [| reflexivity].
  rewrite bind_lift.
  destruct (count_status all_results "SUCCESS"); [| reflexivity].
  rewrite bind_lift.
  destruct (count_status all_results "FAILED"); reflexivity.
Qed.

(** ** What makes a run fail *)

Lemma read_all_raises (z : ZipFile) (msg : string) :
  forall names,
    read_all z names = Raise msg ->
    exists member, In member names /\ zread z member = Raise msg.
Proof.
  induction names as [| filename rest IH]; intros H; [discriminate |].
  cbn [read_all] in H.
  destruct (zread z filename) as [data | e] eqn:Hdata; cbn [rbind] in H.
  - destruct (read_all z rest) as [items | e] eqn:Hrest; cbn [rbind] in H;
      [discriminate |].
    injection H as ->. destruct (IH eq_refl) as (member & Hin & Hread).
    exists member. split; [now right | exact Hread].
  - injection H as ->. exists filename. split; [now left | exact Hdata].
Qed.

Lemma flatten_raises (E : Env) (msg : string) :
  forall files,
    flatten E files = Raise msg ->
    exists file,
      In file files /\ flatten_entry E file = Raise msg.
Proof.
  induction files as [| file rest IH]; intros H; [discriminate |].
  cbn [flatten] in H.
  destruct (flatten_entry E file) as [items | e] eqn:Hentry; cbn [rbind] in H.
  - destruct (flatten E rest) as [more | e] eqn:Hrest; cbn [rbind] in H;
      [discriminate |].
    injection H as ->. destruct (IH eq_refl) as (f & Hin & Hf).
    exists f. split; [now right | exact Hf].
  - injection H as ->. exists file. split; [now left | exact Hentry].
Qed.

(** X4. When the flattening raises, the run raises the same exception
    before anything is shown, asked or written, and the exception comes from
    an entry named [*.zip]: from opening it, or from reading one of its
    members with a supported extension. *)
Theorem unreadable_archive_aborts_before_any_effect
    (E : Env) (files : list UploadedFile) (msg : string) (tr : trace) :
  collect_images E files [] = Raise msg ->
  process_uploads E files tr = (Raise msg, tr)
  /\ exists file,
       In file files
       /\ Str.endswith (file_name file) ".zip" = true
       /\ (zip_open E (file_data file) = Raise msg
           \/ exists z member,
                zip_open E (file_data file) = Ok z
                /\ In member (namelist z)
                /\ supported_image member = true
                /\ zread z member = Raise msg).
Proof.
  intros Hflat. split; [now apply process_uploads_unflattened |].
  rewrite collect_images_flatten in Hflat.
  destruct (flatten_raises E msg files Hflat) as (file & Hin & Hentry).
  exists file. split; [exact Hin |].
  unfold flatten_entry in Hentry.
  destruct (Str.endswith (file_name file) ".zip"); [| discriminate].
  split; [reflexivity |].
  destruct (zip_open E (file_data file)) as [z | e]; cbn [rbind] in Hentry.
  - right. unfold expand_archive in Hentry.
    destruct (read_all_raises z msg _ Hentry) as (member & Hmember & Hread).
    apply filter_In in Hmember. destruct Hmember as [Hlisted Hsupported].
    now exists z, member.
  - left. now injection Hentry as ->.
Qed.

Lemma unreadable_archive_aborts_before_any_effect_witness :
  process_uploads Demo.world
    [Demo.photo "x.jpg" Byte.x00; Demo.photo "broken.zip" Byte.x00] []
  = (Raise "File is not a zip file", []).
Proof.
  apply (unreadable_archive_aborts_before_any_effect Demo.world
           [Demo.photo "x.jpg" Byte.x00; Demo.photo "broken.zip" Byte.x00]
           "File is not a zip file" []).
  reflexivity.
Defined.

(** X5. Uploads of which none is named [*.zip] always flatten, to one image
    per upload with its name and bytes, whatever the extension: the extension
    filter applies to archive members only. *)
Theorem plain_uploads_pass_unfiltered (E : Env) (files : list UploadedFile) :
  Forall (fun file => Str.endswith (file_name file) ".zip" = false) files ->
  collect_images E files []
  = Ok (map (fun file => mkImage (file_name file) (file_data file)) files).
Proof.
  intros Hplain. rewrite collect_images_flatten.
  induction Hplain as [| file rest Hfile _ IH]; [reflexivity |].
  cbn [flatten map]. unfold flatten_entry. rewrite Hfile. cbn [rbind].
  now rewrite IH.
Qed.

Lemma plain_uploads_pass_unfiltered_witness :
  collect_images Demo.world
    [Demo.photo "notes.txt" Byte.x00; Demo.photo "PHOTOS.ZIP" Byte.x50] []
  = Ok [mkImage "notes.txt" [Byte.x00]; mkImage "PHOTOS.ZIP" [Byte.x50]].
Proof.
  apply (plain_uploads_pass_unfiltered Demo.world
           [Demo.photo "notes.txt" Byte.x00; Demo.photo "PHOTOS.ZIP" Byte.x50]).
  repeat constructor.
Defined.

Lemma run_operations_raises (E : Env) (master_folder_id : string)
    (n_ops n_all : nat) (msg : string) :
  forall ops op_idx all_results tr tr',
    run_operations E master_folder_id n_ops n_all ops op_idx all_results tr
    = (Raise msg, tr') ->
    exists t,
      (exists folder_name parents,
          tr' = t ++ [drive_create_folder folder_name parents]
          /\ folder_created E t folder_name parents = Raise msg)
      \/ (exists folder_id csv_data,
             tr' = t ++ [drive_create_csv "batch_results.csv" folder_id csv_data]
             /\ csv_created E t "batch_results.csv" folder_id csv_data
                = Raise msg).
Proof.
  induction ops as [| images rest IH]; intros op_idx acc tr tr' Hrun.
  - discriminate.
  - cbn [run_operations] in Hrun. rewrite bind_emit in Hrun. cbv beta in Hrun.
    unfold create_drive_folder in Hrun. rewrite bind_call in Hrun.
    match type of Hrun with context [folder_created E ?t ?a ?b] =>
      destruct (folder_created E t a b) as [fid | e] eqn:Hfid end.
    2: { injection Hrun as -> <-. eexists. left. eauto. }
    match type of Hrun with
    | context [bind (run_images E op_idx fid ?n n_all images 1 [] acc) _ ?t] =>
        destruct (run_images_outcome E op_idx fid n n_all images 1 [] acc t)
          as (rows & ievs & Himages & Hrows & _) end.
    rewrite (bind_outcome _ _ _ _ _ Himages) in Hrun. cbn [fst snd app] in Hrun.
    unfold upload_csv_to_drive in Hrun. rewrite bind_call in Hrun.
    match type of Hrun with context [csv_created E ?t ?a ?b ?c] =>
      destruct (csv_created E t a b c) as [cid | e] eqn:Hcid end.
    2: { injection Hrun as -> <-. eexists. right. eauto. }
    rewrite bind_lift in Hrun.
    rewrite (count_status_filter rows "SUCCESS") in Hrun
      by (eapply rows_have_status; eassumption).
    rewrite bind_emit in Hrun. cbv beta in Hrun.
    eapply IH. exact Hrun.
Qed.

(** X6. A run raises only what the flattening raised or what Drive answered
    to a request for a folder or for a CSV file, and that request is the last
    thing the run did: no exception of the extractor or of the artifact
    builder leaves the run, and nothing is tried after a refusal. *)
Theorem only_infrastructure_errors_are_fatal
    (E : Env) (files : list UploadedFile) (tr tr' : trace) (msg : string) :
  process_uploads E files tr = (Raise msg, tr') ->
  (collect_images E files [] = Raise msg /\ tr' = tr)
  \/ (exists t folder_name parents,
         tr' = t ++ [drive_create_folder folder_name parents]
         /\ folder_created E t folder_name parents = Raise msg)
  \/ (exists t filename folder_id csv_data,
         tr' = t ++ [drive_create_csv filename folder_id csv_data]
         /\ csv_created E t filename folder_id csv_data = Raise msg).
Proof.
  intros Hrun.
  destruct (collect_images E files []) as [all_images | e] eqn:Hflat.
  2: { rewrite (process_uploads_unflattened E _ _ _ Hflat) in Hrun.
       injection Hrun as -> <-. now left. }
  right.
  destruct all_images as [| first others] eqn:Hall.
  { rewrite (process_uploads_empty E _ _ Hflat) in Hrun. discriminate. }
  rewrite <- Hall in *.
  rewrite (process_uploads_stages E files all_images tr Hflat) in Hrun
    by (rewrite Hall; discriminate).
  unfold master_answer in Hrun.
  match type of Hrun with context [folder_created E ?t ?a ?b] =>
    destruct (folder_created E t a b) as [master | e] eqn:Hmaster end.
  2: { injection Hrun as -> <-. left.
       exists ((tr ++ [found_event all_images]) ++ [datetime_now]).
       eexists _, _. split; [| exact Hmaster].
       unfold master_request. now rewrite <- !app_assoc. }
  match type of Hrun with context [run_operations E ?a ?b ?c ?d ?e ?f ?g] =>
    destruct (run_operations E a b c d e f g) as [[all_results | e'] t] eqn:Hops end.
  2: { injection Hrun as -> <-.
       destruct (run_operations_raises E _ _ _ _ _ _ _ _ _ Hops)
         as (t0 & [(n & p & Ht & Hf) | (fid & csv & Ht & Hc)]);
         [left | right]; eauto 6. }
  assert (Hrows : Forall (fun r => exists v, lookup "status" r = Some v) all_results).
  { destruct (run_operations_outcome E master
                (length (split_operations all_images)) (length all_images)
                (split_operations all_images) 1 []
                (tr ++ prelude E tr all_images))
      as (out & oevs & Hops' & _ & Hpartial).
    rewrite Hops in Hops'. injection Hops' as <- _.
    destruct (Hpartial _ eq_refl) as (groups & fids & -> & Hgroups & _).
    cbn [app]. eapply rows_tagged, rows_are_rows, rows_of_ops_concat.
    eassumption. }
  match type of Hrun with context [csv_created E ?t ?a ?b ?c] =>
    destruct (csv_created E t a b c) as [cid | e] eqn:Hcid end.
  2: { injection Hrun as -> <-. right. unfold master_upload. eauto 6. }
  rewrite !(count_status_filter all_results _ Hrows) in Hrun.
  discriminate.
Qed.

Lemma only_infrastructure_errors_are_fatal_witness :
  (collect_images Demo.world [Demo.photo "broken.zip" Byte.x00] []
   = Raise "File is not a zip file" /\ @nil event = [])
  \/ (exists t folder_name parents,
         [] = t ++ [drive_create_folder folder_name parents]
         /\ folder_created Demo.world t folder_name parents
            = Raise "File is not a zip file")
  \/ (exists t filename folder_id csv_data,
         [] = t ++ [drive_create_csv filename folder_id csv_data]
         /\ csv_created Demo.world t filename folder_id csv_data
            = Raise "File is not a zip file").
Proof.
  apply (only_infrastructure_errors_are_fatal Demo.world
           [Demo.photo "broken.zip" Byte.x00] [] []).
  reflexivity.
Defined.

(** ** Folders *)

Lemma append_inj_l (p a b : string) : p +++ a = p +++ b -> a = b.
Proof.
  induction p as [| c p IH]; simpl; [auto |]. intros [= H]. auto.
Qed.

Lemma split_operations_length (all_images : list ImageItem) :
  length (split_operations all_images) = ceil_div (length all_images) BATCH_SIZE.
Proof.
  rewrite split_operations_groups.
  rewrite groups_from_length by (unfold BATCH_SIZE; lia).
  now rewrite Nat.sub_0_r.
Qed.

(** X7. A run that completes has asked Drive for the master folder, named
    after the timestamp and placed under the base folder, and then for one
    folder per operation, [Operation_001], [Operation_002], ... in this order,
    each placed under the master folder Drive returned; there are
    [ceil(total / 50)] of them and the summary links to the master folder. *)
Theorem folders_of_a_completed_run
    (E : Env) (files : list UploadedFile) (tr tr' : trace) (s : RunSummary) :
  process_uploads E files tr = (Ok (Some s), tr') ->
  exists all_images evs master,
    collect_images E files [] = Ok all_images
    /\ tr' = tr ++ evs
    /\ master_answer E tr all_images = Ok master
    /\ master_folder_url s = folder_url master
    /\ operations s = ceil_div (total s) 50
    /\ folders evs
       = ("DME_Upload_" +++ session_timestamp_at E tr all_images,
          parents_of (BASE_FOLDER_ID E))
         :: map (fun k => ("Operation_" +++ Str.of_nat_03d k, parents_of master))
                (seq 1 (operations s)).
Proof.
  intros Hrun.
  destruct (process_uploads_summary E files tr tr' s Hrun)
    as (all_images & evs0 & Hflat & Hne & _ & _).
  rewrite (process_uploads_stages E files all_images tr Hflat Hne) in Hrun.
  destruct (master_answer E tr all_images) as [master | e] eqn:Hmaster;
    [| discriminate].
  destruct (run_operations_outcome E master
              (length (split_operations all_images)) (length all_images)
              (split_operations all_images) 1 []
              (tr ++ prelude E tr all_images))
    as (out & oevs & Hops & _ & Hpartial).
  rewrite Hops in Hrun.
  destruct out as [res | e]; [| discriminate].
  destruct (Hpartial res eq_refl) as (groups & fids & _ & _ & _ & _ & _ & Hfold).
  destruct (csv_created _ _ _ _ _); [| discriminate].
  destruct (count_status res "SUCCESS"); [| discriminate].
  destruct (count_status res "FAILED"); [| discriminate].
  injection Hrun as <- <-.
  exists all_images, (prelude E tr all_images ++ oevs ++ [master_upload E master res]),
    master.
  cbn [total operations master_folder_url].
  repeat match goal with |- _ /\ _ => split end;
    try reflexivity; try assumption.
  - now rewrite <- !app_assoc.
  - apply split_operations_length.
  - rewrite !folders_app, Hfold. unfold prelude, master_request, found_event,
      info_event, master_upload, operation_folders.
    cbn [folders flat_map app]. now rewrite app_nil_r.
Qed.

Lemma folders_of_a_completed_run_witness :
  exists s tr' evs,
    process_uploads Demo.world (Demo.photos 120) [] = (Ok (Some s), tr')
    /\ map fst (folders evs)
       = ["DME_Upload_2025-01-01_00-00-00"; "Operation_001"; "Operation_002";
          "Operation_003"].
Proof.
  destruct (process_uploads Demo.world (Demo.photos 120) [])
    as [[[s |] | msg] tr'] eqn:Hrun; try (vm_compute in Hrun; discriminate).
  destruct (folders_of_a_completed_run Demo.world (Demo.photos 120) [] tr' s Hrun)
    as (all_images & evs & master & Hflat & _ & _ & _ & Hops & Hfold).
  exists s, tr', evs. split; [reflexivity |].
  rewrite Hfold, map_cons, map_map. cbn [fst].
  vm_compute in Hrun. injection Hrun as <- _. reflexivity.
Defined.

(** ** The names of the operation folders *)

Lemma parse_nat_zero (s : string) : parse_nat (String "0" s) = parse_nat s.
Proof.
  unfold parse_nat. cbn [NilEmpty.uint_of_string].
  destruct (NilEmpty.uint_of_string s); reflexivity.
Qed.

Lemma parse_nat_padded (d : string) :
  forall k, parse_nat (Str.repeat "0" k +++ d) = parse_nat d.
Proof.
  induction k as [| k IH]; [reflexivity |].
  cbn [Str.repeat String.append]. now rewrite parse_nat_zero.
Qed.

Lemma parse_of_nat (n : nat) : parse_nat (Str.of_nat n) = Some n.
Proof.
  unfold parse_nat, Str.of_nat. rewrite NilEmpty.usu. cbn [option_map].
  now rewrite DecimalNat.Unsigned.of_to.
Qed.

Lemma repeat_length (c : ascii) (k : nat) : String.length (Str.repeat c k) = k.
Proof.
  induction k as [| k IH]; simpl; [reflexivity | now rewrite IH].
Qed.

(** X8. [f"{op_idx:03d}"] reads back as [op_idx]; it has at least
    three characters, exactly three below 1000; so different operations get
    different folder names. *)
Theorem operation_folder_names_decode (n m : nat) :
  parse_nat (Str.of_nat_03d n) = Some n
  /\ 3 <= String.length (Str.of_nat_03d n)
  /\ (n < 1000 -> String.length (Str.of_nat_03d n) = 3)
  /\ ("Operation_" +++ Str.of_nat_03d n = "Operation_" +++ Str.of_nat_03d m ->
      n = m).
Proof.
  assert (Hparse : forall k, parse_nat (Str.of_nat_03d k) = Some k).
  { intros k. unfold Str.of_nat_03d. rewrite parse_nat_padded.
    apply parse_of_nat. }
  split; [apply Hparse |]. split; [| split].
  - unfold Str.of_nat_03d. rewrite StrFacts.length_append, repeat_length. lia.
  - intros Hn.
    assert (Hall : forallb (fun k => String.length (Str.of_nat_03d k) =? 3)
                           (seq 0 1000) = true) by (vm_compute; reflexivity).
    rewrite forallb_forall in Hall.
    apply Nat.eqb_eq, Hall, in_seq. lia.
  - intros Hname. apply append_inj_l in Hname.
    assert (Some n = Some m) by (rewrite <- (Hparse n), <- (Hparse m); now f_equal).
    congruence.
Qed.

Lemma operation_folder_names_decode_witness :
  String.length (Str.of_nat_03d 7) = 3 /\ 7 = 7.
Proof.
  destruct (operation_folder_names_decode 7 7) as (_ & _ & Hlen & Hinj).
  split; [apply Hlen; lia | apply Hinj; reflexivity].
Defined.

(** ** The shape of the loops *)

Lemma run_images_shape (E : Env) (op_idx : nat) (op_folder_id : string)
    (n_images n_all : nat) (images : list ImageItem) :
  forall img_idx operation_results all_results tr,
  exists steps,
    run_images E op_idx op_folder_id n_images n_all images img_idx
               operation_results all_results tr
    = (Ok (operation_results ++ map fst steps, all_results ++ map fst steps),
       tr ++ images_events op_idx n_images n_all img_idx images steps)
    /\ Forall2 (step_of E op_idx op_folder_id) images steps.
Proof.
  induction images as [| image rest IH]; intros img_idx opr allr tr.
  - exists []. cbn [run_images images_events map]. unfold ret.
    rewrite !app_nil_r. split; [reflexivity | constructor].
  - cbn [run_images]. rewrite bind_emit. cbv beta.
    match goal with
    | |- context [bind (process_image E op_idx op_folder_id image) _ ?t] =>
        destruct (process_image_outcome E op_idx op_folder_id image t)
          as (r & devs & Hp & _ & _);
        remember t as t0 eqn:Ht0
    end.
    rewrite <- app_assoc in Hp.
    rewrite (bind_outcome _ _ _ _ _ Hp). rewrite !bind_emit. cbv beta.
    match goal with |- context [run_images _ _ _ _ _ _ _ _ _ ?t] =>
      destruct (IH (S img_idx) (opr ++ [r]) (allr ++ [r]) t)
        as (steps & Hrun & Hsteps) end.
    rewrite Hrun. clear Hrun.
    exists ((r, [gemini_generate (image_bytes image)] ++ devs) :: steps).
    split.
    + cbn [map fst snd images_events]. unfold image_events, global_index.
      subst t0.
      repeat (rewrite <- ?app_assoc; cbn [app]). reflexivity.
    + constructor; [| exact Hsteps]. exists t0. exact Hp.
Qed.

Lemma run_operations_shape (E : Env) (master_folder_id : string)
    (n_ops n_all : nat) (ops : list (list ImageItem)) :
  forall op_idx all_results tr res tr',
    run_operations E master_folder_id n_ops n_all ops op_idx all_results tr
    = (Ok res, tr') ->
    exists segs,
      res = all_results ++ concat (map segment_rows segs)
      /\ tr' = tr ++ operations_events E master_folder_id n_ops n_all op_idx
                                       ops segs
      /\ segments_of E op_idx ops segs.
Proof.
  induction ops as [| images rest IH]; intros op_idx acc tr res tr' Hrun.
  - cbn [run_operations] in Hrun. injection Hrun as <- <-.
    exists []. cbn. now rewrite !app_nil_r.
  - cbn [run_operations] in Hrun. rewrite bind_emit in Hrun. cbv beta in Hrun.
    unfold create_drive_folder in Hrun. fold (parents_of master_folder_id) in Hrun.
    rewrite bind_call in Hrun.
    match type of Hrun with context [folder_created E ?t ?a ?b] =>
      destruct (folder_created E t a b) as [fid | e] end; [| discriminate].
    match type of Hrun with
    | context [bind (run_images E op_idx fid ?n n_all images 1 [] acc) _ ?t] =>
        destruct (run_images_shape E op_idx fid n n_all images 1 [] acc t)
          as (steps & Himages & Hsteps) end.
    rewrite (bind_outcome _ _ _ _ _ Himages) in Hrun. cbn [fst snd app] in Hrun.
    unfold upload_csv_to_drive in Hrun. rewrite bind_call in Hrun.
    match type of Hrun with context [csv_created E ?t ?a ?b ?c] =>
      destruct (csv_created E t a b c) as [cid | e] end; [| discriminate].
    rewrite bind_lift in Hrun.
    assert (Htags : Forall (fun r => exists v, lookup "status" r = Some v)
                           (map fst steps)).
    { clear - Hsteps. induction Hsteps as [| image st images steps Hst _ IHs];
        constructor; [| exact IHs].
      destruct Hst as [t Hp].
      destruct (process_image_outcome E op_idx fid image t) as (r & devs & Hp' & Hrow & _).
      rewrite Hp in Hp'. injection Hp' as -> _.
      destruct (row_has_status _ _ _ Hrow) as [-> | ->]; eauto. }
    rewrite (count_status_filter _ "SUCCESS" Htags) in Hrun.
    rewrite bind_emit in Hrun. cbv beta in Hrun.
    destruct (IH _ _ _ _ _ Hrun) as (segs & -> & -> & Hsegs).
    exists ((fid, steps) :: segs).
    split; [| split].
    + cbn [map concat segment_rows snd]. now rewrite app_assoc.
    + cbn [operations_events]. unfold operation_events, segment_rows.
      cbn [fst snd]. repeat (rewrite <- ?app_assoc; cbn [app]). reflexivity.
    + split; assumption.
Qed.

(** What the [try] block of an image has done. *)
Lemma step_events (E : Env) (op_idx : nat) (op_folder_id : string)
    (image : ImageItem) (st : dict * trace) :
  step_of E op_idx op_folder_id image st ->
  exists devs,
    snd st = gemini_generate (image_bytes image) :: devs
    /\ Forall doc_event devs
    /\ row_of op_idx image (fst st).
Proof.
  intros [t Hp].
  destruct (process_image_outcome E op_idx op_folder_id image t)
    as (r & devs & Hp' & Hrow & Hdevs).
  rewrite Hp in Hp'. injection Hp' as Hr Htr. subst r.
  rewrite <- app_assoc in Htr. apply app_inv_head in Htr.
  exists devs. now repeat split.
Qed.

(** ** What the loops show *)

Lemma op_progress_pairs_app (a b : trace) :
  op_progress_pairs (a ++ b) = op_progress_pairs a ++ op_progress_pairs b.
Proof. apply flat_map_app. Qed.

Lemma overall_progress_pairs_app (a b : trace) :
  overall_progress_pairs (a ++ b)
  = overall_progress_pairs a ++ overall_progress_pairs b.
Proof. apply flat_map_app. Qed.

Lemma documents_app (a b : trace) : documents (a ++ b) = documents a ++ documents b.
Proof. apply flat_map_app. Qed.

Lemma layouts_app (a b : trace) : layouts (a ++ b) = layouts a ++ layouts b.
Proof. apply flat_map_app. Qed.

Lemma doc_events_show_no_progress (devs : trace) :
  Forall doc_event devs ->
  op_progress_pairs devs = [] /\ overall_progress_pairs devs = []
  /\ Forall progress_in_range devs.
Proof.
  induction 1 as [| e devs He _ (IH1 & IH2 & IH3)]; [repeat split; constructor |].
  destruct e; try contradiction; repeat split; try assumption;
    constructor; simpl; auto.
Qed.

Lemma images_events_progress (E : Env) (op_idx : nat) (op_folder_id : string)
    (n_images n_all : nat) (images : list ImageItem) :
  forall steps img_idx,
    Forall2 (step_of E op_idx op_folder_id) images steps ->
    op_progress_pairs (images_events op_idx n_images n_all img_idx images steps)
    = map (fun p => (p, n_images)) (seq img_idx (length images))
    /\ overall_progress_pairs
         (images_events op_idx n_images n_all img_idx images steps)
       = map (fun p => (global_index op_idx p, n_all))
             (seq img_idx (length images)).
Proof.
  induction images as [| image rest IH]; intros steps img_idx Hsteps;
    inversion Hsteps as [| ? st ? steps' Hst Hrest]; subst.
  - split; reflexivity.
  - destruct (step_events _ _ _ _ _ Hst) as (devs & Hevs & Hdevs & _).
    destruct (doc_events_show_no_progress _ Hdevs) as (Hop & Hov & _).
    destruct (IH steps' (S img_idx) Hrest) as [IHop IHov].
    cbn [images_events length seq map]. unfold image_events. rewrite Hevs.
    split.
    + rewrite op_progress_pairs_app. cbn [op_progress_pairs flat_map app].
      change (flat_map _ (devs ++ ?x)) with (op_progress_pairs (devs ++ x)).
      rewrite op_progress_pairs_app, Hop. cbn [op_progress_pairs flat_map app].
      now rewrite IHop.
    + rewrite overall_progress_pairs_app.
      cbn [overall_progress_pairs flat_map app].
      change (flat_map _ (devs ++ ?x)) with (overall_progress_pairs (devs ++ x)).
      rewrite overall_progress_pairs_app, Hov.
      cbn [overall_progress_pairs flat_map app].
      now rewrite IHov.
Qed.

Lemma operations_events_progress (E : Env) (master_folder_id : string)
    (n_ops n_all : nat) (ops : list (list ImageItem)) :
  forall segs op_idx,
    segments_of E op_idx ops segs ->
    op_progress_pairs
      (operations_events E master_folder_id n_ops n_all op_idx ops segs)
    = expected_op_progress ops
    /\ overall_progress_pairs
         (operations_events E master_folder_id n_ops n_all op_idx ops segs)
       = expected_overall n_all op_idx ops.
Proof.
  induction ops as [| images rest IH]; intros [| seg segs] op_idx Hsegs;
    try contradiction; [split; reflexivity |].
  destruct Hsegs as [Hsteps Hrest].
  destruct (images_events_progress E op_idx (fst seg) (length images) n_all
              images (snd seg) 1 Hsteps) as [Hop Hov].
  destruct (IH segs (S op_idx) Hrest) as [IHop IHov].
  cbn [operations_events expected_overall expected_op_progress flat_map].
  unfold operation_events. split.
  - rewrite !op_progress_pairs_app, Hop, IHop.
    cbn [op_progress_pairs flat_map app]. now rewrite app_nil_r.
  - rewrite !overall_progress_pairs_app, Hov, IHov.
    cbn [overall_progress_pairs flat_map app]. now rewrite app_nil_r.
Qed.

(** ** The running index over the groups of the batcher *)

Lemma map_seq_offset {B} (f : nat -> B) (i : nat) :
  forall n start,
    map (fun p => f (i + p)) (seq start n) = map f (seq (i + start) n).
Proof.
  induction n as [| n IH]; intros start; [reflexivity |].
  cbn [seq map]. f_equal. rewrite IH. now rewrite Nat.add_succ_r.
Qed.

Lemma expected_overall_groups (l : list ImageItem) (n_all : nat) :
  forall fuel i k,
    length l - i <= fuel ->
    1 <= k ->
    i = (k - 1) * BATCH_SIZE ->
    expected_overall n_all k (groups_from BATCH_SIZE l fuel i)
    = map (fun j => (j, n_all)) (seq (i + 1) (length l - i)).
Proof.
  assert (Hb : 0 < BATCH_SIZE) by (unfold BATCH_SIZE; lia).
  induction fuel as [| fuel IH]; intros i k Hfuel Hk Hi.
  - rewrite groups_from_done by lia.
    replace (length l - i) with 0 by lia. reflexivity.
  - destruct (le_lt_dec (length l) i) as [Hge | Hlt].
    + rewrite groups_from_done by lia.
      replace (length l - i) with 0 by lia. reflexivity.
    + rewrite groups_from_cons by assumption.
      cbn [expected_overall].
      rewrite length_firstn, length_skipn.
      replace (map (fun img_idx => (global_index k img_idx, n_all))
                   (seq 1 (Nat.min BATCH_SIZE (length l - i))))
        with (map (fun j => (j, n_all))
                  (seq (i + 1) (Nat.min BATCH_SIZE (length l - i)))).
      2: { rewrite <- (map_seq_offset (fun j => (j, n_all)) i).
           apply map_ext. intros p. unfold global_index. now rewrite <- Hi. }
      destruct (le_lt_dec (length l) (i + BATCH_SIZE)) as [Hlast | Hmore].
      * rewrite groups_from_done by lia. cbn [expected_overall].
        rewrite app_nil_r. f_equal. f_equal. lia.
      * rewrite (IH (i + BATCH_SIZE) (S k))
          by (unfold BATCH_SIZE in *; lia).
        rewrite Nat.min_l by lia.
        replace (length l - i) with (BATCH_SIZE + (length l - (i + BATCH_SIZE)))
          by lia.
        rewrite seq_app, map_app. f_equal. f_equal. f_equal. lia.
Qed.

Lemma expected_overall_split (all_images : list ImageItem) (n_all : nat) :
  expected_overall n_all 1 (split_operations all_images)
  = map (fun j => (j, n_all)) (seq 1 (length all_images)).
Proof.
  rewrite split_operations_groups.
  rewrite (expected_overall_groups all_images n_all (length all_images) 0 1)
    by (simpl; lia).
  now rewrite Nat.sub_0_r.
Qed.

Lemma fits_groups (l : list ImageItem) :
  forall fuel i k,
    length l - i <= fuel ->
    1 <= k ->
    i = (k - 1) * BATCH_SIZE ->
    fits (length l) k (groups_from BATCH_SIZE l fuel i).
Proof.
  assert (Hb : 0 < BATCH_SIZE) by (unfold BATCH_SIZE; lia).
  induction fuel as [| fuel IH]; intros i k Hfuel Hk Hi.
  - rewrite groups_from_done by lia. exact I.
  - destruct (le_lt_dec (length l) i) as [Hge | Hlt].
    + rewrite groups_from_done by lia. exact I.
    + rewrite groups_from_cons by assumption. cbn [fits]. split.
      * unfold global_index. rewrite <- Hi, length_firstn, length_skipn. lia.
      * apply IH; unfold BATCH_SIZE in *; lia.
Qed.

Lemma fits_split (all_images : list ImageItem) :
  fits (length all_images) 1 (split_operations all_images).
Proof.
  rewrite split_operations_groups. apply fits_groups; simpl; lia.
Qed.

(** ** The shape of a completed run *)

Lemma segments_rows (E : Env) (ops : list (list ImageItem)) :
  forall segs op_idx,
    segments_of E op_idx ops segs ->
    Forall (fun r => exists k image, row_of k image r)
           (concat (map segment_rows segs)).
Proof.
  induction ops as [| images rest IH]; intros [| seg segs] op_idx Hsegs;
    try contradiction; [constructor |].
  destruct Hsegs as [Hsteps Hrest]. cbn [map concat].
  apply Forall_app. split; [| eapply IH; eassumption].
  unfold segment_rows. clear - Hsteps.
  induction Hsteps as [| image st images steps Hst _ IHs]; constructor;
    [| exact IHs].
  destruct (step_events _ _ _ _ _ Hst) as (_ & _ & _ & Hrow).
  now exists op_idx, image.
Qed.

Lemma process_uploads_shape (E : Env) (files : list UploadedFile)
    (tr tr' : trace) (s : RunSummary) :
  process_uploads E files tr = (Ok (Some s), tr') ->
  exists all_images master segs,
    collect_images E files [] = Ok all_images
    /\ all_images <> []
    /\ master_answer E tr all_images = Ok master
    /\ segments_of E 1 (split_operations all_images) segs
    /\ results s = concat (map segment_rows segs)
    /\ total s = length all_images
    /\ operations s = length (split_operations all_images)
    /\ success s = length (filter (has_status "SUCCESS") (results s))
    /\ failed s = length (filter (has_status "FAILED") (results s))
    /\ master_folder_url s = folder_url master
    /\ tr' = tr ++ prelude E tr all_images
                ++ operations_events E master
                     (length (split_operations all_images)) (length all_images)
                     1 (split_operations all_images) segs
                ++ [master_upload E master (results s)].
Proof.
  intros Hrun.
  destruct (process_uploads_summary E files tr tr' s Hrun)
    as (all_images & evs0 & Hflat & Hne & _ & _).
  rewrite (process_uploads_stages E files all_images tr Hflat Hne) in Hrun.
  destruct (master_answer E tr all_images) as [master | e] eqn:Hmaster;
    [| discriminate].
  destruct (run_operations E master _ _ _ 1 [] _) as [[res | e] t] eqn:Hops;
    [| discriminate].
  destruct (run_operations_shape E master _ _ _ _ _ _ _ _ Hops)
    as (segs & Hres & Ht & Hsegs).
  cbn [app] in Hres.
  assert (Htags : Forall (fun r => exists v, lookup "status" r = Some v) res).
  { rewrite Hres. eapply rows_tagged, segments_rows. eassumption. }
  destruct (csv_created _ _ _ _ _); [| discriminate].
  rewrite !(count_status_filter res _ Htags) in Hrun.
  injection Hrun as <- <-.
  exists all_images, master, segs.
  cbn [total operations success failed master_folder_url results].
  repeat match goal with |- _ /\ _ => split end;
    try reflexivity; try assumption.
  rewrite Ht, <- !app_assoc. reflexivity.
Qed.

(** X9. In a run that completes, the overall bar is given
    [1/N, 2/N, ..., N/N] in this order, [N] being the number of flattened
    images, and the bar of each operation [1/n, ..., n/n] for its [n] images:
    the running index of an image is its position in the flattened list. *)
Theorem progress_counts_every_image_once
    (E : Env) (files : list UploadedFile) (tr tr' : trace) (s : RunSummary) :
  process_uploads E files tr = (Ok (Some s), tr') ->
  exists all_images evs,
    collect_images E files [] = Ok all_images
    /\ tr' = tr ++ evs
    /\ overall_progress_pairs evs
       = map (fun i => (i, total s)) (seq 1 (total s))
    /\ op_progress_pairs evs
       = flat_map (fun images =>
                     map (fun p => (p, length images)) (seq 1 (length images)))
                  (split_operations all_images).
Proof.
  intros Hrun.
  destruct (process_uploads_shape E files tr tr' s Hrun)
    as (all_images & master & segs & Hflat & _ & _ & Hsegs & _ & Htot & _ & _ & _
        & _ & Htr).
  destruct (operations_events_progress E master
              (length (split_operations all_images)) (length all_images)
              (split_operations all_images) segs 1 Hsegs) as [Hop Hov].
  eexists all_images, _. split; [exact Hflat |]. split; [exact Htr |].
  split.
  - rewrite !overall_progress_pairs_app, Hov, expected_overall_split, Htot.
    unfold prelude, found_event, master_request, info_event, master_upload.
    cbn [overall_progress_pairs flat_map app]. now rewrite app_nil_r.
  - rewrite !op_progress_pairs_app, Hop.
    unfold prelude, found_event, master_request, info_event, master_upload.
    cbn [op_progress_pairs flat_map app]. now rewrite app_nil_r.
Qed.

Lemma progress_counts_every_image_once_witness :
  exists s tr' evs,
    process_uploads Demo.world (Demo.photos 120) [] = (Ok (Some s), tr')
    /\ tr' = [] ++ evs
    /\ overall_progress_pairs evs = map (fun i => (i, 120)) (seq 1 120).
Proof.
  destruct (process_uploads Demo.world (Demo.photos 120) [])
    as [[[s |] | msg] tr'] eqn:Hrun; try (vm_compute in Hrun; discriminate).
  destruct (progress_counts_every_image_once Demo.world (Demo.photos 120) []
              tr' s Hrun) as (all_images & evs & _ & Htr & Hov & _).
  exists s, tr', evs. split; [reflexivity |]. split; [exact Htr |].
  rewrite Hov. vm_compute in Hrun. injection Hrun as <- _. reflexivity.
Defined.

(** ** Progress bars stay in range *)

Lemma images_events_in_range (E : Env) (op_idx : nat) (op_folder_id : string)
    (n_images n_all : nat) (images : list ImageItem) :
  forall steps img_idx,
    Forall2 (step_of E op_idx op_folder_id) images steps ->
    1 <= img_idx ->
    img_idx + length images <= S n_images ->
    global_index op_idx n_images <= n_all ->
    Forall progress_in_range
           (images_events op_idx n_images n_all img_idx images steps).
Proof.
  induction images as [| image rest IH]; intros steps img_idx Hsteps Hlo Hhi Hall;
    inversion Hsteps as [| ? st ? steps' Hst Hrest]; subst; [constructor |].
  destruct (step_events _ _ _ _ _ Hst) as (devs & Hevs & Hdevs & _).
  destruct (doc_events_show_no_progress _ Hdevs) as (_ & _ & Hrange).
  cbn [length] in Hhi.
  cbn [images_events]. unfold image_events. rewrite Hevs.
  apply Forall_app. split; [| apply IH; [assumption | lia | lia | assumption]].
  cbn [app].
  constructor; [exact I |]. constructor; [exact I |].
  apply Forall_app. split; [exact Hrange |].
  unfold global_index in *.
  unfold BATCH_SIZE in *.
  constructor; [cbn [progress_in_range]; lia |].
  constructor; [cbn [progress_in_range]; lia |].
  constructor; [exact I |]. constructor; [exact I |]. constructor.
Qed.

(** Whatever the outcome of the loop over the operations. *)
Lemma run_operations_in_range (E : Env) (master_folder_id : string)
    (n_ops n_all : nat) (ops : list (list ImageItem)) :
  forall op_idx all_results tr,
    fits n_all op_idx ops ->
    exists out evs,
      run_operations E master_folder_id n_ops n_all ops op_idx all_results tr
      = (out, tr ++ evs)
      /\ Forall progress_in_range evs.
Proof.
  induction ops as [| images rest IH]; intros op_idx acc tr Hfits.
  - exists (Ok acc), []. cbn [run_operations]. unfold ret.
    rewrite app_nil_r. split; [reflexivity | constructor].
  - destruct Hfits as [Hfit Hrest].
    cbn [run_operations]. rewrite bind_emit. cbv beta.
    unfold create_drive_folder. rewrite bind_call.
    match goal with |- context [folder_created E ?t ?a ?b] =>
      destruct (folder_created E t a b) as [fid | e] end.
    2: { eexists _, [_; _]. rewrite <- app_assoc. split; [reflexivity |].
         repeat constructor. }
    match goal with
    | |- context [bind (run_images E op_idx fid ?n n_all images 1 [] acc) _ ?t] =>
        destruct (run_images_shape E op_idx fid n n_all images 1 [] acc t)
          as (steps & Himages & Hsteps) end.
    rewrite (bind_outcome _ _ _ _ _ Himages). cbn [fst snd app].
    assert (Hrange : Forall progress_in_range
                       (images_events op_idx (length images) n_all 1 images steps)).
    { apply (images_events_in_range E op_idx fid (length images) n_all images
               steps 1 Hsteps); [lia | lia | exact Hfit]. }
    unfold upload_csv_to_drive. rewrite bind_call.
    match goal with |- context [csv_created E ?t ?a ?b ?c] =>
      destruct (csv_created E t a b c) as [cid | e] end.
    2: { eexists _, ([_; _] ++ images_events op_idx (length images) n_all 1
                                           images steps ++ [_]).
         rewrite <- !app_assoc. split; [reflexivity |].
         apply Forall_app. split; [repeat constructor |].
         apply Forall_app. split; [exact Hrange | repeat constructor]. }
    rewrite bind_lift.
    destruct (count_status (map fst steps) "SUCCESS") as [ok | e].
    2: { eexists _, ([_; _] ++ images_events op_idx (length images) n_all 1
                                           images steps ++ [_]).
         rewrite <- !app_assoc. split; [reflexivity |].
         apply Forall_app. split; [repeat constructor |].
         apply Forall_app. split; [exact Hrange | repeat constructor]. }
    rewrite bind_emit. cbv beta.
    match goal with |- context [run_operations _ _ _ _ _ _ _ ?t] =>
      destruct (IH (S op_idx) (acc ++ map fst steps) t Hrest)
        as (out & evs & Hrun & Hevs) end.
    rewrite Hrun.
    eexists out, ([_; _] ++ images_events op_idx (length images) n_all 1
                                          images steps ++ [_; _] ++ evs).
    rewrite <- !app_assoc. split; [reflexivity |].
    apply Forall_app. split; [repeat constructor |].
    apply Forall_app. split; [exact Hrange |].
    apply Forall_app. split; [repeat constructor | exact Hevs].
Qed.

(** X10. Whatever the outcome of a run, every value given to a progress
    bar lies between [1 / den] and [1]: the operation bar gets
    [img_idx / len(operation_images)] and the overall bar
    [global_idx / len(all_images)] with a numerator that never exceeds the
    denominator. *)
Theorem progress_values_stay_in_range
    (E : Env) (files : list UploadedFile) (tr tr' : trace)
    (out : result (option RunSummary)) :
  process_uploads E files tr = (out, tr') ->
  exists evs,
    tr' = tr ++ evs
    /\ Forall (fun nd => 1 <= fst nd <= snd nd) (op_progress_pairs evs)
    /\ Forall (fun nd => 1 <= fst nd <= snd nd) (overall_progress_pairs evs).
Proof.
  intros Hrun.
  assert (Hevs : exists evs, tr' = tr ++ evs /\ Forall progress_in_range evs).
  { destruct (collect_images E files []) as [all_images | e] eqn:Hflat.
    2: { rewrite (process_uploads_unflattened E _ _ _ Hflat) in Hrun.
         injection Hrun as _ <-. exists []. now rewrite app_nil_r. }
    destruct all_images as [| first others] eqn:Hall.
    { rewrite (process_uploads_empty E _ _ Hflat) in Hrun.
      injection Hrun as _ <-. eexists. split; [reflexivity |].
      repeat constructor. }
    rewrite <- Hall in *.
    rewrite (process_uploads_stages E files all_images tr Hflat) in Hrun
      by (rewrite Hall; discriminate).
    destruct (master_answer E tr all_images) as [master | e].
    2: { injection Hrun as _ <-. eexists. split; [reflexivity |].
         unfold found_event, master_request. repeat constructor. }
    destruct (run_operations_in_range E master
                (length (split_operations all_images)) (length all_images)
                (split_operations all_images) 1 []
                (tr ++ prelude E tr all_images) (fits_split all_images))
      as (out' & oevs & Hops & Hrange).
    rewrite Hops in Hrun.
    assert (Hpre : Forall progress_in_range (prelude E tr all_images)).
    { unfold prelude, found_event, master_request, info_event.
      repeat constructor. }
    destruct out' as [res | e].
    2: { injection Hrun as _ <-. exists (prelude E tr all_images ++ oevs).
         rewrite app_assoc. split; [reflexivity |].
         apply Forall_app. now split. }
    assert (tr' = ((tr ++ prelude E tr all_images) ++ oevs)
                    ++ [master_upload E master res]).
    { destruct (csv_created _ _ _ _ _); [| now injection Hrun as _ <-].
      destruct (count_status res "SUCCESS"); [| now injection Hrun as _ <-].
      destruct (count_status res "FAILED"); now injection Hrun as _ <-. }
    subst tr'.
    exists (prelude E tr all_images ++ oevs ++ [master_upload E master res]).
    rewrite <- !app_assoc. split; [reflexivity |].
    apply Forall_app. split; [exact Hpre |].
    apply Forall_app. split; [exact Hrange |].
    unfold master_upload. repeat constructor. }
  destruct Hevs as (evs & -> & Hrange). exists evs. split; [reflexivity |].
  clear Hrun. induction Hrange as [| e evs He _ [IHop IHov]];
    [split; constructor |].
  destruct e; cbn [op_progress_pairs overall_progress_pairs flat_map app];
    split; try assumption; constructor; assumption.
Qed.

Lemma progress_values_stay_in_range_witness :
  exists evs,
    snd (process_uploads Demo.world Demo.mixed_uploads []) = [] ++ evs
    /\ Forall (fun nd => 1 <= fst nd <= snd nd) (overall_progress_pairs evs).
Proof.
  destruct (progress_values_stay_in_range Demo.world Demo.mixed_uploads []
              (snd (process_uploads Demo.world Demo.mixed_uploads []))
              (fst (process_uploads Demo.world Demo.mixed_uploads [])))
    as (evs & Htr & _ & Hov).
  - now destruct (process_uploads Demo.world Demo.mixed_uploads []).
  - exists evs. split; assumption.
Defined.

(** ** Which operation a row belongs to *)

Lemma Forall2_nth_error_r {A B} (P : A -> B -> Prop) (l1 : list A) (l2 : list B) :
  Forall2 P l1 l2 ->
  forall i y, nth_error l2 i = Some y ->
  exists x, nth_error l1 i = Some x /\ P x y.
Proof.
  induction 1 as [| x y l1 l2 Hxy _ IH]; intros i z Hz.
  - destruct i; discriminate.
  - destruct i as [| i]; cbn [nth_error] in *.
    + injection Hz as <-. now exists x.
    + now apply IH.
Qed.

Lemma segment_row_at (E : Env) (op_idx : nat) (images : list ImageItem)
    (seg : string * list (dict * trace)) (i : nat) (r : dict) :
  Forall2 (step_of E op_idx (fst seg)) images (snd seg) ->
  nth_error (segment_rows seg) i = Some r ->
  exists image,
    nth_error images i = Some image /\ row_of op_idx image r.
Proof.
  intros Hsteps Hr. unfold segment_rows in Hr.
  rewrite nth_error_map in Hr.
  match type of Hr with option_map fst ?x = _ =>
    destruct x as [st |] eqn:Hst end;
    try rewrite Hst in Hr; cbn [option_map] in Hr; [| discriminate Hr].
  injection Hr as Hr. subst r.
  destruct (Forall2_nth_error_r _ _ _ Hsteps i st Hst) as (image & Himage & Hstep).
  exists image. split; [exact Himage |].
  now destruct (step_events _ _ _ _ _ Hstep) as (_ & _ & _ & Hrow).
Qed.

Lemma position_in_groups (E : Env) (l : list ImageItem) :
  forall fuel j k segs,
    length l - j <= fuel ->
    segments_of E k (groups_from BATCH_SIZE l fuel j) segs ->
    forall i r,
      nth_error (concat (map segment_rows segs)) i = Some r ->
      exists image,
        nth_error l (j + i) = Some image
        /\ row_of (k + i / BATCH_SIZE) image r.
Proof.
  assert (Hb : 0 < BATCH_SIZE) by (unfold BATCH_SIZE; lia).
  induction fuel as [| fuel IH]; intros j k segs Hfuel Hsegs i r Hr.
  - rewrite groups_from_done in Hsegs by lia.
    destruct segs; [destruct i; cbn in Hr; discriminate | contradiction].
  - destruct (le_lt_dec (length l) j) as [Hge | Hlt].
    { rewrite groups_from_done in Hsegs by lia.
      destruct segs; [destruct i; cbn in Hr; discriminate | contradiction]. }
    rewrite groups_from_cons in Hsegs by assumption.
    destruct segs as [| seg segs]; [contradiction |].
    destruct Hsegs as [Hsteps Hrest].
    cbn [map concat] in Hr.
    assert (Hlen : length (segment_rows seg)
                   = Nat.min BATCH_SIZE (length l - j)).
    { pose proof (Forall2_length Hsteps) as Hl.
      rewrite length_firstn, length_skipn in Hl.
      unfold segment_rows. rewrite length_map. symmetry. exact Hl. }
    destruct (le_lt_dec (length (segment_rows seg)) i) as [Hafter | Hin].
    + rewrite nth_error_app2 in Hr by assumption.
      destruct (le_lt_dec (length l) (j + BATCH_SIZE)) as [Hlast | Hmore].
      { rewrite groups_from_done in Hrest by lia.
        destruct segs; [| contradiction].
        destruct (i - length (segment_rows seg)); cbn in Hr; discriminate. }
      rewrite Hlen, Nat.min_l in Hr, Hafter by lia.
      destruct (IH (j + BATCH_SIZE) (S k) segs ltac:(lia) Hrest _ _ Hr)
        as (image & Himage & Hrow).
      exists image. split.
      * rewrite <- Himage. f_equal. lia.
      * replace (k + i / BATCH_SIZE)
          with (S k + (i - BATCH_SIZE) / BATCH_SIZE); [exact Hrow |].
        replace i with ((i - BATCH_SIZE) + 1 * BATCH_SIZE) at 2 by lia.
        rewrite Nat.div_add by lia. lia.
    + rewrite nth_error_app1 in Hr by assumption.
      destruct (segment_row_at E k _ seg i r Hsteps Hr) as (image & Himage & Hrow).
      exists image. split.
      * rewrite nth_error_firstn in Himage.
        destruct (i <? BATCH_SIZE); [| discriminate].
        now rewrite nth_error_skipn in Himage.
      * rewrite Nat.div_small by lia. now rewrite Nat.add_0_r.
Qed.

(** X11. In a run that completes, the row at position [i] (from 0) of the
    results is the row of the image at position [i] of the flattened list,
    and its operation is [i // 50 + 1]: rows follow the images one for one and
    fifty consecutive rows share an operation folder. *)
Theorem row_position_gives_image_and_operation
    (E : Env) (files : list UploadedFile) (tr tr' : trace) (s : RunSummary)
    (i : nat) (r : dict) :
  process_uploads E files tr = (Ok (Some s), tr') ->
  nth_error (results s) i = Some r ->
  exists all_images image,
    collect_images E files [] = Ok all_images
    /\ nth_error all_images i = Some image
    /\ lookup "image" r = Some (VStr (image_name image))
    /\ lookup "operation" r = Some (VInt (Z.of_nat (i / 50 + 1))).
Proof.
  intros Hrun Hr.
  destruct (process_uploads_shape E files tr tr' s Hrun)
    as (all_images & master & segs & Hflat & _ & _ & Hsegs & Hres & _).
  rewrite Hres in Hr. rewrite split_operations_groups in Hsegs.
  destruct (position_in_groups E all_images (length all_images) 0 1 segs
              ltac:(lia) Hsegs i r Hr) as (image & Himage & Hrow).
  exists all_images, image. cbn [Nat.add] in Himage.
  destruct (row_keys _ _ _ Hrow) as (Hop & Hname & _).
  repeat split; try assumption.
  rewrite Hop. do 3 f_equal. unfold BATCH_SIZE. lia.
Qed.

Lemma row_position_gives_image_and_operation_witness :
  exists r,
    nth_error (match fst (process_uploads Demo.world (Demo.photos 120) []) with
               | Ok (Some s) => results s
               | _ => []
               end) 100 = Some r
    /\ lookup "operation" r = Some (VInt 3).
Proof.
  destruct (process_uploads Demo.world (Demo.photos 120) [])
    as [[[s |] | msg] tr'] eqn:Hrun; try (vm_compute in Hrun; discriminate).
  cbn [fst].
  destruct (nth_error (results s) 100) as [r |] eqn:Hr.
  - exists r. split; [reflexivity |].
    destruct (row_position_gives_image_and_operation Demo.world
                (Demo.photos 120) [] tr' s 100 r Hrun Hr)
      as (all_images & image & _ & _ & _ & Hop).
    exact Hop.
  - exfalso. vm_compute in Hrun. injection Hrun as <- _. discriminate.
Defined.

(** ** Documents *)

(** What [create_equipment_doc] asks of Drive and Docs, case by case. *)
Lemma create_doc_cases (E : Env) (data : value) (folder_id : string) (t : trace) :
  exists out devs,
    create_equipment_doc E data folder_id t = (out, t ++ devs)
    /\ ((exists msg,
            out = Raise msg /\ devs = []
            /\ (getitem E data "device" = Raise msg
                \/ getitem E data "serial" = Raise msg))
        \/ (exists msg device serial,
               out = Raise msg
               /\ getitem E data "device" = Ok device
               /\ getitem E data "serial" = Ok serial
               /\ devs = [drive_create_doc (doc_title_of E device serial) folder_id]
               /\ (doc_created E t (doc_title_of E device serial) folder_id
                   = Raise msg
                   \/ getitem E data "model" = Raise msg
                   \/ getitem E data "manufacturer" = Raise msg))
        \/ (exists device serial model manufacturer doc_id,
               getitem E data "device" = Ok device
               /\ getitem E data "serial" = Ok serial
               /\ getitem E data "model" = Ok model
               /\ getitem E data "manufacturer" = Ok manufacturer
               /\ doc_created E t (doc_title_of E device serial) folder_id
                  = Ok doc_id
               /\ devs = [drive_create_doc (doc_title_of E device serial) folder_id;
                          docs_layout doc_id device model serial manufacturer]
               /\ ((layout_done E (t ++ [drive_create_doc
                                            (doc_title_of E device serial)
                                            folder_id])
                                 doc_id device model serial manufacturer = Ok tt
                    /\ out = Ok (doc_url_of doc_id))
                   \/ exists msg,
                        layout_done E (t ++ [drive_create_doc
                                               (doc_title_of E device serial)
                                               folder_id])
                                    doc_id device model serial manufacturer
                        = Raise msg
                        /\ out = Raise msg))).
Proof.
  unfold create_equipment_doc. rewrite bind_lift.
  destruct (getitem E data "device") as [device | msg] eqn:Hd.
  2: { exists (Raise msg), []. rewrite app_nil_r. split; [reflexivity |].
       left. exists msg. auto. }
  rewrite bind_lift.
  destruct (getitem E data "serial") as [serial | msg] eqn:Hs.
  2: { exists (Raise msg), []. rewrite app_nil_r. split; [reflexivity |].
       left. exists msg. auto. }
  rewrite bind_call. fold (doc_title_of E device serial).
  set (title := doc_title_of E device serial).
  destruct (doc_created E t title folder_id) as [doc_id | msg] eqn:Hid.
  2: { exists (Raise msg), [drive_create_doc title folder_id].
       split; [reflexivity |]. right. left. exists msg, device, serial. auto 8. }
  rewrite !bind_lift.
  destruct (getitem E data "model") as [model | msg] eqn:Hm.
  2: { exists (Raise msg), [drive_create_doc title folder_id].
       split; [reflexivity |]. right. left. exists msg, device, serial. auto 8. }
  rewrite !bind_lift.
  destruct (getitem E data "manufacturer") as [manufacturer | msg] eqn:Hf.
  2: { exists (Raise msg), [drive_create_doc title folder_id].
       split; [reflexivity |]. right. left. exists msg, device, serial. auto 8. }
  rewrite bind_call.
  destruct (layout_done E (t ++ [drive_create_doc title folder_id]) doc_id
                        device model serial manufacturer) as [[] | msg] eqn:Hlay.
  - eexists _, [drive_create_doc title folder_id; _]. unfold ret.
    rewrite <- app_assoc. split; [reflexivity |]. right. right.
    exists device, serial, model, manufacturer, doc_id.
    repeat split; auto.
  - eexists (Raise msg), [drive_create_doc title folder_id; _].
    rewrite <- app_assoc. split; [reflexivity |]. right. right.
    exists device, serial, model, manufacturer, doc_id.
    repeat split; eauto.
Qed.

(** What the [try] block of one image asks of Drive and Docs. *)
Lemma process_image_documents (E : Env) (op_idx : nat) (op_folder_id : string)
    (image : ImageItem) (t : trace) :
  exists r ievs,
    process_image E op_idx op_folder_id image t = (Ok r, t ++ ievs)
    /\ extractions ievs = [image_bytes image]
    /\ length (documents ievs) <= 1
    /\ Forall (fun d => snd d = op_folder_id) (documents ievs)
    /\ length (layouts ievs) <= length (documents ievs)
    /\ (has_status "SUCCESS" r = true ->
        exists data device serial doc_id,
          fst (extract_equipment_data E (image_bytes image) t) = Ok data
          /\ getitem E data "device" = Ok device
          /\ getitem E data "serial" = Ok serial
          /\ doc_created E (t ++ [gemini_generate (image_bytes image)])
                         (doc_title_of E device serial) op_folder_id
             = Ok doc_id
          /\ documents ievs = [(doc_title_of E device serial, op_folder_id)]
          /\ layouts ievs = [doc_id]
          /\ lookup "doc_url" r = Some (VStr (doc_url_of doc_id))).
Proof.
  rewrite process_image_eq.
  destruct (extract_outcome E (image_bytes image) t) as [out Hex].
  rewrite Hex. cbn [fst].
  set (g := gemini_generate (image_bytes image)).
  destruct out as [data | msg].
  2: { exists (failed_row op_idx image msg), [g].
       split; [reflexivity |]. repeat split; try (simpl; lia);
         try constructor. discriminate. }
  destruct (create_doc_cases E data op_folder_id (t ++ [g]))
    as (out & devs & Hdoc & Hcases).
  rewrite Hdoc.
  destruct Hcases
    as [(msg & -> & -> & _)
       | [(msg & device & serial & -> & Hd & Hs & -> & _)
         | (device & serial & model & manufacturer & doc_id & Hd & Hs & Hm & Hf
            & Hid & -> & Hout)]].
  - exists (failed_row op_idx image msg), [g]. rewrite app_nil_r.
    split; [reflexivity |]. repeat split; try (simpl; lia); try constructor.
    discriminate.
  - exists (failed_row op_idx image msg),
      [g; drive_create_doc (doc_title_of E device serial) op_folder_id].
    rewrite <- app_assoc. split; [reflexivity |].
    repeat split; try (simpl; lia); try (repeat constructor). discriminate.
  - exists (match out with
            | Ok _ => success_row op_idx image device model serial manufacturer
                                  (doc_url_of doc_id)
            | Raise msg => failed_row op_idx image msg
            end),
      [g; drive_create_doc (doc_title_of E device serial) op_folder_id;
       docs_layout doc_id device model serial manufacturer].
    rewrite <- app_assoc. split.
    { destruct Hout as [[_ ->] | (msg & _ & ->)]; [| reflexivity].
      unfold label_fields. rewrite Hd, Hm, Hs, Hf. reflexivity. }
    repeat split; try (simpl; lia); try (repeat constructor).
    intros Hsuccess.
    destruct Hout as [[_ ->] | (msg & _ & ->)]; [| discriminate].
    exists data, device, serial, doc_id. repeat split; assumption.
Qed.

(** X12. For every image, the [try] block hands the image to the
    extractor once and asks Drive for at most one document, always in the
    folder of the operation; when the row is tagged SUCCESS exactly one
    document was created and laid out, its title is [device - serial], and
    the row's [doc_url] is the edit address of the id Drive returned. *)
Theorem one_document_per_successful_image
    (E : Env) (op_idx : nat) (op_folder_id : string) (image : ImageItem)
    (tr tr' : trace) (r : dict) :
  process_image E op_idx op_folder_id image tr = (Ok r, tr') ->
  exists ievs,
    tr' = tr ++ ievs
    /\ extractions ievs = [image_bytes image]
    /\ length (documents ievs) <= 1
    /\ Forall (fun d => snd d = op_folder_id) (documents ievs)
    /\ length (layouts ievs) <= length (documents ievs)
    /\ (has_status "SUCCESS" r = true ->
        exists data device serial doc_id,
          fst (extract_equipment_data E (image_bytes image) tr) = Ok data
          /\ getitem E data "device" = Ok device
          /\ getitem E data "serial" = Ok serial
          /\ doc_created E (tr ++ [gemini_generate (image_bytes image)])
                         (doc_title_of E device serial) op_folder_id
             = Ok doc_id
          /\ documents ievs = [(doc_title_of E device serial, op_folder_id)]
          /\ layouts ievs = [doc_id]
          /\ lookup "doc_url" r = Some (VStr (doc_url_of doc_id))).
Proof.
  intros Hp.
  destruct (process_image_documents E op_idx op_folder_id image tr)
    as (r' & ievs & Hp' & Hfacts).
  rewrite Hp in Hp'. injection Hp' as -> ->.
  exists ievs. split; [reflexivity | exact Hfacts].
Qed.

Lemma one_document_per_successful_image_witness :
  exists ievs,
    [gemini_generate [Byte.x00]; drive_create_doc "Wheelchair - SN123" "F5";
     docs_layout "D1" (VStr "Wheelchair") (VStr "K0001") (VStr "SN123")
                 (VStr "n/a")] = [] ++ ievs
    /\ documents ievs = [("Wheelchair - SN123", "F5")].
Proof.
  destruct (one_document_per_successful_image Demo.world 1 "F5"
              (mkImage "x.jpg" [Byte.x00]) [] _ _ eq_refl)
    as (ievs & Htr & _ & _ & _ & _ & Hok).
  exists ievs. split; [exact Htr |].
  destruct (Hok eq_refl) as (data & device & serial & doc_id & Hdata & Hd & Hs & _
                             & Hdocs & _).
  rewrite Hdocs. cbv in Hdata. injection Hdata as <-.
  cbv in Hd, Hs. injection Hd as <-. injection Hs as <-. reflexivity.
Defined.


(** X13. A label that has [device] and [serial] but lacks [model] or
    [manufacturer] leaves a document behind: Drive has created it when the
    missing key is read, and the row is the failure row with the [KeyError].
    A label that lacks [device] fails before Drive is asked for anything. *)
Theorem late_missing_field_leaves_a_document
    (E : Env) (op_idx : nat) (op_folder_id : string) (image : ImageItem)
    (tr tr1 : trace) (data : value) :
  extract_equipment_data E (image_bytes image) tr = (Ok data, tr1) ->
  (forall msg,
      getitem E data "device" = Raise msg ->
      process_image E op_idx op_folder_id image tr
      = (Ok (failed_row op_idx image msg), tr1))
  /\ (forall device serial doc_id msg,
         getitem E data "device" = Ok device ->
         getitem E data "serial" = Ok serial ->
         doc_created E tr1 (doc_title_of E device serial) op_folder_id
         = Ok doc_id ->
         getitem E data "model" = Raise msg
         \/ (exists model, getitem E data "model" = Ok model
                           /\ getitem E data "manufacturer" = Raise msg) ->
         process_image E op_idx op_folder_id image tr
         = (Ok (failed_row op_idx image msg),
            tr1 ++ [drive_create_doc (doc_title_of E device serial)
                                     op_folder_id])).
Proof.
  intros Hex. split.
  - intros msg Hd. rewrite process_image_eq, Hex.
    unfold create_equipment_doc. now rewrite bind_lift, Hd.
  - intros device serial doc_id msg Hd Hs Hid Hmissing.
    rewrite process_image_eq, Hex. unfold create_equipment_doc.
    rewrite bind_lift, Hd, bind_lift, Hs, bind_call.
    fold (doc_title_of E device serial). rewrite Hid.
    destruct Hmissing as [Hm | (model & Hm & Hf)].
    + now rewrite !bind_lift, Hm.
    + now rewrite !bind_lift, Hm, !bind_lift, Hf.
Qed.

Lemma late_missing_field_leaves_a_document_witness :
  process_image Demo2.modelless_world 1 "F5" (mkImage "z.jpg" [Byte.x00]) []
  = (Ok (failed_row 1 (mkImage "z.jpg" [Byte.x00]) "'model'"),
     [gemini_generate [Byte.x00]; drive_create_doc "Wheelchair - SN123" "F5"]).
Proof.
  destruct (late_missing_field_leaves_a_document Demo2.modelless_world 1 "F5"
              (mkImage "z.jpg" [Byte.x00]) [] [gemini_generate [Byte.x00]]
              Demo2.modelless_label eq_refl) as [_ Hlate].
  apply (Hlate (VStr "Wheelchair") (VStr "SN123") "D1" "'model'");
    try reflexivity.
  now left.
Defined.

(** ** The documents of a run *)

Lemma step_is_sound (E : Env) (op_idx : nat) (op_folder_id : string)
    (image : ImageItem) (st : dict * trace) :
  step_of E op_idx op_folder_id image st -> step_sound op_folder_id st.
Proof.
  intros [t Hp].
  destruct (process_image_documents E op_idx op_folder_id image t)
    as (r & ievs & Hp' & _ & Hone & Hfolder & Hlay & Hok).
  rewrite Hp in Hp'. injection Hp' as Hr Hevs.
  apply app_inv_head in Hevs. subst r ievs.
  repeat split; try assumption.
  intros Hs.
  destruct (Hok Hs) as (data & device & serial & doc_id & _ & _ & _ & _ & _
                        & Hlayout & _).
  now rewrite Hlayout.
Qed.

Lemma images_events_documents (E : Env) (op_idx : nat) (op_folder_id : string)
    (n_images n_all : nat) (images : list ImageItem) :
  forall steps img_idx,
    Forall2 (step_of E op_idx op_folder_id) images steps ->
    documents (images_events op_idx n_images n_all img_idx images steps)
    = flat_map (fun st => documents (snd st)) steps
    /\ layouts (images_events op_idx n_images n_all img_idx images steps)
       = flat_map (fun st => layouts (snd st)) steps.
Proof.
  induction images as [| image rest IH]; intros steps img_idx Hsteps;
    inversion Hsteps as [| ? st ? steps' Hst Hrest]; subst.
  - split; reflexivity.
  - destruct (IH steps' (S img_idx) Hrest) as [IHd IHl].
    cbn [images_events flat_map]. unfold image_events. split.
    + rewrite documents_app. cbn [documents flat_map app].
      change (flat_map _ (snd st ++ ?x)) with (documents (snd st ++ x)).
      rewrite documents_app. cbn [documents flat_map app].
      now rewrite app_nil_r, IHd.
    + rewrite layouts_app. cbn [layouts flat_map app].
      change (flat_map _ (snd st ++ ?x)) with (layouts (snd st ++ x)).
      rewrite layouts_app. cbn [layouts flat_map app].
      now rewrite app_nil_r, IHl.
Qed.

Lemma images_events_csv (E : Env) (op_idx : nat) (op_folder_id : string)
    (n_images n_all : nat) (images : list ImageItem) :
  forall steps img_idx,
    Forall2 (step_of E op_idx op_folder_id) images steps ->
    csv_files (images_events op_idx n_images n_all img_idx images steps) = [].
Proof.
  induction images as [| image rest IHi]; intros steps img_idx Hsteps;
    inversion Hsteps as [| ? st ? steps' Hst Hrest]; subst; [reflexivity |].
  destruct (step_events _ _ _ _ _ Hst) as (devs & Hevs & Hdevs & _).
  destruct (doc_events_silent _ Hdevs) as (_ & Hc & _).
  cbn [images_events]. unfold image_events. rewrite Hevs.
  rewrite csv_files_app. cbn [csv_files flat_map app].
  change (flat_map _ (devs ++ ?x)) with (csv_files (devs ++ x)).
  rewrite csv_files_app, Hc. cbn [csv_files flat_map app].
  now apply IHi.
Qed.

Lemma operations_events_documents (E : Env) (master_folder_id : string)
    (n_ops n_all : nat) (ops : list (list ImageItem)) :
  forall segs op_idx,
    segments_of E op_idx ops segs ->
    documents (operations_events E master_folder_id n_ops n_all op_idx ops segs)
    = flat_map (fun st => documents (snd st)) (all_steps segs)
    /\ layouts (operations_events E master_folder_id n_ops n_all op_idx ops segs)
       = flat_map (fun st => layouts (snd st)) (all_steps segs)
    /\ csv_files (operations_events E master_folder_id n_ops n_all op_idx
                                    ops segs)
       = batch_files E (map fst segs) (map segment_rows segs)
    /\ Forall (fun seg => Forall (step_sound (fst seg)) (snd seg)) segs
    /\ length (all_steps segs) = length (concat ops)
    /\ concat (map segment_rows segs) = map fst (all_steps segs).
Proof.
  induction ops as [| images rest IH]; intros [| seg segs] op_idx Hsegs;
    try contradiction; [repeat split; constructor |].
  destruct Hsegs as [Hsteps Hrest].
  destruct (IH segs (S op_idx) Hrest) as (IHd & IHl & IHc & IHs & IHn & IHr).
  destruct (images_events_documents E op_idx (fst seg) (length images) n_all
              images (snd seg) 1 Hsteps) as [Hd Hl].
  pose proof (images_events_csv E op_idx (fst seg) (length images) n_all images
                (snd seg) 1 Hsteps) as Hcsv.
  cbn [operations_events all_steps flat_map map concat length].
  unfold operation_events.
  repeat match goal with |- _ /\ _ => split end.
  - rewrite !documents_app, Hd, IHd. cbn [documents flat_map app].
    unfold all_steps. now rewrite flat_map_app, app_nil_r.
  - rewrite !layouts_app, Hl, IHl. cbn [layouts flat_map app].
    unfold all_steps. now rewrite flat_map_app, app_nil_r.
  - rewrite !csv_files_app, Hcsv, IHc. reflexivity.
  - constructor; [| exact IHs].
    clear - Hsteps. induction Hsteps as [| image st images steps Hst _ IHst];
      constructor; [| exact IHst].
    eapply step_is_sound; eassumption.
  - fold (all_steps segs). rewrite !length_app, IHn.
    f_equal. symmetry. eapply Forall2_length; eassumption.
  - fold (all_steps segs). rewrite map_app, IHr. reflexivity.
Qed.

Lemma sound_steps_counts (segs : list (string * list (dict * trace))) :
  Forall (fun seg => Forall (step_sound (fst seg)) (snd seg)) segs ->
  length (filter (has_status "SUCCESS") (map fst (all_steps segs)))
  <= length (flat_map (fun st => layouts (snd st)) (all_steps segs))
  /\ length (flat_map (fun st => layouts (snd st)) (all_steps segs))
     <= length (flat_map (fun st => documents (snd st)) (all_steps segs))
  /\ length (flat_map (fun st => documents (snd st)) (all_steps segs))
     <= length (all_steps segs)
  /\ Forall (fun d => In (snd d) (map fst segs))
            (flat_map (fun st => documents (snd st)) (all_steps segs)).
Proof.
  induction 1 as [| seg segs Hseg _ (IH1 & IH2 & IH3 & IH4)];
    [repeat split; constructor |].
  cbn [all_steps flat_map map]. fold (all_steps segs).
  rewrite map_app, filter_app, !flat_map_app, !length_app.
  assert (Hhere :
    length (filter (has_status "SUCCESS") (map fst (snd seg)))
    <= length (flat_map (fun st => layouts (snd st)) (snd seg))
    /\ length (flat_map (fun st => layouts (snd st)) (snd seg))
       <= length (flat_map (fun st => documents (snd st)) (snd seg))
    /\ length (flat_map (fun st => documents (snd st)) (snd seg))
       <= length (snd seg)
    /\ Forall (fun d => snd d = fst seg)
              (flat_map (fun st => documents (snd st)) (snd seg))).
  { clear - Hseg. induction Hseg as [| st steps (H1 & H2 & H3 & H4) _ (I1 & I2 & I3 & I4)];
      [repeat split; constructor |].
    cbn [map filter flat_map]. rewrite !length_app.
    repeat split.
    - destruct (has_status "SUCCESS" (fst st)) eqn:Hs; cbn [length]; [| lia].
      rewrite (H4 eq_refl). lia.
    - lia.
    - cbn [length]. lia.
    - apply Forall_app. now split. }
  destruct Hhere as (H1 & H2 & H3 & H4).
  repeat split; try lia.
  apply Forall_app. split.
  - eapply Forall_impl; [| exact H4]. intros d ->. now left.
  - eapply Forall_impl; [| exact IH4]. intros d Hd. now right.
Qed.

(** X14. In a run that completes, every document was asked of Drive in the
    folder of an operation, the same folders the per-operation CSV files went
    to; every row tagged SUCCESS has its document laid out; and there may be
    more documents than successes, never more than images:
    [success <= layouts <= documents <= total]. *)
Theorem documents_of_a_completed_run
    (E : Env) (files : list UploadedFile) (tr tr' : trace) (s : RunSummary) :
  process_uploads E files tr = (Ok (Some s), tr') ->
  exists evs folder_ids groups master,
    tr' = tr ++ evs
    /\ results s = concat groups
    /\ length folder_ids = length groups
    /\ csv_files evs
       = batch_files E folder_ids groups
         ++ [("master_results.csv", master, to_csv E (results s))]
    /\ Forall (fun d => In (snd d) folder_ids) (documents evs)
    /\ success s <= length (layouts evs)
    /\ length (layouts evs) <= length (documents evs)
    /\ length (documents evs) <= total s.
Proof.
  intros Hrun.
  destruct (process_uploads_shape E files tr tr' s Hrun)
    as (all_images & master & segs & Hflat & _ & _ & Hsegs & Hres & Htot & _
        & Hok & _ & _ & Htr).
  destruct (operations_events_documents E master
              (length (split_operations all_images)) (length all_images)
              (split_operations all_images) segs 1 Hsegs)
    as (Hd & Hl & Hc & Hsound & Hn & Hrows).
  destruct (sound_steps_counts segs Hsound) as (C1 & C2 & C3 & C4).
  rewrite split_operations_concat in Hn.
  eexists _, (map fst segs), (map segment_rows segs), master.
  split; [exact Htr |]. split; [exact Hres |].
  split; [now rewrite !length_map |].
  assert (Hdocs : documents (prelude E tr all_images
                             ++ operations_events E master
                                  (length (split_operations all_images))
                                  (length all_images) 1
                                  (split_operations all_images) segs
                             ++ [master_upload E master (results s)])
                  = flat_map (fun st => documents (snd st)) (all_steps segs)).
  { rewrite !documents_app, Hd. unfold prelude, found_event, master_request,
      info_event, master_upload. cbn [documents flat_map app].
    now rewrite app_nil_r. }
  assert (Hlays : layouts (prelude E tr all_images
                           ++ operations_events E master
                                (length (split_operations all_images))
                                (length all_images) 1
                                (split_operations all_images) segs
                           ++ [master_upload E master (results s)])
                  = flat_map (fun st => layouts (snd st)) (all_steps segs)).
  { rewrite !layouts_app, Hl. unfold prelude, found_event, master_request,
      info_event, master_upload. cbn [layouts flat_map app].
    now rewrite app_nil_r. }
  rewrite Hdocs, Hlays, Hok, Hres, Hrows, Htot.
  repeat split; try assumption; try lia.
  rewrite !csv_files_app, Hc. unfold prelude, found_event, master_request,
    info_event, master_upload. cbn [csv_files flat_map app].
  reflexivity.
Qed.

Lemma documents_of_a_completed_run_witness :
  exists s tr' evs,
    process_uploads Demo.world Demo.mixed_uploads [] = (Ok (Some s), tr')
    /\ tr' = [] ++ evs
    /\ success s <= length (layouts evs)
    /\ length (documents evs) <= total s.
Proof.
  destruct (process_uploads Demo.world Demo.mixed_uploads [])
    as [[[s |] | msg] tr'] eqn:Hrun; try (vm_compute in Hrun; discriminate).
  destruct (documents_of_a_completed_run Demo.world Demo.mixed_uploads [] tr' s
              Hrun)
    as (evs & fids & groups & master & Htr & _ & _ & _ & _ & H1 & _ & H3).
  exists s, tr', evs. repeat split; assumption.
Defined.

(** ** Runs where every image fails, or none *)

Lemma segments_forall_steps (E : Env) (P : dict * trace -> Prop) :
  (forall op_idx folder_id image st,
      step_of E op_idx folder_id image st -> P st) ->
  forall ops segs op_idx,
    segments_of E op_idx ops segs -> Forall P (all_steps segs).
Proof.
  intros HP. induction ops as [| images rest IH]; intros [| seg segs] op_idx Hsegs;
    try contradiction; [constructor |].
  destruct Hsegs as [Hsteps Hrest]. cbn [all_steps flat_map].
  apply Forall_app. split; [| eapply IH; eassumption].
  clear - HP Hsteps.
  induction Hsteps as [| image st images steps Hst _ IHs]; constructor;
    [eapply HP; eassumption | exact IHs].
Qed.

Lemma filter_none {A} (f : A -> bool) (l : list A) :
  Forall (fun x => f x = false) l -> filter f l = [].
Proof.
  induction 1 as [| x l Hx _ IH]; [reflexivity |].
  cbn [filter]. now rewrite Hx.
Qed.

Lemma filter_all {A} (f : A -> bool) (l : list A) :
  Forall (fun x => f x = true) l -> filter f l = l.
Proof.
  induction 1 as [| x l Hx _ IH]; [reflexivity |].
  cbn [filter]. now rewrite Hx, IH.
Qed.

Lemma flat_map_nil {A B} (f : A -> list B) (l : list A) :
  Forall (fun x => f x = []) l -> flat_map f l = [].
Proof.
  induction 1 as [| x l Hx _ IH]; [reflexivity |].
  cbn [flat_map]. now rewrite Hx, IH.
Qed.

Lemma flat_map_singletons {A B} (f : A -> list B) (l : list A) :
  Forall (fun x => length (f x) = 1) l -> length (flat_map f l) = length l.
Proof.
  induction 1 as [| x l Hx _ IH]; [reflexivity |].
  cbn [flat_map length]. rewrite length_app, Hx, IH. reflexivity.
Qed.

(** A run on a non-empty list completes when Drive accepts, in the shape of
    [process_uploads_shape]. *)
Lemma accepted_run_shape (E : Env) (files : list UploadedFile)
    (all_images : list ImageItem) (tr : trace) :
  drive_accepts E ->
  collect_images E files [] = Ok all_images ->
  all_images <> [] ->
  exists s evs segs,
    process_uploads E files tr = (Ok (Some s), tr ++ evs)
    /\ completed E all_images s evs
    /\ segments_of E 1 (split_operations all_images) segs
    /\ results s = map fst (all_steps segs)
    /\ length (all_steps segs) = length all_images
    /\ documents evs = flat_map (fun st => documents (snd st)) (all_steps segs)
    /\ layouts evs = flat_map (fun st => layouts (snd st)) (all_steps segs).
Proof.
  intros Hdrive Hflat Hne.
  destruct (process_uploads_outcome E files all_images tr Hflat Hne)
    as (out & evs & Hout & Htotal & Hdone).
  destruct (Htotal Hdrive) as [s ->].
  destruct (Hdone _ eq_refl) as (s' & [= <-] & Hcompleted).
  destruct (process_uploads_shape E files tr (tr ++ evs) s Hout)
    as (all' & master & segs & Hflat' & _ & _ & Hsegs & Hres & _ & _ & _ & _
        & _ & Htr).
  rewrite Hflat in Hflat'. injection Hflat' as <-.
  apply app_inv_head in Htr.
  destruct (operations_events_documents E master
              (length (split_operations all_images)) (length all_images)
              (split_operations all_images) segs 1 Hsegs)
    as (Hd & Hl & _ & _ & Hn & Hrows).
  rewrite split_operations_concat in Hn.
  exists s, evs, segs.
  repeat match goal with |- _ /\ _ => split end; try assumption.
  - now rewrite Hres.
  - rewrite Htr, !documents_app, Hd.
    unfold prelude, found_event, master_request, info_event, master_upload.
    cbn [documents flat_map app]. now rewrite app_nil_r.
  - rewrite Htr, !layouts_app, Hl.
    unfold prelude, found_event, master_request, info_event, master_upload.
    cbn [layouts flat_map app]. now rewrite app_nil_r.
Qed.

(** X15. When the extractor raises on every image and Drive accepts
    folders and CSV files, the run still completes: every image was handed to
    the extractor, no document was asked of Drive, and the summary counts no
    success and as many failures as images. *)
Theorem run_completes_when_every_image_fails
    (E : Env) (files : list UploadedFile) (all_images : list ImageItem)
    (tr : trace) :
  drive_accepts E ->
  extractor_always_fails E ->
  collect_images E files [] = Ok all_images ->
  all_images <> [] ->
  exists s evs,
    process_uploads E files tr = (Ok (Some s), tr ++ evs)
    /\ total s = length all_images
    /\ success s = 0
    /\ failed s = total s
    /\ extractions evs = map image_bytes all_images
    /\ documents evs = [].
Proof.
  intros Hdrive Hfails Hflat Hne.
  destruct (accepted_run_shape E files all_images tr Hdrive Hflat Hne)
    as (s & evs & segs & Hrun & Hdone & Hsegs & Hres & Hn & Hd & _).
  destruct Hdone as (_ & _ & _ & _ & Htot & _ & Hok & Hko & _ & _ & _ & _ & Hext & _).
  assert (Hsteps : Forall (fun st : dict * trace =>
                             has_status "SUCCESS" (fst st) = false
                             /\ has_status "FAILED" (fst st) = true
                             /\ documents (snd st) = [])
                          (all_steps segs)).
  { eapply segments_forall_steps; [| exact Hsegs].
    intros op_idx fid image st [t Hp].
    rewrite process_image_eq in Hp.
    destruct (Hfails t (image_bytes image)) as (msg & t1 & Hex).
    destruct (extract_outcome E (image_bytes image) t) as [out Hex'].
    rewrite Hex in Hex'. injection Hex' as <- ->.
    rewrite Hex in Hp. injection Hp as Hr Hevs.
    apply app_inv_head in Hevs. rewrite <- Hr, <- Hevs. repeat split. }
  exists s, evs. split; [exact Hrun |]. split; [exact Htot |].
  rewrite Hok, Hko, Htot, Hres, Hd.
  repeat split.
  - rewrite filter_none; [reflexivity |].
    apply Forall_map. eapply Forall_impl; [| exact Hsteps]. now intros st (H & _).
  - rewrite filter_all.
    + now rewrite length_map.
    + apply Forall_map. eapply Forall_impl; [| exact Hsteps].
      now intros st (_ & H & _).
  - exact Hext.
  - apply flat_map_nil. eapply Forall_impl; [| exact Hsteps].
    now intros st (_ & _ & H).
Qed.

Lemma blind_world_accepts : drive_accepts Demo2.blind_world.
Proof. split; intros; eexists; reflexivity. Qed.

Lemma blind_world_fails : extractor_always_fails Demo2.blind_world.
Proof. intros t image. eexists _, _. reflexivity. Qed.

Lemma run_completes_when_every_image_fails_witness :
  exists s evs,
    process_uploads Demo2.blind_world (Demo.photos 3) [] = (Ok (Some s), [] ++ evs)
    /\ success s = 0
    /\ failed s = 3.
Proof.
  destruct (run_completes_when_every_image_fails Demo2.blind_world
              (Demo.photos 3) (Demo.images 3) [] blind_world_accepts
              blind_world_fails eq_refl ltac:(discriminate))
    as (s & evs & Hrun & Htot & Hok & Hko & _).
  exists s, evs. split; [exact Hrun |]. split; [exact Hok |].
  now rewrite Hko, Htot.
Defined.

(** X16. When the extractor returns a label with its four fields for every
    image, Drive creates every document and Docs lays every one out, and
    Drive accepts folders and CSV files, the run completes with no failure:
    one document created and laid out per image, and as many successes as
    images. *)
Theorem run_succeeds_when_every_step_succeeds
    (E : Env) (files : list UploadedFile) (all_images : list ImageItem)
    (tr : trace) :
  drive_accepts E ->
  builder_always_succeeds E ->
  collect_images E files [] = Ok all_images ->
  all_images <> [] ->
  exists s evs,
    process_uploads E files tr = (Ok (Some s), tr ++ evs)
    /\ total s = length all_images
    /\ success s = total s
    /\ failed s = 0
    /\ length (documents evs) = total s
    /\ length (layouts evs) = total s.
Proof.
  intros Hdrive (Hlabel & Hdoc & Hlay) Hflat Hne.
  destruct (accepted_run_shape E files all_images tr Hdrive Hflat Hne)
    as (s & evs & segs & Hrun & Hdone & Hsegs & Hres & Hn & Hd & Hl).
  destruct Hdone as (_ & _ & _ & _ & Htot & _ & Hok & Hko & _).
  assert (Hsteps : Forall (fun st : dict * trace =>
                             has_status "SUCCESS" (fst st) = true
                             /\ has_status "FAILED" (fst st) = false
                             /\ length (documents (snd st)) = 1
                             /\ length (layouts (snd st)) = 1)
                          (all_steps segs)).
  { eapply segments_forall_steps; [| exact Hsegs].
    intros op_idx fid image st [t Hp].
    destruct (Hlabel t (image_bytes image)) as (data & t1 & fields & Hex & Hfields).
    destruct (extract_outcome E (image_bytes image) t) as [out Hex'].
    rewrite Hex in Hex'. injection Hex' as <- ->.
    destruct fields as [[[device model] serial] manufacturer].
    destruct (label_fields_ok E data _ _ _ _ Hfields) as (Gd & Gm & Gs & Gf).
    rewrite process_image_eq, Hex, Hfields in Hp.
    destruct (create_doc_cases E data fid (t ++ [gemini_generate (image_bytes image)]))
      as (out & devs & Hcreate & Hcases).
    rewrite Hcreate in Hp.
    destruct Hcases
      as [(msg & _ & _ & [Hbad | Hbad])
         | [(msg & d & se & _ & Hd' & Hs' & _ & [Hbad | [Hbad | Hbad]])
           | (d & se & m & f & doc_id & Hd' & Hs' & Hm' & Hf' & Hid & -> & Hout)]];
      try congruence.
    - destruct (Hdoc (t ++ [gemini_generate (image_bytes image)])
                     (doc_title_of E d se) fid) as [id Hid]. congruence.
    - destruct Hout as [[_ ->] | (msg & Hbad & _)];
        [| rewrite Hlay in Hbad; discriminate].
      injection Hp as Hr Hevs. rewrite <- app_assoc in Hevs.
      apply app_inv_head in Hevs. rewrite <- Hr, <- Hevs. repeat split. }
  exists s, evs. split; [exact Hrun |]. split; [exact Htot |].
  rewrite Hok, Hko, Htot, Hres, Hd, Hl.
  repeat split.
  - rewrite filter_all.
    + now rewrite length_map, Hn.
    + apply Forall_map. eapply Forall_impl; [| exact Hsteps]. now intros st (H & _).
  - rewrite filter_none; [reflexivity |].
    apply Forall_map. eapply Forall_impl; [| exact Hsteps].
    now intros st (_ & H & _).
  - rewrite flat_map_singletons; [exact Hn |].
    eapply Forall_impl; [| exact Hsteps]. now intros st (_ & _ & H & _).
  - rewrite flat_map_singletons; [exact Hn |].
    eapply Forall_impl; [| exact Hsteps]. now intros st (_ & _ & _ & H).
Qed.

Lemma fenced_world_accepts : drive_accepts Demo2.fenced_world.
Proof. split; intros; eexists; reflexivity. Qed.

Lemma fenced_world_succeeds : builder_always_succeeds Demo2.fenced_world.
Proof.
  split; [| split].
  - intros t image. eexists Demo.label, _, _. split; reflexivity.
  - intros. eexists. reflexivity.
  - reflexivity.
Qed.

Lemma run_succeeds_when_every_step_succeeds_witness :
  exists s evs,
    process_uploads Demo2.fenced_world (Demo.photos 3) []
    = (Ok (Some s), [] ++ evs)
    /\ success s = 3
    /\ failed s = 0
    /\ length (documents evs) = 3.
Proof.
  destruct (run_succeeds_when_every_step_succeeds Demo2.fenced_world
              (Demo.photos 3) (Demo.images 3) [] fenced_world_accepts
              fenced_world_succeeds eq_refl ltac:(discriminate))
    as (s & evs & Hrun & Htot & Hok & Hko & Hdocs & _).
  exists s, evs. split; [exact Hrun |].
  rewrite Hok, Hdocs, Htot. repeat split. exact Hko.
Defined.
